(** * YATD: the download-session orchestration of [torrent_downloader.py]

    A shallow embedding of the methods of [CodespaceTorrentDownloader] that
    drive the aria2 engine over JSON-RPC, watch a download, extract
    subtitles and relocate the finished files, together with the theorems
    that settle what the specification says about them.

    The Python methods talk to three collaborators: the engine (HTTP POSTs),
    the file system and [ffmpeg] (a subprocess).  They are modelled by a
    [World]: a clock, a file system, a chronological trace of what the
    program did, and oracles that fix how the collaborators answer.  Every
    theorem quantifies over the oracles, so it holds for every behaviour of
    the engine and of ffmpeg that the oracles can express.

    Conventions of the model:
    - the clock counts milliseconds; a request and a run of ffmpeg last as
      long as the oracle says, [time.sleep(s)] lasts [s] seconds, printing
      and reading the clock take no time;
    - replies are decoded JSON of the form the protocol gives them: the
      engine answers [aria2.tellStatus] with a status dictionary and every
      other method with a string, and the byte counts of a status are the
      integers that [int(...)] makes of aria2's decimal strings; what the
      methods do on a body of another form is not covered;
    - the file system is a flat map from paths to nodes;
    - a [while] loop runs on fuel, enough for the turns its condition lets
      it make, as the theorems show. *)

From Stdlib Require Import ZArith String Ascii List Bool Lia.
From stdpp Require Import base option list gmap strings.
Import ListNotations.
Set Warnings "-register-all".
Local Open Scope string_scope.
Local Open Scope Z_scope.

(** ** Data *)

(** One entry of the ["files"] list of a status reply; the program reads
    only ["path"], with [f.get("path")], so the key may be missing. *)
Record FileEntry := { path : option string }.

(** The dictionary under ["result"] of an [aria2.tellStatus] reply.  Every
    key is read with [status.get(key, default)], so each may be missing.
    The byte counts and the rate have been through [int(...)]. *)
Record Status := {
  status : option string;
  completedLength : option Z;
  totalLength : option Z;
  downloadSpeed : option Z;
  files : option (list FileEntry)
}.

(** The decoded body of a reply: a JSON object that carries a ["result"]
    member or not (an error envelope, an empty object).  The member, when
    there is one, has the type the protocol gives it.  Bodies that are
    JSON but not of this form (a bare [null], a ["result"] that is [null]
    or of another type, a byte count that is not a decimal number) are not
    modelled: on those the Python methods return [None] at once or raise
    [AttributeError], [TypeError] or [ValueError]. *)
Record Reply (A : Type) := { result : option A }.
Arguments result {A} _.

(** What the engine puts under ["result"]: a status dictionary for
    [aria2.tellStatus], a string (a GID or ["OK"]) for the other methods. *)
Definition ResultOf (method : string) : Type :=
  if String.eqb method "aria2.tellStatus" then Status else string.

(** JSON values the program sends as parameters. *)
Inductive Arg :=
| AStr (s : string)
| AInt (n : Z)
| AFloat (literal : string)
| ABool (b : bool)
| AList (l : list Arg)
| ADict (d : list (string * Arg))
| AFileB64 (file : string).   (* base64 of the bytes read from [file] *)

(** Python exceptions raised by the library calls the program makes. *)
Inductive Exn :=
| ConnectionError            (* requests: transport failure *)
| ReadTimeout                (* requests: the 15 s wait was exceeded *)
| HTTPError (code : Z)       (* raise_for_status *)
| JSONDecodeError            (* response.json() *)
| FileNotFoundError (p : string)
| IsADirectoryError (p : string)
| ShutilError (dst : string) (* shutil.Error: destination already exists *)
| TimeoutExpired             (* subprocess.run: the 30 s bound was exceeded *)
| OSError.

(** Result of running a piece of the program: a value, a Python exception,
    or [Exhausted] when a [while] loop of the model ran out of fuel (no
    [except] clause catches that one; the theorems show it never happens). *)
Inductive Res (A : Type) :=
| Ok (a : A)
| Raise (e : Exn)
| Exhausted.
Arguments Ok {A} _.
Arguments Raise {A} _.
Arguments Exhausted {A}.

(** Messages the program prints.  Formatting is not modelled; each message
    keeps the values it is built from. *)
Inductive Msg :=
| MsgRpcFailed (e : Exn)
| MsgApplying
| MsgNoFileList
| MsgSelected (n : nat)
| MsgMonitoring (name : string)
| MsgProgress (name : string) (completed total speed eta : Z)
    (* the percentage is [completed / total * 100]: not kept *)
| MsgCompleted (name : string)
| MsgFailed (name : string)
| MsgTimeout (name : string)
| MsgExtracting (video : string)
| MsgExtracted (lang : string)
| MsgExtractedFirst
| MsgNoSubtitles
| MsgProcessing (n : nat) (name : string)
| MsgProcessingFile (file : string) (size : Z)
| MsgProcessed (name : string)
| MsgStarting (name : string)
| MsgUnsupported (item : string)
| MsgAddMagnetFailed (e : Exn)
| MsgAddTorrentFailed (e : Exn)
| MsgDownloadFailed (e : Exn).

(** What the program does to the outside, in order.  [EvCall] marks the
    entry of [aria2_call]; [EvPost] is one HTTP request.  Calls, requests
    and prints carry the clock reading, in milliseconds, at which they
    were made. *)
Inductive Event :=
| EvCall (t : Z) (method : string) (params : list Arg)
| EvPost (t : Z) (method : string) (params : list Arg)
| EvSleep (secs : Z)
| EvPrint (t : Z) (m : Msg)
| EvRun (cmd : list string)
| EvMove (src dst : string).

(** ** The collaborators *)

(** How one HTTP request ends. *)
Inductive Outcome (A : Type) :=
| NoConnection
| TimedOutWaiting
| Response (code : Z) (body : option (Reply A)).   (* [None]: not JSON *)
Arguments NoConnection {A}.
Arguments TimedOutWaiting {A}.
Arguments Response {A} _ _.

Record Attempt (A : Type) := {
  latency : N;              (* milliseconds until the request ends *)
  outcome : Outcome A
}.
Arguments latency {A} _.
Arguments outcome {A} _.

(** How one [subprocess.run] of ffmpeg ends: the exit status or an
    exception, what it left in its output file ([None]: untouched), and how
    long it took. *)
Record Run := {
  run_exit : Z + Exn;
  run_output : option Z;
  run_time : N
}.

Record Node := { is_dir : bool; size : Z }.

Record World := {
  net : nat -> Z -> forall method : string, Attempt (ResultOf method);
  proc : nat -> Run;
  now : Z;
  posts : nat;
  runs : nat;
  fs : gmap string Node;
  trace : list Event
}.

Definition advance (ms : Z) (w : World) : World :=
  {| net := net w; proc := proc w; now := now w + ms; posts := posts w;
     runs := runs w; fs := fs w; trace := trace w |}.

Definition log (e : Event) (w : World) : World :=
  {| net := net w; proc := proc w; now := now w; posts := posts w;
     runs := runs w; fs := fs w; trace := trace w ++ [e] |}.

Definition sent (w : World) : World :=
  {| net := net w; proc := proc w; now := now w; posts := S (posts w);
     runs := runs w; fs := fs w; trace := trace w |}.

Definition ran (w : World) : World :=
  {| net := net w; proc := proc w; now := now w; posts := posts w;
     runs := S (runs w); fs := fs w; trace := trace w |}.

Definition with_fs (f : gmap string Node) (w : World) : World :=
  {| net := net w; proc := proc w; now := now w; posts := posts w;
     runs := runs w; fs := f; trace := trace w |}.

(** ** The monad of the program *)

Definition M (A : Type) : Type := World -> Res A * World.

Definition ret {A} (a : A) : M A := fun w => (Ok a, w).

Definition bind {A B} (c : M A) (k : A -> M B) : M B :=
  fun w =>
    match c w with
    | (Ok a, w') => k a w'
    | (Raise e, w') => (Raise e, w')
    | (Exhausted, w') => (Exhausted, w')
    end.

(** [try: c  except Exception as e: h e] *)
Definition try_except {A} (c : M A) (h : Exn -> M A) : M A :=
  fun w =>
    match c w with
    | (Raise e, w') => h e w'
    | r => r
    end.

Definition raise {A} (e : Exn) : M A := fun w => (Raise e, w).

Declare Scope prog_scope.
Delimit Scope prog_scope with prog.
Notation "x <- c ;; k" := (bind c (fun x => k))
  (at level 100, c at next level, right associativity) : prog_scope.
Notation "c ;;; k" := (bind c (fun _ => k))
  (at level 100, right associativity) : prog_scope.
Local Open Scope prog_scope.

(** [time.time()], in milliseconds. *)
Definition time_time : M Z := fun w => (Ok (now w), w).

(** [time.sleep(secs)] *)
Definition time_sleep (secs : Z) : M unit :=
  fun w => (Ok tt, log (EvSleep secs) (advance (secs * 1000) w)).

(** The world after [print(...)]. *)
Definition printed (m : Msg) (w : World) : World :=
  log (EvPrint (now w) m) w.

Definition print (m : Msg) : M unit :=
  fun w => (Ok tt, printed m w).

(** What a path names on disk; the empty path names nothing. *)
Definition node_at (p : string) (w : World) : option Node :=
  if String.eqb p "" then None else fs w !! p.

(** [os.path.exists], [os.path.isfile], [os.path.isdir], [os.path.getsize] *)
Definition path_exists (p : string) (w : World) : bool :=
  match node_at p w with Some _ => true | None => false end.

Definition path_isfile (p : string) (w : World) : bool :=
  match node_at p w with Some n => negb (is_dir n) | None => false end.

Definition path_isdir (p : string) (w : World) : bool :=
  match node_at p w with Some n => is_dir n | None => false end.

Definition path_getsize (p : string) : M Z :=
  fun w =>
    match node_at p w with
    | Some n => (Ok (size n), w)
    | None => (Raise (FileNotFoundError p), w)
    end.

(** ** The control channel: [aria2_call] *)

(** What the [try] body makes of the end of a request:
    [requests.post(..., timeout=15)] raises when there is no connection or
    the wait is exceeded; [raise_for_status()] raises for the 4xx and 5xx
    codes; [response.json()] raises when the body is not JSON. *)
Definition verdict {A} (o : Outcome A) : Exn + Reply A :=
  match o with
  | NoConnection => inl ConnectionError
  | TimedOutWaiting => inl ReadTimeout
  | Response code body =>
      if (400 <=? code) && (code <? 600) then inl (HTTPError code)
      else match body with
           | None => inl JSONDecodeError
           | Some j => inr j
           end
  end.

(** The answer the engine gives to a request sent in [w]. *)
Definition attempt_at (method : string) (w : World)
  : Attempt (ResultOf method) :=
  net w (posts w) (now w) method.

(** The world once that request has ended. *)
Definition after_post (method : string) (params : list Arg) (w : World)
  : World :=
  advance (Z.of_N (latency (attempt_at method w)))
    (sent (log (EvPost (now w) method params) w)).

(** The body of the [try] of [aria2_call]. *)
Definition post_request (method : string) (params : list Arg)
  : M (Reply (ResultOf method)) :=
  fun w =>
    match verdict (outcome (attempt_at method w)) with
    | inl e => (Raise e, after_post method params w)
    | inr j => (Ok j, after_post method params w)
    end.

(** [for attempt in range(retries): ...], on the attempts still to make. *)
Fixpoint aria2_attempts (method : string) (params : list Arg) (retries : nat)
    (attempts : list nat) : M (option (Reply (ResultOf method))) :=
  match attempts with
  | [] => ret None
  | attempt :: rest =>
      try_except
        (j <- post_request method params ;; ret (Some j))
        (fun e =>
           if (attempt =? retries - 1)%nat
           then (print (MsgRpcFailed e) ;;; ret None)
           else (time_sleep 1 ;;; aria2_attempts method params retries rest))
  end.

Definition aria2_call_n (method : string) (params : list Arg) (retries : nat)
  : M (option (Reply (ResultOf method))) :=
  fun w =>
    aria2_attempts method params retries (seq 0 retries)
      (log (EvCall (now w) method params) w).

Definition aria2_call (method : string) (params : list Arg)
  : M (option (Reply (ResultOf method))) :=
  aria2_call_n method params 3.

(** ** Strings and paths, as the Python library calls behave on them *)

Definition is_slash (c : ascii) : bool := Ascii.eqb c "/"%char.
Definition is_dot (c : ascii) : bool := Ascii.eqb c "."%char.

(** [s.lower()] on the ASCII letters. *)
Definition lower_char (c : ascii) : ascii :=
  let n := nat_of_ascii c in
  if ((65 <=? n) && (n <=? 90))%nat then ascii_of_nat (n + 32) else c.

Fixpoint lower (s : string) : string :=
  match s with
  | EmptyString => EmptyString
  | String c r => String (lower_char c) (lower r)
  end.

Definition startswith (s pre : string) : bool := String.prefix pre s.

Definition str_rev (s : string) : string :=
  string_of_list_ascii (rev (list_ascii_of_string s)).

Definition endswith (s suf : string) : bool :=
  String.prefix (str_rev suf) (str_rev s).

(** [s.rfind(c)]: the last index of [c], or [-1]. *)
Fixpoint rfind_from (c : ascii) (s : string) (i last : Z) : Z :=
  match s with
  | EmptyString => last
  | String d r => rfind_from c r (i + 1) (if Ascii.eqb d c then i else last)
  end.

Definition rfind (c : ascii) (s : string) : Z := rfind_from c s 0 (-1).

(** [os.path.basename(p)]: what follows the last slash. *)
Definition basename (p : string) : string :=
  let i := Z.to_nat (rfind "/"%char p + 1) in
  String.substring i (String.length p - i) p.

(** [p.rstrip("/")] *)
Definition rstrip_slash (p : string) : string :=
  str_rev ((fix strip (s : string) : string :=
              match s with
              | String c r => if is_slash c then strip r else s
              | EmptyString => EmptyString
              end) (str_rev p)).

(** [os.path.join(a, b)] *)
Definition path_join (a b : string) : string :=
  if startswith b "/" then b
  else if String.eqb a "" || endswith a "/" then a ++ b
  else a ++ "/" ++ b.

(** [os.path.splitext(p)[0]]: [p] without the extension of its last
    component; leading dots of that component do not start an extension. *)
Definition splitext_root (p : string) : string :=
  let sepIndex := rfind "/"%char p in
  let dotIndex := rfind "."%char p in
  if sepIndex <? dotIndex then
    let name_start := Z.to_nat (sepIndex + 1) in
    let before_dot :=
      String.substring name_start (Z.to_nat dotIndex - name_start) p in
    if existsb (fun c => negb (is_dot c)) (list_ascii_of_string before_dot)
    then String.substring 0 (Z.to_nat dotIndex) p
    else p
  else p.

(** [s[:n]] *)
Definition take_str (n : nat) (s : string) : string := String.substring 0 n s.

(** ** The file system and ffmpeg *)

(** [shutil.move(src, dst)].  Into a directory the file keeps its name and
    an existing destination is an error; moving a path onto itself leaves
    it in place; otherwise [os.rename] replaces the destination.  Only the
    node at [src] moves: directory trees are not modelled. *)
Definition shutil_move (src dst : string) : M unit :=
  fun w0 =>
    let w := log (EvMove src dst) w0 in
    if path_isdir dst w && String.eqb src dst then (Ok tt, w)
    else
      let real_dst :=
        if path_isdir dst w then path_join dst (basename (rstrip_slash src))
        else dst in
      if path_isdir dst w && path_exists real_dst w
      then (Raise (ShutilError real_dst), w)
      else match node_at src w with
           | None => (Raise (FileNotFoundError src), w)
           | Some n => (Ok tt, with_fs (<[real_dst := n]> (delete src (fs w))) w)
           end.

(** The world after ffmpeg has run [cmd], whose last word is the output
    file: the run is in the trace, the time it took has passed, and the
    output file holds what the run left in it. *)
Definition after_run (cmd : list string) (w : World) : World :=
  let r := proc w (runs w) in
  let out := List.last cmd "" in
  let f := match run_output r with
           | Some sz =>
               if path_isdir out w || String.eqb out "" then fs w
               else <[out := {| is_dir := false; size := sz |}]> (fs w)
           | None => fs w
           end in
  with_fs f (advance (Z.of_N (run_time r)) (ran (log (EvRun cmd) w))).

(** [subprocess.run(cmd, capture_output=True, timeout=30, text=True)] for an
    ffmpeg command.  Returns the exit status, or raises. *)
Definition subprocess_run (cmd : list string) : M Z :=
  fun w =>
    match run_exit (proc w (runs w)) with
    | inl rc => (Ok rc, after_run cmd w)
    | inr e => (Raise e, after_run cmd w)
    end.

(** [open(p, "rb")] followed by [read()]: only whether it succeeds. *)
Definition open_read (p : string) : M unit :=
  fun w =>
    match node_at p w with
    | None => (Raise (FileNotFoundError p), w)
    | Some n => if is_dir n then (Raise (IsADirectoryError p), w) else (Ok tt, w)
    end.

(** ** Constants of [__init__] *)

Definition DOWNLOAD_DIR : string := "/workspace/downloads".
Definition OUTPUT_DIR : string := "/workspace/completed".

Definition get_optimized_trackers : list string :=
  [ "udp://tracker.opentrackr.org:1337";
    "udp://open.stealth.si:80";
    "udp://tracker.torrent.eu.org:451";
    "https://tracker.foreverpirates.co:443/announce";
    "http://tracker.openbittorrent.com:80/announce";
    "wss://tracker.btorrent.xyz";
    "wss://tracker.openwebtorrent.com" ].

(** Python truth of a string-or-[None]. *)
Definition truthy (s : option string) : bool :=
  match s with
  | Some s => negb (String.eqb s "")
  | None => false
  end.

(** Python truth of a list-or-[None]. *)
Definition nonempty {A} (l : option (list A)) : bool :=
  match l with
  | Some (_ :: _) => true
  | _ => false
  end.

(** One turn of a [while] loop: it returns from the function or goes round
    again with the loop's variables. *)
Inductive Step (A S : Type) :=
| Return (a : A)
| Continue (s : S).
Arguments Return {A S} _.
Arguments Continue {A S} _.

(** ** Selection: [get_torrent_files] and [apply_file_selection] *)

(** One turn of the [while] of [get_torrent_files]. *)
Definition get_torrent_files_body (gid : string)
  : M (Step (list FileEntry) unit) :=
  r <- aria2_call "aria2.tellStatus" [AStr gid; AList [AStr "files"]] ;;
  match r with
  | Some {| result := Some st |} =>
      let fl := default [] (files st) in
      match fl with
      | _ :: _ => ret (Return fl)
      | [] => time_sleep 1 ;;; ret (Continue tt)
      end
  | _ => time_sleep 1 ;;; ret (Continue tt)
  end.

Fixpoint get_torrent_files_loop (fuel : nat) (gid : string)
    (timeout start_time : Z) : M (list FileEntry) :=
  fun w =>
    if now w - start_time <? timeout * 1000 then
      match fuel with
      | O => (Exhausted, w)
      | S fuel' =>
          (s <- get_torrent_files_body gid ;;
           match s with
           | Return fl => ret fl
           | Continue _ => get_torrent_files_loop fuel' gid timeout start_time
           end) w
      end
    else (Ok [], w).

(** [get_torrent_files(gid, timeout)].  Every turn that goes round again
    sleeps a second, so [timeout] turns are all the loop can make. *)
Definition get_torrent_files_t (gid : string) (timeout : Z)
  : M (list FileEntry) :=
  start_time <- time_time ;;
  get_torrent_files_loop (Z.to_nat timeout) gid timeout start_time.

Definition get_torrent_files (gid : string) : M (list FileEntry) :=
  get_torrent_files_t gid 15.

(** [i in selected_files] *)
Definition py_in (i : nat) (selected_files : list Z) : bool :=
  existsb (Z.eqb (Z.of_nat i)) selected_files.

(** [for i in range(len(files)): ...], on the indices still to visit. *)
Fixpoint select_each (gid : string) (selected_files : list Z)
    (indices : list nat) : M unit :=
  match indices with
  | [] => ret tt
  | i :: rest =>
      let select := py_in i selected_files in
      aria2_call "aria2.selectFile" [AStr gid; AInt (Z.of_nat i); ABool select] ;;;
      select_each gid selected_files rest
  end.

Definition apply_file_selection (gid : string) (selected_files : list Z)
  : M unit :=
  print MsgApplying ;;;
  fl <- get_torrent_files gid ;;
  match fl with
  | [] =>
      print MsgNoFileList ;;;
      aria2_call "aria2.unpause" [AStr gid] ;;;
      ret tt
  | _ :: _ =>
      select_each gid selected_files (seq 0 (length fl)) ;;;
      print (MsgSelected (length selected_files)) ;;;
      aria2_call "aria2.unpause" [AStr gid] ;;;
      ret tt
  end.

(** ** Submission: [add_magnet_link] and [add_torrent_file] *)

(** [result.get("result") if result else None] *)
Definition result_of {A} (r : option (Reply A)) : option A :=
  match r with
  | Some j => result j
  | None => None
  end.

Definition add_magnet_link (magnet_uri : string) : M (option string) :=
  let options :=
    ADict [ ("dir", AStr DOWNLOAD_DIR);
            ("bt-tracker", AStr (String.concat "," get_optimized_trackers));
            ("bt-tracker-connect-timeout", AInt 10);
            ("bt-tracker-timeout", AInt 10);
            ("max-upload-limit", AStr "1K");
            ("seed-ratio", AFloat "0.0");
            ("follow-torrent", AStr "mem");
            ("enable-dht", ABool true);
            ("enable-peer-exchange", ABool true) ] in
  try_except
    (r <- aria2_call "aria2.addUri" [AList [AStr magnet_uri]; options] ;;
     ret (result_of r))
    (fun e => print (MsgAddMagnetFailed e) ;;; ret None).

(** Python truth of [selected_files], a list or [None]. *)
Definition has_selection (selected_files : option (list Z)) : bool :=
  nonempty selected_files.

Definition add_torrent_file (torrent_path : string)
    (selected_files : option (list Z)) : M (option string) :=
  try_except
    (open_read torrent_path ;;;
     let options :=
       ADict [ ("dir", AStr DOWNLOAD_DIR);
               ("pause", AStr (if has_selection selected_files
                               then "true" else "false")) ] in
     r <- aria2_call "aria2.addTorrent"
            [AFileB64 torrent_path; AList []; options] ;;
     let gid := result_of r in
     (if truthy gid && has_selection selected_files
      then apply_file_selection (default "" gid) (default [] selected_files)
      else ret tt) ;;;
     ret gid)
    (fun e => print (MsgAddTorrentFailed e) ;;; ret None).

(** ** The session monitor: [monitor_download] *)

(** [(total - completed) // max(speed, 1) if speed > 0 else 0] *)
Definition eta_of (completed total speed : Z) : Z :=
  if 0 <? speed then (total - completed) / Z.max speed 1 else 0.

(** [for f in files: path = f.get("path"); if path and os.path.exists(path):
    downloaded.append(path)] *)
Fixpoint downloaded_paths (fl : list FileEntry) (w : World) : list string :=
  match fl with
  | [] => []
  | f :: rest =>
      match path f with
      | Some p =>
          if negb (String.eqb p "") && path_exists p w
          then p :: downloaded_paths rest w
          else downloaded_paths rest w
      | None => downloaded_paths rest w
      end
  end.

Definition collect_downloaded (fl : list FileEntry) : M (list string) :=
  fun w => (Ok (downloaded_paths fl w), w).

Definition status_keys : Arg :=
  AList [AStr "status"; AStr "completedLength"; AStr "totalLength";
         AStr "downloadSpeed"; AStr "files"].

(** What one turn of the [while] of [monitor_download] does with the
    answer [r] to its poll; the loop variable is [last_update]. *)
Definition monitor_react (name : string) (last_update : Z)
    (r : option (Reply Status)) : M (Step (list string) Z) :=
  match r with
  | Some {| result := Some st |} =>
      let state := default "" (status st) in
      let completed := default 0 (completedLength st) in
      let total := default 0 (totalLength st) in
      let speed := default 0 (downloadSpeed st) in
      t <- time_time ;;
      last_update' <-
        (if (5000 <=? t - last_update) && (0 <? total)
         then (print (MsgProgress (take_str 40 name) completed total speed
                        (eta_of completed total speed)) ;;;
               time_time)
         else ret last_update) ;;
      if String.eqb state "complete" then
        downloaded <- collect_downloaded (default [] (files st)) ;;
        print (MsgCompleted name) ;;;
        ret (Return downloaded)
      else if String.eqb state "error" || String.eqb state "removed" then
        print (MsgFailed name) ;;; ret (Return [])
      else
        time_sleep 2 ;;; ret (Continue last_update')
  | _ => time_sleep 2 ;;; ret (Continue last_update)
  end.

(** One turn of the loop: the poll, then the reaction. *)
Definition monitor_body (gid name : string) (last_update : Z)
  : M (Step (list string) Z) :=
  r <- aria2_call "aria2.tellStatus" [AStr gid; status_keys] ;;
  monitor_react name last_update r.

Fixpoint monitor_loop (fuel : nat) (gid name : string)
    (timeout start_time last_update : Z) : M (list string) :=
  fun w =>
    if now w - start_time <? timeout * 1000 then
      match fuel with
      | O => (Exhausted, w)
      | S fuel' =>
          (s <- monitor_body gid name last_update ;;
           match s with
           | Return downloaded => ret downloaded
           | Continue last_update' =>
               monitor_loop fuel' gid name timeout start_time last_update'
           end) w
      end
    else (print (MsgTimeout name) ;;; ret []) w.

(** [monitor_download(gid, name, timeout)].  Every turn that goes round
    again sleeps two seconds, so [timeout] turns are more than the loop
    can make. *)
Definition monitor_download (gid name : string) (timeout : Z)
  : M (list string) :=
  print (MsgMonitoring name) ;;;
  start_time <- time_time ;;
  monitor_loop (Z.to_nat timeout) gid name timeout start_time start_time.

(** ** Post-processing: [extract_subtitles] and [process_downloaded_files] *)

Definition languages : list string := ["fre"; "fra"; "fr"; "french"].

Definition language_output (base_name lang : string) : string :=
  base_name ++ "." ++ lang ++ ".srt".

Definition language_cmd (video_path base_name lang : string) : list string :=
  [ "ffmpeg"; "-y"; "-i"; video_path;
    "-map"; "0:s:m:language:" ++ lang;
    language_output base_name lang ].

Definition fallback_output (base_name : string) : string := base_name ++ ".srt".

Definition fallback_cmd (video_path base_name : string) : list string :=
  [ "ffmpeg"; "-y"; "-i"; video_path; "-map"; "0:s:0";
    fallback_output base_name ].

(** [os.path.exists(p) and os.path.getsize(p) > 100] *)
Definition exists_and_big (p : string) : M bool :=
  fun w =>
    if path_exists p w then (sz <- path_getsize p ;; ret (100 <? sz)) w
    else (Ok false, w).

(** The body of [for lang in languages]: [true] when the loop breaks with
    the file of [lang] extracted, [false] when it goes on to the next. *)
Definition try_language (video_path base_name lang : string) : M bool :=
  try_except
    (rc <- subprocess_run (language_cmd video_path base_name lang) ;;
     ok <- (if rc =? 0 then exists_and_big (language_output base_name lang)
            else ret false) ;;
     if ok then print (MsgExtracted lang) ;;; ret true else ret false)
    (fun _ => ret false).

Fixpoint try_languages (video_path base_name : string) (langs : list string)
  : M (list string) :=
  match langs with
  | [] => ret []
  | lang :: rest =>
      found <- try_language video_path base_name lang ;;
      if found then ret [language_output base_name lang]
      else try_languages video_path base_name rest
  end.

(** The fallback: the first subtitle stream, whatever its language. *)
Definition try_fallback (video_path base_name : string) : M (list string) :=
  try_except
    (rc <- subprocess_run (fallback_cmd video_path base_name) ;;
     fun w =>
       if (rc =? 0) && path_exists (fallback_output base_name) w
       then (print MsgExtractedFirst ;;; ret [fallback_output base_name]) w
       else (Ok [], w))
    (fun _ => print MsgNoSubtitles ;;; ret []).

Definition extract_subtitles (video_path : string) : M (list string) :=
  fun w =>
    if negb (path_exists video_path w) then (Ok [], w)
    else
      (print (MsgExtracting (basename video_path)) ;;;
       let base_name := splitext_root video_path in
       extracted <- try_languages video_path base_name languages ;;
       match extracted with
       | [] => try_fallback video_path base_name
       | _ :: _ => ret extracted
       end) w.

(** [file_path.lower().endswith(('.mkv', '.mp4', '.avi', '.mov'))] *)
Definition is_video (file_path : string) : bool :=
  let l := lower file_path in
  endswith l ".mkv" || endswith l ".mp4" || endswith l ".avi"
  || endswith l ".mov".

(** [for sub in subtitles: if os.path.exists(sub): shutil.move(sub, OUTPUT_DIR)] *)
Fixpoint move_subtitles (subtitles : list string) : M unit :=
  match subtitles with
  | [] => ret tt
  | sub :: rest =>
      (fun w =>
         if path_exists sub w then shutil_move sub OUTPUT_DIR w
         else (Ok tt, w)) ;;;
      move_subtitles rest
  end.

(** The body of [for file_path in files]. *)
Definition process_file (file_path : string) : M unit :=
  fun w =>
    if negb (path_exists file_path w) then (Ok tt, w)
    else
      (file_size <- path_getsize file_path ;;
       print (MsgProcessingFile (basename file_path) file_size) ;;;
       (if is_video file_path
        then (subtitles <- extract_subtitles file_path ;;
              move_subtitles subtitles)
        else ret tt) ;;;
       shutil_move file_path OUTPUT_DIR) w.

Fixpoint process_each (files : list string) : M unit :=
  match files with
  | [] => ret tt
  | file_path :: rest => process_file file_path ;;; process_each rest
  end.

Definition process_downloaded_files (files : list string) (name : string)
  : M unit :=
  print (MsgProcessing (length files) name) ;;;
  process_each files ;;;
  print (MsgProcessed name).

(** ** One item: [download_item] *)

Definition item_name (item : string) (w : World) : string :=
  let name := if path_isfile item w then basename item else item in
  if (50 <? String.length name)%nat then take_str 50 name else name.

(** The first half of the [try] block: the item is submitted and the GID
    kept ([Continue]), or it is unsupported and the method returns [False]. *)
Definition submit_item (item : string) (selected_files : option (list Z))
  : M (Step bool (option string)) :=
  fun w =>
    if path_isfile item w && endswith (lower item) ".torrent" then
      (gid <- add_torrent_file item selected_files ;; ret (Continue gid)) w
    else if startswith item "magnet:" then
      (gid <- add_magnet_link item ;; ret (Continue gid)) w
    else (print (MsgUnsupported item) ;;; ret (Return false)) w.

(** The second half: [if not gid: return False], then the monitor and, when
    it returned something, the post-processing. *)
Definition watch_item (gid : option string) (name : string) : M bool :=
  match gid with
  | Some g =>
      if String.eqb g "" then ret false
      else
        downloaded_files <- monitor_download g name 600 ;;
        match downloaded_files with
        | [] => ret false
        | _ :: _ =>
            process_downloaded_files downloaded_files name ;;;
            ret true
        end
  | None => ret false
  end.

Definition download_item (item : string) (selected_files : option (list Z))
  : M bool :=
  fun w =>
    let name := item_name item w in
    (print (MsgStarting name) ;;;
     try_except
       (s <- submit_item item selected_files ;;
        match s with
        | Return b => ret b
        | Continue gid => watch_item gid name
        end)
       (fun e => print (MsgDownloadFailed e) ;;; ret false)) w.

(** ** Reading the trace *)

Local Open Scope list_scope.

Definition call_of (e : Event) : option (Z * string * list Arg) :=
  match e with
  | EvCall t method params => Some (t, method, params)
  | _ => None
  end.

(** The calls of [aria2_call] among the events, in order. *)
Definition calls (evs : list Event) : list (Z * string * list Arg) :=
  omap call_of evs.

(** The clock readings at which the calls of [method] began. *)
Definition call_times (method : string) (evs : list Event) : list Z :=
  omap (fun c : Z * string * list Arg =>
          if String.eqb c.1.2 method then Some c.1.1 else None)
    (calls evs).

(** The calls without their times: method and parameters. *)
Definition requests (evs : list Event) : list (string * list Arg) :=
  map (fun c : Z * string * list Arg => (c.1.2, c.2)) (calls evs).

(** The HTTP requests among the events, in order: method and parameters
    of each. *)
Definition post_of (e : Event) : option (string * list Arg) :=
  match e with
  | EvPost _ method params => Some (method, params)
  | _ => None
  end.

Definition sent_requests (evs : list Event) : list (string * list Arg) :=
  omap post_of evs.

(** The clock readings at which the requests of [method] were sent. *)
Definition post_time_of (method : string) (e : Event) : option Z :=
  match e with
  | EvPost t m _ => if String.eqb m method then Some t else None
  | _ => None
  end.

Definition post_times (method : string) (evs : list Event) : list Z :=
  omap (post_time_of method) evs.

(** The reply to a request carries a result: the request did not fail and
    the body has a ["result"] member. *)
Definition has_result {A} (o : Outcome A) : bool :=
  match verdict o with
  | inr {| result := Some _ |} => true
  | _ => false
  end.

(** The requests among the events that the engine answered with a
    result; [k] requests were made before the first event.  A command
    reaches the job only through such a request. *)
Fixpoint answered
    (engine : nat -> Z -> forall method : string, Attempt (ResultOf method))
    (k : nat) (evs : list Event) : list (string * list Arg) :=
  match evs with
  | [] => []
  | EvPost t method params :: rest =>
      if has_result (outcome (engine k t method))
      then (method, params) :: answered engine (S k) rest
      else answered engine (S k) rest
  | _ :: rest => answered engine k rest
  end.

(** The events [aria2_call] leaves after the mark of its entry: requests,
    sleeps, and the print of a failure. *)
Definition channel_event (e : Event) : bool :=
  match e with
  | EvPost _ _ _ | EvSleep _ | EvPrint _ (MsgRpcFailed _) => true
  | _ => false
  end.

(** The prints that end a session. *)
Definition ending_of (e : Event) : option Msg :=
  match e with
  | EvPrint _ (MsgCompleted name) => Some (MsgCompleted name)
  | EvPrint _ (MsgFailed name) => Some (MsgFailed name)
  | EvPrint _ (MsgTimeout name) => Some (MsgTimeout name)
  | _ => None
  end.

Definition endings (evs : list Event) : list Msg := omap ending_of evs.

(** The progress lines among the events. *)
Definition progress_of (e : Event) : option Msg :=
  match e with
  | EvPrint _ (MsgProgress name completed total speed eta) =>
      Some (MsgProgress name completed total speed eta)
  | _ => None
  end.

Definition progress_lines (evs : list Event) : list Msg := omap progress_of evs.

(** The clock readings at which progress was printed. *)
Definition progress_time_of (e : Event) : option Z :=
  match e with
  | EvPrint t (MsgProgress _ _ _ _ _) => Some t
  | _ => None
  end.

Definition progress_times (evs : list Event) : list Z :=
  omap progress_time_of evs.

(** The ffmpeg commands among the events. *)
Definition command_of (e : Event) : option (list string) :=
  match e with
  | EvRun cmd => Some cmd
  | _ => None
  end.

Definition commands (evs : list Event) : list (list string) :=
  omap command_of evs.

(** The moves among the events. *)
Definition move_of (e : Event) : option (string * string) :=
  match e with
  | EvMove src dst => Some (src, dst)
  | _ => None
  end.

Definition moves (evs : list Event) : list (string * string) :=
  omap move_of evs.

(** [lo <= t1], [t1 + gap <= t2], [t2 + gap <= t3], ... *)
Fixpoint paced (gap lo : Z) (ts : list Z) : Prop :=
  match ts with
  | [] => True
  | t :: rest => lo <= t /\ paced gap (t + gap) rest
  end.

(** From [w] to [w'] the program only talked to the engine, slept and
    printed, leaving [evs] in the trace. *)
Record talks (w w' : World) (evs : list Event) : Prop := {
  talks_net : net w' = net w;
  talks_proc : proc w' = proc w;
  talks_fs : fs w' = fs w;
  talks_runs : runs w' = runs w;
  talks_trace : trace w' = trace w ++ evs;
  talks_now : now w <= now w'
}.

(** ** Notions the statements use *)

(** The world after the one-second backoff of [aria2_call]. *)
Definition backoff (w : World) : World :=
  log (EvSleep 1) (advance (1 * 1000) w).

(** The world after the two-second sleep of the monitor. *)
Definition nap (w : World) : World := log (EvSleep 2) (advance (2 * 1000) w).

(** The calls that [apply_file_selection] makes. *)
Definition poll_files (gid : string) : string * list Arg :=
  ("aria2.tellStatus", [AStr gid; AList [AStr "files"]]).

Definition select_file (gid : string) (selected_files : list Z) (i : nat)
  : string * list Arg :=
  ("aria2.selectFile",
   [AStr gid; AInt (Z.of_nat i); ABool (py_in i selected_files)]).

Definition unpause (gid : string) : string * list Arg :=
  ("aria2.unpause", [AStr gid]).

(** The [aria2.selectFile] command in a call, if it is one: the job, the
    file index and the flag. *)
Definition select_command (c : string * list Arg) : option (string * Z * bool) :=
  match c with
  | (method, [AStr gid; AInt i; ABool b]) =>
      if String.eqb method "aria2.selectFile" then Some (gid, i, b) else None
  | _ => None
  end.

(** The selection of a job's files once the engine has taken the commands
    in order: each sets the flag of its index. *)
Definition selection_after (cmds : list (string * Z * bool))
    (sel : gmap Z bool) : gmap Z bool :=
  foldl (fun s c => <[c.1.2 := c.2]> s) sel cmds.

(** The index a selection command is about. *)
Definition command_index (c : string * Z * bool) : Z := c.1.2.

(** The poll of [get_torrent_files]. *)
Definition poll_file_list (gid : string) : M (option (Reply Status)) :=
  aria2_call "aria2.tellStatus" [AStr gid; AList [AStr "files"]].

(** The loop of [get_torrent_files] goes from one turn to the next: the
    condition of the [while] held and the body did not return. *)
Inductive files_again (gid : string) (timeout start_time : Z)
  : World -> World -> Prop :=
| files_again_turn w w' :
    now w - start_time < timeout * 1000 ->
    get_torrent_files_body gid w = (Ok (Continue tt), w') ->
    files_again gid timeout start_time w w'.

(** The world at the beginning of some turn of the wait for the file list
    that [apply_file_selection gid _] runs from [w]. *)
Definition files_turn (gid : string) (w wk : World) : Prop :=
  let w0 := printed MsgApplying w in
  rtc (files_again gid 15 (now w0)) w0 wk
  /\ now wk - now w0 < 15 * 1000.

(** The poll of [monitor_download]. *)
Definition poll_status (gid : string) : M (option (Reply Status)) :=
  aria2_call "aria2.tellStatus" [AStr gid; status_keys].

(** A status that ends the session: [complete], [error] or [removed]. *)
Definition is_terminal (st : Status) : bool :=
  let state := default "" (status st) in
  String.eqb state "complete" || String.eqb state "error"
  || String.eqb state "removed".

(** The poll begun in [w] comes back with a status that ends the session. *)
Definition poll_terminal (gid : string) (w : World) : bool :=
  match fst (poll_status gid w) with
  | Ok r => match result_of r with
            | Some st => is_terminal st
            | None => false
            end
  | _ => false
  end.

(** The loop of [monitor_download] goes from one turn to the next: the
    condition of the [while] held and the body did not return. *)
Inductive turn (gid name : string) (timeout start_time : Z)
  : Z * World -> Z * World -> Prop :=
| turn_again last_update w last_update' w' :
    now w - start_time < timeout * 1000 ->
    monitor_body gid name last_update w = (Ok (Continue last_update'), w') ->
    turn gid name timeout start_time (last_update, w) (last_update', w').

(** The loop variables and the world at the beginning of some turn of the
    session that [monitor_download gid name timeout] runs from [w]. *)
Definition session_turn (gid name : string) (timeout : Z) (w : World)
    (last_update : Z) (wk : World) : Prop :=
  let w0 := printed (MsgMonitoring name) w in
  rtc (turn gid name timeout (now w0)) (now w0, w0) (last_update, wk)
  /\ now wk - now w0 < timeout * 1000.

(** The ETA of a progress line as the program computes it: the remaining
    bytes over the rate when the rate is positive, zero otherwise; a line
    is printed only for a positive total. *)
Definition eta_rule (m : Msg) : Prop :=
  match m with
  | MsgProgress _ completed total speed eta =>
      0 < total /\
      (0 < speed -> eta = (total - completed) / Z.max speed 1) /\
      (speed <= 0 -> eta = 0)
  | _ => True
  end.

(** There is a file at [p] and it is larger than 100 bytes. *)
Definition big_file (p : string) (w : World) : bool :=
  match node_at p w with
  | Some n => 100 <? size n
  | None => false
  end.

(** The run ended with exit status 0. *)
Definition exit_zero (r : Run) : bool :=
  match run_exit r with
  | inl rc => rc =? 0
  | inr _ => false
  end.

(** The [j]-th ffmpeg run made from [w] extracted the language [lang], as
    seen in [w']: it ended with status 0 and the output file of [lang]
    is larger than 100 bytes. *)
Definition extracted_in (w w' : World) (base_name : string) (j : nat)
    (lang : string) : bool :=
  exit_zero (proc w (runs w + j)%nat)
  && big_file (language_output base_name lang) w'.

(** ** The wording of the specification, where the code differs *)

(** A failed attempt as the specification words it: a transport failure,
    a wait that was exceeded, or a response outside 2xx. *)
Definition spec_failed {A} (o : Outcome A) : bool :=
  match o with
  | NoConnection => true
  | TimedOutWaiting => true
  | Response code _ => negb ((200 <=? code) && (code <? 300))
  end.

(** The answer to one request carries a status that ends the session. *)
Definition observes_terminal (a : Attempt Status) : bool :=
  match verdict (outcome a) with
  | inr {| result := Some st |} => is_terminal st
  | _ => false
  end.

(** The ETA of a progress line as the specification words it: the
    remaining bytes over [max(rate, 1)], whatever the rate. *)
Definition spec_eta_rule (m : Msg) : Prop :=
  match m with
  | MsgProgress _ completed total speed eta =>
      eta = (total - completed) / Z.max speed 1
  | _ => True
  end.

(** ** Worlds to run the program in *)

(** A reply for any method: [st] when it is [aria2.tellStatus], [text]
    otherwise. *)
Definition answer (method : string) (st : Status) (text : string)
  : ResultOf method :=
  match String.eqb method "aria2.tellStatus" as b
        return (if b then Status else string) with
  | true => st
  | false => text
  end.

Definition replying (code : Z) (st : Status) (text : string) (ms : N)
    (method : string) : Attempt (ResultOf method) :=
  {| latency := ms;
     outcome := Response code (Some {| result := Some (answer method st text) |}) |}.

Definition failing (ms : N) (method : string) : Attempt (ResultOf method) :=
  {| latency := ms; outcome := NoConnection |}.

Definition timing_out (ms : N) (method : string) : Attempt (ResultOf method) :=
  {| latency := ms; outcome := TimedOutWaiting |}.

Definition no_status : Status :=
  {| status := None; completedLength := None; totalLength := None;
     downloadSpeed := None; files := None |}.

Definition file_node (sz : Z) : Node := {| is_dir := false; size := sz |}.
Definition dir_node : Node := {| is_dir := true; size := 4096 |}.

(** ffmpeg that finds nothing: exit status 1, no output. *)
Definition ffmpeg_nothing : Run :=
  {| run_exit := inl 1; run_output := None; run_time := 200 |}.

Definition world_of
    (n : nat -> Z -> forall method : string, Attempt (ResultOf method))
    (p : nat -> Run) (f : gmap string Node) : World :=
  {| net := n; proc := p; now := 0; posts := 0; runs := 0; fs := f;
     trace := [] |}.

(** Example: the engine reports the download complete, with two files of
    which one is on disk. *)
Definition film : string := "/workspace/downloads/film.mkv".
Definition sample : string := "/workspace/downloads/sample.mkv".

Definition report (state : string) (speed : Z) : Status :=
  {| status := Some state; completedLength := Some 700;
     totalLength := Some 1000; downloadSpeed := Some speed;
     files := Some [ {| path := Some film |}; {| path := Some sample |} ] |}.

Definition disk : gmap string Node :=
  <[ film := file_node 1000 ]> (<[ OUTPUT_DIR := dir_node ]> ∅).

(** Every request is answered [302] with a JSON body. *)
Definition redirecting : World :=
  world_of (fun _ _ m => replying 302 no_status "OK" 5 m)
    (fun _ => ffmpeg_nothing) ∅.

Definition finished : World :=
  world_of (fun _ _ m => replying 200 (report "complete" 0) "OK" 5 m)
    (fun _ => ffmpeg_nothing) disk.

(** Example: the engine reports an error. *)
Definition broken : World :=
  world_of (fun _ _ m => replying 200 (report "error" 0) "OK" 5 m)
    (fun _ => ffmpeg_nothing) disk.

(** Example: the download is active for ten minutes and complete after. *)
Definition slow : World :=
  world_of (fun _ t m => if t <? 600000
                         then replying 200 (report "active" 0) "OK" 5 m
                         else replying 200 (report "complete" 0) "OK" 5 m)
    (fun _ => ffmpeg_nothing) disk.

(** Example: as [slow], but the engine stops answering two seconds before
    the ten minutes are over and a request waits fifteen seconds. *)
Definition straddling : World :=
  world_of (fun _ t m => if t <? 598000
                         then replying 200 (report "active" 0) "OK" 0 m
                         else if t <? 600000 then timing_out 15000 m
                         else replying 200 (report "complete" 0) "OK" 0 m)
    (fun _ => ffmpeg_nothing) disk.

(** Example: ffmpeg fails on [fre], leaves 50 bytes for [fra], and
    extracts [fr]; it would extract [french] too. *)
Definition only_fr : World :=
  world_of (fun _ _ m => failing 5 m)
    (fun k => match k with
              | O => ffmpeg_nothing
              | S O => {| run_exit := inl 0; run_output := Some 50; run_time := 200 |}
              | _ => {| run_exit := inl 0; run_output := Some 2000; run_time := 200 |}
              end)
    disk.

(** Example: ffmpeg writes 5000 bytes for [fre] and then fails with exit
    status 1; it extracts [fra]. *)
Definition stale_fre : World :=
  world_of (fun _ _ m => failing 5 m)
    (fun k => match k with
              | O => {| run_exit := inl 1; run_output := Some 5000; run_time := 200 |}
              | _ => {| run_exit := inl 0; run_output := Some 5000; run_time := 200 |}
              end)
    disk.

(** Example: the engine accepts a magnet link and reports the download
    complete, but none of the reported files is on disk. *)
Definition magnet : string := "magnet:?xt=urn:btih:c12fe1c06bba254a9dc9f519b335aa7c1367a88a".

Definition vanished : World :=
  world_of (fun _ _ m => replying 200 (report "complete" 0) "2089b05ecca3d829" 5 m)
    (fun _ => ffmpeg_nothing) (<[ OUTPUT_DIR := dir_node ]> ∅).

(** Example: the first two requests find no connection, the third is
    answered. *)
Definition flaky : World :=
  world_of (fun k _ m => if (k <? 2)%nat then failing 15000 m
                         else replying 200 no_status "OK" 5 m)
    (fun _ => ffmpeg_nothing) disk.

(** Example: a job of three files. *)
Definition three_files : World :=
  world_of (fun _ _ m =>
              replying 200
                {| status := Some "paused"; completedLength := Some 0;
                   totalLength := Some 600; downloadSpeed := Some 0;
                   files := Some [ {| path := Some "/workspace/downloads/a" |};
                                   {| path := Some "/workspace/downloads/b" |};
                                   {| path := Some "/workspace/downloads/c" |} ] |}
                "OK" 5 m)
    (fun _ => ffmpeg_nothing) disk.

(** Example: a job of three files whose list the engine reports only once
    fifteen seconds have passed. *)
Definition three_entries : list FileEntry :=
  [ {| path := Some "/workspace/downloads/a" |};
    {| path := Some "/workspace/downloads/b" |};
    {| path := Some "/workspace/downloads/c" |} ].

Definition paused_job (fl : list FileEntry) : Status :=
  {| status := Some "paused"; completedLength := Some 0;
     totalLength := Some 600; downloadSpeed := Some 0; files := Some fl |}.

Definition late_files : World :=
  world_of (fun _ t m =>
              replying 200
                (paused_job (if t <? 15000 then [] else three_entries))
                "OK" 5 m)
    (fun _ => ffmpeg_nothing) disk.

(** Example: every request waits its fifteen seconds and gets no answer. *)
Definition hanging : World :=
  world_of (fun _ _ m => timing_out 15000 m) (fun _ => ffmpeg_nothing) disk.

(** Example: the download is active at 40 bytes per second and the engine
    takes five seconds to answer. *)
Definition sluggish : World :=
  world_of (fun _ _ m => replying 200 (report "active" 40) "OK" 5000 m)
    (fun _ => ffmpeg_nothing) disk.

(** ** Notions for the further properties *)

(** The number of one-second sleeps among the events. *)
Definition sleeps (evs : list Event) : nat :=
  length (omap (fun e => match e with EvSleep s => Some s | _ => None end) evs).

(** The options [add_magnet_link] sends with the link. *)
Definition magnet_options : Arg :=
  ADict [ ("dir", AStr DOWNLOAD_DIR);
          ("bt-tracker", AStr (String.concat "," get_optimized_trackers));
          ("bt-tracker-connect-timeout", AInt 10);
          ("bt-tracker-timeout", AInt 10);
          ("max-upload-limit", AStr "1K");
          ("seed-ratio", AFloat "0.0");
          ("follow-torrent", AStr "mem");
          ("enable-dht", ABool true);
          ("enable-peer-exchange", ABool true) ].

(** The call [add_torrent_file] makes. *)
Definition add_torrent (torrent_path : string) (paused : bool)
  : string * list Arg :=
  ("aria2.addTorrent",
   [ AFileB64 torrent_path; AList [];
     ADict [ ("dir", AStr DOWNLOAD_DIR);
             ("pause", AStr (if paused then "true" else "false")) ] ]).

(** The poll of [monitor_download], as a call. *)
Definition poll_session (gid : string) : string * list Arg :=
  ("aria2.tellStatus", [AStr gid; status_keys]).

(** Where [shutil.move] puts [src] inside the output directory. *)
Definition relocated (src : string) : string :=
  path_join OUTPUT_DIR (basename (rstrip_slash src)).

(** Example: a torrent descriptor on disk and an engine that accepts
    everything, for a job of three files. *)
Definition torrent : string := "/workspace/ubuntu.torrent".

Definition seeded : World :=
  world_of (net three_files) (fun _ => ffmpeg_nothing)
    (<[ torrent := file_node 4096 ]> disk).

(** Example: no request to the engine finds a connection. *)
Definition unreachable : World :=
  world_of (fun _ _ m => failing 5 m) (fun _ => ffmpeg_nothing) disk.

(** How [monitor_download] ended, read off what it printed, and what it
    returned then: existing paths after "completed", nothing after
    "failed", nothing after "timeout" and then the timeout has elapsed. *)
Definition session_outcome (name : string) (timeout : Z) (w w' : World)
    (evs : list Event) (downloaded : list string) : Prop :=
  (endings evs = [MsgCompleted name] /\
   Forall (fun p => path_exists p w' = true) downloaded)
  \/ (endings evs = [MsgFailed name] /\ downloaded = [])
  \/ (endings evs = [MsgTimeout name] /\ downloaded = [] /\
      timeout * 1000 <= now w' - now w).

(** The part of the program an event comes from. *)
Inductive Kind :=
| KEngine     (* calls, requests and sleeps; the print of a failed call *)
| KSubmit     (* prints of the submission and of the selection *)
| KMonitor    (* prints of the monitor that do not end the session *)
| KEnding     (* "completed", "failed", "timeout" *)
| KExtract    (* runs of ffmpeg and prints of the extraction *)
| KMove       (* moves *)
| KProcess    (* prints of the post-processing before its end *)
| KDone       (* "completed processing" *)
| KItem.      (* prints of [download_item] itself *)

Definition kind (e : Event) : Kind :=
  match e with
  | EvCall _ _ _ | EvPost _ _ _ | EvSleep _ => KEngine
  | EvRun _ => KExtract
  | EvMove _ _ => KMove
  | EvPrint _ m =>
      match m with
      | MsgRpcFailed _ => KEngine
      | MsgApplying | MsgNoFileList | MsgSelected _
      | MsgAddMagnetFailed _ | MsgAddTorrentFailed _ => KSubmit
      | MsgMonitoring _ | MsgProgress _ _ _ _ _ => KMonitor
      | MsgCompleted _ | MsgFailed _ | MsgTimeout _ => KEnding
      | MsgExtracting _ | MsgExtracted _ | MsgExtractedFirst
      | MsgNoSubtitles => KExtract
      | MsgProcessing _ _ | MsgProcessingFile _ _ => KProcess
      | MsgProcessed _ => KDone
      | MsgStarting _ | MsgUnsupported _ | MsgDownloadFailed _ => KItem
      end
  end.

(** Whatever the world, [c] adds to the trace only events of the kinds
    [ks]. *)
Definition emits {A} (ks : list Kind) (c : M A) : Prop :=
  forall w, exists evs,
    trace (snd (c w)) = trace w ++ evs /\ Forall (fun e => kind e ∈ ks) evs.

(** Whatever the world, [c] ends: with a value or with an exception. *)
Definition settles {A} (c : M A) : Prop :=
  forall w, fst (c w) <> Exhausted.

(** The five files [extract_subtitles] may write. *)
Definition subtitle_outputs (base_name : string) : list string :=
  map (language_output base_name) languages ++ [fallback_output base_name].

(** Example: a download of one text file, complete and on disk. *)
Definition notes : string := "/workspace/downloads/notes.txt".

Definition delivered (f : gmap string Node) : World :=
  world_of (fun _ _ m =>
              replying 200
                {| status := Some "complete"; completedLength := Some 120;
                   totalLength := Some 120; downloadSpeed := Some 0;
                   files := Some [ {| path := Some notes |} ] |}
                "2089b05ecca3d829" 5 m)
    (fun _ => ffmpeg_nothing) f.

Definition with_notes : gmap string Node :=
  <[ notes := file_node 120 ]> (<[ OUTPUT_DIR := dir_node ]> ∅).

(** Example: the output directory already holds a file of that name. *)
Definition name_taken : gmap string Node :=
  <[ "/workspace/completed/notes.txt" := file_node 80 ]> with_notes.

(** A file the post-processing can move as it is: it is on disk, it is
    not a video, and its name is free in the output directory. *)
Definition movable (w : World) (f : string) : Prop :=
  path_exists f w = true /\ is_video f = false /\ f <> OUTPUT_DIR /\
  path_exists (relocated f) w = false.

(** Example: two text files delivered. *)
Definition readme : string := "/workspace/downloads/docs/README".

Definition with_two : gmap string Node :=
  <[ readme := file_node 7 ]> with_notes.
(** * Theorems *)

(** ** The control channel *)

(** The three attempts of [aria2_call], written out. *)
Lemma aria2_call_attempts (method : string) (params : list Arg) (w : World) :
  let w0 := log (EvCall (now w) method params) w in
  let w1 := backoff (after_post method params w0) in
  let w2 := backoff (after_post method params w1) in
  aria2_call method params w =
    match verdict (outcome (attempt_at method w0)) with
    | inr j => (Ok (Some j), after_post method params w0)
    | inl _ =>
        match verdict (outcome (attempt_at method w1)) with
        | inr j => (Ok (Some j), after_post method params w1)
        | inl _ =>
            match verdict (outcome (attempt_at method w2)) with
            | inr j => (Ok (Some j), after_post method params w2)
            | inl e => (Ok None,
                        printed (MsgRpcFailed e)
                          (after_post method params w2))
            end
        end
    end.
Proof.
  unfold aria2_call, aria2_call_n; cbn [seq aria2_attempts].
  unfold try_except, bind, post_request, ret, time_sleep, print, backoff.
  cbn [Nat.eqb Nat.sub].
  destruct (verdict (outcome (attempt_at method _))) as [e0|j0]; [|reflexivity].
  destruct (verdict (outcome (attempt_at method _))) as [e1|j1]; [|reflexivity].
  destruct (verdict (outcome (attempt_at method _))) as [e2|j2]; reflexivity.
Qed.

(** The requests that the [try] body counts as failed. *)
Lemma verdict_failed {A} (o : Outcome A) :
  (exists e, verdict o = inl e) <->
  (o = NoConnection \/ o = TimedOutWaiting \/
   exists code body, o = Response code body /\
     ((400 <= code /\ code < 600) \/ body = None)).
Proof.
  split.
  - intros [e He]. destruct o as [| |code body]; auto.
    right; right. exists code, body. split; [reflexivity|].
    cbn in He.
    destruct ((400 <=? code) && (code <? 600)) eqn:Hc.
    + left. apply andb_prop in Hc as [H1 H2]. lia.
    + destruct body; [discriminate | now right].
  - intros [-> | [-> | (code & body & -> & H)]]; cbn; eauto.
    destruct ((400 <=? code) && (code <? 600)) eqn:Hc; eauto.
    destruct H as [[H1 H2] | ->]; eauto.
    apply andb_false_iff in Hc. lia.
Qed.

(** C4, as amended.  [aria2_call] never raises and makes at most three
    requests, one second of sleep after the first and after the second
    when they fail.  It returns the reply of the first request that does
    not fail and makes no request after it; when the three fail it prints
    the failure and returns [None].  A request fails when there is no
    connection, when the wait is exceeded, when the status code is 4xx or
    5xx, or when the body is not JSON: nothing else is a failure. *)
Theorem aria2_call_retries (method : string) (params : list Arg) (w : World) :
  let w0 := log (EvCall (now w) method params) w in
  let w1 := backoff (after_post method params w0) in
  let w2 := backoff (after_post method params w1) in
  aria2_call method params w =
    match verdict (outcome (attempt_at method w0)) with
    | inr j => (Ok (Some j), after_post method params w0)
    | inl _ =>
        match verdict (outcome (attempt_at method w1)) with
        | inr j => (Ok (Some j), after_post method params w1)
        | inl _ =>
            match verdict (outcome (attempt_at method w2)) with
            | inr j => (Ok (Some j), after_post method params w2)
            | inl e => (Ok None,
                        printed (MsgRpcFailed e)
                          (after_post method params w2))
            end
        end
    end
  /\ forall o : Outcome (ResultOf method),
       (exists e, verdict o = inl e) <->
       (o = NoConnection \/ o = TimedOutWaiting \/
        exists code body, o = Response code body /\
          ((400 <= code /\ code < 600) \/ body = None)).
Proof.
  split; [apply aria2_call_attempts | intros o; apply verdict_failed].
Qed.

(** C4 as the specification words it fails: against an endpoint that
    answers [302] with a JSON body every request is a non-2xx response,
    yet the first one is returned as the result. *)
Lemma aria2_call_accepts_non_2xx :
  ~ ((forall k t, spec_failed (outcome (net redirecting k t "aria2.unpause")) = true) ->
     fst (aria2_call "aria2.unpause" [AStr "2089b05ecca3d829"] redirecting) = Ok None).
Proof.
  intros H. specialize (H (fun _ _ => eq_refl)). vm_compute in H. discriminate.
Qed.

(** Two failures, then an answer: the call returns the answer, after
    three requests and two backoffs. *)
Example aria2_call_third_attempt :
  let '(r, w') := aria2_call "aria2.unpause" [AStr "2089b05ecca3d829"] flaky in
  r = Ok (Some {| result := Some "OK" |}) /\
  posts w' = 3%nat /\
  trace w' = [ EvCall 0 "aria2.unpause" [AStr "2089b05ecca3d829"];
               EvPost 0 "aria2.unpause" [AStr "2089b05ecca3d829"];
               EvSleep 1;
               EvPost 16000 "aria2.unpause" [AStr "2089b05ecca3d829"];
               EvSleep 1;
               EvPost 32000 "aria2.unpause" [AStr "2089b05ecca3d829"] ].
Proof. vm_compute. repeat split. Qed.

(** ** How channel code moves the world *)

Lemma talks_refl w : talks w w [].
Proof. split; rewrite ?app_nil_r; try reflexivity; lia. Qed.

Lemma talks_trans w w1 w2 e1 e2 :
  talks w w1 e1 -> talks w1 w2 e2 -> talks w w2 (e1 ++ e2).
Proof.
  intros [] []; split; try congruence; try lia.
  rewrite app_assoc. congruence.
Qed.

Lemma talks_print w m : talks w (printed m w) [EvPrint (now w) m].
Proof. split; cbn; try reflexivity; lia. Qed.

Lemma talks_sleep w secs :
  0 <= secs -> talks w (log (EvSleep secs) (advance (secs * 1000) w)) [EvSleep secs].
Proof. intros; split; cbn; try reflexivity; lia. Qed.

Lemma talks_post w method params :
  talks w (after_post method params w) [EvPost (now w) method params].
Proof.
  split; cbn; try reflexivity.
  pose proof (N2Z.is_nonneg (latency (attempt_at method w))). lia.
Qed.

Lemma calls_app a b : calls (a ++ b) = calls a ++ calls b.
Proof. apply omap_app. Qed.

Lemma call_times_app method a b :
  call_times method (a ++ b) = call_times method a ++ call_times method b.
Proof. unfold call_times. now rewrite calls_app, omap_app. Qed.

Lemma requests_app a b : requests (a ++ b) = requests a ++ requests b.
Proof. unfold requests. now rewrite calls_app, map_app. Qed.

(** [aria2_call] returns, and what it leaves in the trace is its own call
    followed by requests, sleeps and at most one print. *)
Lemma aria2_call_channel method params w :
  exists r w' evs,
    aria2_call method params w = (Ok r, w') /\
    talks w w' (EvCall (now w) method params :: evs) /\
    Forall (fun e => channel_event e = true) evs.
Proof.
  pose proof (aria2_call_attempts method params w) as H. cbn zeta in H.
  set (w0 := log (EvCall (now w) method params) w) in *.
  assert (T0 : talks w w0 [EvCall (now w) method params])
    by (split; cbn; try reflexivity; lia).
  pose proof (talks_post w0 method params) as P0.
  set (w1 := backoff (after_post method params w0)) in *.
  assert (S0 : talks (after_post method params w0) w1 [EvSleep 1])
    by (apply (talks_sleep _ 1); lia).
  pose proof (talks_post w1 method params) as P1.
  set (w2 := backoff (after_post method params w1)) in *.
  assert (S1 : talks (after_post method params w1) w2 [EvSleep 1])
    by (apply (talks_sleep _ 1); lia).
  pose proof (talks_post w2 method params) as P2.
  pose proof (talks_trans _ _ _ _ _ T0 P0) as A0.
  pose proof (talks_trans _ _ _ _ _ (talks_trans _ _ _ _ _ A0 S0) P1) as A1.
  pose proof (talks_trans _ _ _ _ _ (talks_trans _ _ _ _ _ A1 S1) P2) as A2.
  rewrite H.
  destruct (verdict (outcome (attempt_at method w0))).
  2:{ eexists _, _, _. split; [reflexivity|]. split; [exact A0 | repeat constructor]. }
  destruct (verdict (outcome (attempt_at method w1))).
  2:{ eexists _, _, _. split; [reflexivity|]. split; [exact A1 | repeat constructor]. }
  destruct (verdict (outcome (attempt_at method w2))).
  2:{ eexists _, _, _. split; [reflexivity|]. split; [exact A2 | repeat constructor]. }
  eexists _, _, _. split; [reflexivity|].
  split; [exact (talks_trans _ _ _ _ _ A2 (talks_print _ _)) | repeat constructor].
Qed.

Lemma channel_calls evs :
  Forall (fun e => channel_event e = true) evs -> calls evs = [].
Proof.
  induction 1 as [|e evs He _ IH]; [reflexivity|].
  destruct e; try discriminate; exact IH.
Qed.

Lemma channel_endings evs :
  Forall (fun e => channel_event e = true) evs -> endings evs = [].
Proof.
  induction 1 as [|e evs He _ IH]; [reflexivity|].
  destruct e as [| | |t m| |]; try discriminate; try exact IH.
  destruct m; try discriminate; exact IH.
Qed.

Lemma channel_progress evs :
  Forall (fun e => channel_event e = true) evs -> progress_lines evs = [].
Proof.
  induction 1 as [|e evs He _ IH]; [reflexivity|].
  destruct e as [| | |t m| |]; try discriminate; try exact IH.
  destruct m; try discriminate; exact IH.
Qed.

Lemma aria2_call_talks method params w :
  exists r w' evs,
    aria2_call method params w = (Ok r, w') /\
    talks w w' (EvCall (now w) method params :: evs) /\
    calls evs = [].
Proof.
  destruct (aria2_call_channel method params w) as (r & w' & evs & E & T & C).
  exists r, w', evs. auto using channel_calls.
Qed.

Lemma paced_weaken gap lo lo' ts : lo' <= lo -> paced gap lo ts -> paced gap lo' ts.
Proof. destruct ts; cbn; [trivial|]. intros ? []; split; [lia | assumption]. Qed.

(** Calls [gap] apart that all begin in [[lo, lo + n * gap)] are at most
    [n]. *)
Lemma paced_length gap lo ts n :
  0 < gap -> paced gap lo ts ->
  Forall (fun t => t < lo + Z.of_nat n * gap) ts ->
  (length ts <= n)%nat.
Proof.
  intros Hgap. revert lo n. induction ts as [|t ts IH]; cbn; intros lo n Hp Hb.
  - lia.
  - destruct Hp as [Hlo Hp]. inversion Hb as [|? ? Ht Hts]; subst.
    destruct n as [|n]; [lia|].
    apply le_n_S. apply (IH (t + gap) n Hp).
    eapply Forall_impl; [exact Hts|]. cbn. intros; nia.
Qed.

(** ** Selection *)

Lemma get_torrent_files_body_talks gid w :
  exists s w' evs,
    get_torrent_files_body gid w = (Ok s, w') /\
    talks w w' evs /\
    calls evs = [(now w, "aria2.tellStatus", [AStr gid; AList [AStr "files"]])] /\
    match s with
    | Return fl => fl <> []
    | Continue _ => now w + 1000 <= now w'
    end.
Proof.
  unfold get_torrent_files_body, bind.
  destruct (aria2_call_talks "aria2.tellStatus" [AStr gid; AList [AStr "files"]] w)
    as (r & w1 & evs & -> & T & Q).
  assert (C : calls (EvCall (now w) "aria2.tellStatus"
                       [AStr gid; AList [AStr "files"]] :: evs)
              = [(now w, "aria2.tellStatus", [AStr gid; AList [AStr "files"]])])
    by (unfold calls in *; cbn; now rewrite Q).
  assert (Again : exists s w' evs',
    (time_sleep 1 ;;; ret (Continue tt) : M (Step (list FileEntry) unit)) w1 = (Ok s, w') /\
    talks w w' evs' /\
    calls evs' = [(now w, "aria2.tellStatus", [AStr gid; AList [AStr "files"]])] /\
    match s with Return fl => fl <> [] | Continue _ => now w + 1000 <= now w' end).
  { eexists _, _, _. split; [reflexivity|]. split; [|split].
    - eapply talks_trans; [exact T | apply (talks_sleep _ 1); lia].
    - rewrite calls_app, C. reflexivity.
    - cbn. pose proof (talks_now _ _ _ T). lia. }
  destruct r as [[[st|]]|]; try exact Again.
  destruct (default [] (files st)) as [|f fl] eqn:F; [exact Again|].
  eexists _, _, _. split; [reflexivity|]. split; [exact T|]. split; [exact C|].
  discriminate.
Qed.

Lemma get_torrent_files_loop_talks gid timeout start fuel : forall w,
  timeout * 1000 - (now w - start) <= Z.of_nat fuel * 1000 ->
  exists fl w' evs,
    get_torrent_files_loop fuel gid timeout start w = (Ok fl, w') /\
    talks w w' evs /\
    requests evs = repeat (poll_files gid) (length (requests evs)) /\
    paced 1000 (now w) (call_times "aria2.tellStatus" evs) /\
    Forall (fun t => t - start < timeout * 1000) (call_times "aria2.tellStatus" evs) /\
    length (call_times "aria2.tellStatus" evs) = length (requests evs).
Proof.
  induction fuel as [|fuel IH]; intros w Hfuel; cbn [get_torrent_files_loop];
    destruct (now w - start <? timeout * 1000) eqn:G.
  - apply Z.ltb_lt in G. lia.
  - exists [], w, []. split; [reflexivity|]. split; [apply talks_refl|].
    repeat split; constructor.
  - apply Z.ltb_lt in G. unfold bind.
    destruct (get_torrent_files_body_talks gid w) as (s & w1 & e1 & -> & T1 & C1 & Hs).
    assert (R1 : requests e1 = [poll_files gid]) by (unfold requests; now rewrite C1).
    assert (K1 : call_times "aria2.tellStatus" e1 = [now w])
      by (unfold call_times; now rewrite C1).
    destruct s as [fl|[]].
    + exists fl, w1, e1. split; [reflexivity|]. split; [exact T1|].
      rewrite R1, K1. cbn. repeat split; try lia. repeat constructor. lia.
    + destruct (IH w1) as (fl & w2 & e2 & E & T2 & R2 & P2 & B2 & L2); [lia|].
      exists fl, w2, (e1 ++ e2). split; [exact E|].
      split; [eapply talks_trans; eassumption|].
      rewrite requests_app, call_times_app, R1, K1. cbn.
      rewrite <- R2. repeat split; try lia.
      * eapply paced_weaken; [|exact P2]. lia.
      * constructor; [lia | exact B2].
  - exists [], w, []. split; [reflexivity|]. split; [apply talks_refl|].
    repeat split; constructor.
Qed.

Lemma requests_call t method params evs :
  requests (EvCall t method params :: evs) = (method, params) :: requests evs.
Proof. reflexivity. Qed.

Lemma call_times_call m t method params evs :
  call_times m (EvCall t method params :: evs)
  = (if String.eqb method m then [t] else []) ++ call_times m evs.
Proof. unfold call_times. cbn. now destruct (String.eqb method m). Qed.

Lemma requests_quiet evs : calls evs = [] -> requests evs = [].
Proof. unfold requests. now intros ->. Qed.

Lemma call_times_quiet m evs : calls evs = [] -> call_times m evs = [].
Proof. unfold call_times. now intros ->. Qed.

Lemma select_each_talks gid selected indices : forall w,
  exists w' evs,
    select_each gid selected indices w = (Ok tt, w') /\
    talks w w' evs /\
    requests evs = map (select_file gid selected) indices /\
    call_times "aria2.tellStatus" evs = [].
Proof.
  induction indices as [|i rest IH]; intros w; cbn [select_each].
  - exists w, []. split; [reflexivity|]. split; [apply talks_refl|]. now split.
  - unfold bind.
    destruct (aria2_call_talks "aria2.selectFile"
                [AStr gid; AInt (Z.of_nat i); ABool (py_in i selected)] w)
      as (r & w1 & e1 & -> & T1 & Q1).
    destruct (IH w1) as (w2 & e2 & -> & T2 & R2 & K2).
    eexists _, _. split; [reflexivity|].
    split; [eapply talks_trans; eassumption|].
    rewrite requests_app, call_times_app, R2, K2.
    rewrite requests_call, call_times_call, (requests_quiet e1 Q1),
      (call_times_quiet _ e1 Q1). split; reflexivity.
Qed.

Lemma get_torrent_files_talks gid w :
  exists fl w' evs,
    get_torrent_files gid w = (Ok fl, w') /\
    talks w w' evs /\
    requests evs = repeat (poll_files gid) (length (requests evs)) /\
    paced 1000 (now w) (call_times "aria2.tellStatus" evs) /\
    Forall (fun t => t < now w + 15000) (call_times "aria2.tellStatus" evs) /\
    length (call_times "aria2.tellStatus" evs) = length (requests evs).
Proof.
  unfold get_torrent_files, get_torrent_files_t, bind, time_time.
  destruct (get_torrent_files_loop_talks gid 15 (now w) (Z.to_nat 15) w)
    as (fl & w' & evs & E & T & R & P & B & L); [lia|].
  exists fl, w', evs.
  split; [exact E|]. split; [exact T|]. split; [exact R|]. split; [exact P|].
  split; [|exact L].
  eapply Forall_impl; [exact B|]. cbn. intros; lia.
Qed.

(** What [apply_file_selection] does, whatever the engine of the model
    answers: it returns; it polls the file list, sends one
    [aria2.selectFile] for each index of the list it got, and ends with
    [aria2.unpause]. *)
Lemma apply_file_selection_run gid selected w :
  exists fl w1 w' evs n,
    get_torrent_files gid (printed MsgApplying w) = (Ok fl, w1) /\
    apply_file_selection gid selected w = (Ok tt, w') /\
    talks w w' evs /\
    requests evs = repeat (poll_files gid) n
                   ++ map (select_file gid selected) (seq 0 (length fl))
                   ++ [unpause gid] /\
    length (call_times "aria2.tellStatus" evs) = n /\
    paced 1000 (now w) (call_times "aria2.tellStatus" evs) /\
    Forall (fun t => t < now w + 15000) (call_times "aria2.tellStatus" evs).
Proof.
  unfold apply_file_selection, bind, print.
  destruct (get_torrent_files_talks gid (printed MsgApplying w))
    as (fl & w1 & e1 & E & T1 & R1 & P1 & B1 & L1).
  rewrite E. exists fl, w1.
  pose proof (talks_trans _ _ _ _ _ (talks_print w MsgApplying) T1) as T01.
  destruct fl as [|f fl].
  - destruct (aria2_call_talks "aria2.unpause" [AStr gid]
                (printed MsgNoFileList w1)) as (r & w2 & e2 & E2 & T2 & Q2).
    rewrite E2. eexists _, _, (length (requests e1)).
    split; [reflexivity|]. split; [reflexivity|].
    split; [exact (talks_trans _ _ _ _ _
                     (talks_trans _ _ _ _ _ T01 (talks_print w1 MsgNoFileList)) T2)|].
    rewrite !requests_app, !call_times_app, <- R1.
    rewrite requests_call, call_times_call, (requests_quiet e2 Q2),
      (call_times_quiet _ e2 Q2). cbn. rewrite ?app_nil_r, <- ?app_assoc.
    split; [reflexivity|]. split; [exact L1|]. split; assumption.
  - destruct (select_each_talks gid selected (seq 0 (length (f :: fl))) w1)
      as (w2 & e2 & E2 & T2 & R2 & K2).
    rewrite E2.
    destruct (aria2_call_talks "aria2.unpause" [AStr gid]
                (printed (MsgSelected (length selected)) w2))
      as (r & w3 & e3 & E3 & T3 & Q3).
    rewrite E3. eexists _, _, (length (requests e1)).
    split; [reflexivity|]. split; [reflexivity|].
    split; [exact (talks_trans _ _ _ _ _
                     (talks_trans _ _ _ _ _
                        (talks_trans _ _ _ _ _ T01 T2)
                        (talks_print w2 _)) T3)|].
    rewrite !requests_app, !call_times_app, <- R1, R2, K2.
    rewrite requests_call, call_times_call, (requests_quiet e3 Q3),
      (call_times_quiet _ e3 Q3). cbn. rewrite ?app_nil_r, <- ?app_assoc.
    split; [reflexivity|]. split; [exact L1|]. split; assumption.
Qed.

Lemma py_in_spec i selected :
  py_in i selected = bool_decide (Z.of_nat i ∈ selected).
Proof.
  unfold py_in. induction selected as [|z l IH]; cbn.
  - symmetry. apply bool_decide_eq_false. apply not_elem_of_nil.
  - rewrite IH. destruct (Z.eqb_spec (Z.of_nat i) z) as [->|Hne]; cbn.
    + symmetry. apply bool_decide_eq_true. apply elem_of_cons. now left.
    + apply bool_decide_ext. rewrite elem_of_cons. tauto.
Qed.

Lemma select_command_polls gid n :
  omap select_command (repeat (poll_files gid) n) = [].
Proof. induction n as [|n IH]; [reflexivity | exact IH]. Qed.

Lemma select_command_selects gid selected l :
  omap select_command (map (select_file gid selected) l)
  = map (fun i => (gid, Z.of_nat i, bool_decide (Z.of_nat i ∈ selected))) l.
Proof.
  induction l as [|i l IH]; [reflexivity|].
  cbn. rewrite <- py_in_spec. f_equal. exact IH.
Qed.

Lemma selection_after_lookup gid (f : Z -> bool) n (sel0 : gmap Z bool) i :
  selection_after (map (fun k => (gid, Z.of_nat k, f (Z.of_nat k))) (seq 0 n)) sel0 !! i
  = if bool_decide (0 <= i < Z.of_nat n) then Some (f i) else sel0 !! i.
Proof.
  unfold selection_after. induction n as [|n IH].
  - cbn. rewrite bool_decide_eq_false_2; [reflexivity | lia].
  - rewrite seq_S, map_app, foldl_app. cbn [map foldl fst snd Nat.add].
    rewrite lookup_insert. destruct (decide (Z.of_nat n = i)) as [Hi|Hi].
    + subst i. rewrite bool_decide_eq_true_2; [reflexivity | lia].
    + rewrite IH. apply (f_equal (fun b : bool => if b then _ else _)).
      apply bool_decide_ext. lia.
Qed.

(** ** What the calls send and what the engine answers *)

Lemma sent_requests_app a b :
  sent_requests (a ++ b) = sent_requests a ++ sent_requests b.
Proof. apply omap_app. Qed.

Lemma post_times_app m a b :
  post_times m (a ++ b) = post_times m a ++ post_times m b.
Proof. apply omap_app. Qed.

Lemma answered_post engine k t m p rest :
  answered engine k (EvPost t m p :: rest)
  = if has_result (outcome (engine k t m))
    then (m, p) :: answered engine (S k) rest
    else answered engine (S k) rest.
Proof. reflexivity. Qed.

Lemma answered_app engine a : forall k b,
  answered engine k (a ++ b)
  = answered engine k a
    ++ answered engine (k + length (sent_requests a)) b.
Proof.
  induction a as [|e a IH]; intros k b.
  - cbn. now rewrite Nat.add_0_r.
  - destruct e as [t m p|t m p|s|t m|c|x y]; try exact (IH k b).
    cbn [app]. rewrite !answered_post.
    change (sent_requests (EvPost t m p :: a)) with ((m, p) :: sent_requests a).
    cbn [length]. rewrite Nat.add_succ_r.
    destruct (has_result _); rewrite (IH (S k) b); reflexivity.
Qed.

(** Events that are no request: nothing sent, nothing answered. *)
Lemma answered_quiet engine k evs :
  sent_requests evs = [] -> answered engine k evs = [].
Proof.
  induction evs as [|e evs IH]; [reflexivity|].
  destruct e as [t m p|t m p|s|t m|c|x y]; try exact IH. discriminate.
Qed.

Lemma answered_sent engine x : forall evs k,
  x ∈ answered engine k evs -> x ∈ sent_requests evs.
Proof.
  induction evs as [|e evs IH]; intros k; [intros H; exact H|].
  destruct e as [t m p|t m p|s|t m|c|x' y]; try exact (IH k).
  rewrite answered_post.
  change (sent_requests (EvPost t m p :: evs)) with ((m, p) :: sent_requests evs).
  rewrite elem_of_cons.
  destruct (has_result _); [|right; eauto].
  rewrite elem_of_cons. intros [->|H]; [now left | right; eauto].
Qed.

(** The attempts of [aria2_call], counted: what is sent, what is
    answered, and when. *)
Lemma aria2_attempts_sends method params retries : forall n a w,
  (a + n = retries)%nat ->
  exists r w' evs,
    aria2_attempts method params retries (seq a n) w = (Ok r, w') /\
    talks w w' evs /\
    Forall (fun e => channel_event e = true) evs /\
    posts w' = (posts w + length (sent_requests evs))%nat /\
    (length (sent_requests evs) <= n)%nat /\
    (1 <= n -> 1 <= length (sent_requests evs))%nat /\
    sent_requests evs = repeat (method, params) (length (sent_requests evs)) /\
    answered (net w) (posts w) evs
    = match result_of r with Some _ => [(method, params)] | None => [] end /\
    ((forall k t, has_result (outcome (net w k t method)) = true) ->
     (1 <= n)%nat -> result_of r <> None) /\
    ((forall k t, exists e, verdict (outcome (net w k t method)) = inl e) ->
     r = None /\ length (sent_requests evs) = n) /\
    forall limit m',
      (forall k t, Z.of_N (latency (net w k t method)) <= limit) ->
      Forall (fun t => now w <= t <= now w + Z.of_nat (n - 1) * (limit + 1000))
        (post_times m' evs).
Proof.
  induction n as [|n IH]; intros a w Ha; cbn [seq aria2_attempts].
  - exists None, w, []. split; [reflexivity|]. split; [apply talks_refl|].
    split; [constructor|]. cbn.
    split; [lia|]. split; [lia|]. split; [lia|]. split; [reflexivity|].
    split; [reflexivity|]. split; [lia|]. split; [auto|]. constructor.
  - unfold try_except, bind, post_request.
    pose proof (talks_post w method params) as P.
    pose proof (N2Z.is_nonneg (latency (attempt_at method w))) as Lpos.
    assert (Bound : forall limit m' (ts : list Z),
              (forall k t, Z.of_N (latency (net w k t method)) <= limit) ->
              Forall (fun t => now w + Z.of_N (latency (attempt_at method w)) + 1000 <= t
                               <= now w + Z.of_N (latency (attempt_at method w)) + 1000
                                  + Z.of_nat (n - 1) * (limit + 1000)) ts ->
              (1 <= n)%nat ->
              Forall (fun t => now w <= t <= now w + Z.of_nat (S n - 1) * (limit + 1000))
                (post_times m' [EvPost (now w) method params] ++ ts)).
    { intros limit m' ts Hl Hts Hn.
      pose proof (Hl (posts w) (now w)) as Hl0. fold (attempt_at method w) in Hl0.
      assert (Hlim : 0 <= limit) by lia.
      apply Forall_app. split.
      - unfold post_times. cbn. destruct (String.eqb method m'); repeat constructor; nia.
      - eapply Forall_impl; [exact Hts|]. cbn. intros t Ht.
        replace (S n - 1)%nat with (S (n - 1)) by lia. nia. }
    assert (Here : has_result (outcome (net w (posts w) (now w) method))
                   = match verdict (outcome (attempt_at method w)) with
                     | inr {| result := Some _ |} => true
                     | _ => false
                     end) by reflexivity.
    destruct (verdict (outcome (attempt_at method w))) as [e|j] eqn:V.
    + destruct (Nat.eqb_spec a (retries - 1)) as [Hlast|Hmore].
      * exists None, (printed (MsgRpcFailed e) (after_post method params w)),
          [EvPost (now w) method params;
           EvPrint (now (after_post method params w)) (MsgRpcFailed e)].
        split; [reflexivity|].
        split; [exact (talks_trans _ _ _ _ _ P (talks_print _ _))|].
        split; [repeat constructor|].
        assert (n = 0)%nat as -> by lia.
        split; [cbn; lia|]. split; [cbn; lia|]. split; [cbn; lia|].
        split; [reflexivity|].
        split; [rewrite answered_post, Here; reflexivity|].
        split; [intros H; rewrite (H (posts w) (now w)) in Here; discriminate|].
        split; [intros _; split; reflexivity|].
        intros limit m' Hl. unfold post_times. cbn.
        destruct (String.eqb method m'); repeat constructor; lia.
      * destruct (IH (S a) (backoff (after_post method params w)))
          as (r & w' & evs & E & T & C & Hp & Hle & Hge & Hs & Ha' & Hall & Hnone & Ht);
          [lia|].
        assert (Hn : (1 <= n)%nat) by lia.
        exists r, w', ([EvPost (now w) method params] ++ [EvSleep 1] ++ evs).
        unfold time_sleep, ret. fold (backoff (after_post method params w)).
        split; [exact E|].
        split.
        { eapply talks_trans; [exact P|]. eapply talks_trans; [|exact T].
          apply (talks_sleep _ 1). lia. }
        split; [repeat constructor; exact C|].
        change (sent_requests ([EvPost (now w) method params] ++ [EvSleep 1] ++ evs))
          with ((method, params) :: sent_requests evs).
        cbn [length repeat].
        split; [rewrite Hp; cbn [posts backoff log advance after_post sent]; lia|].
        split; [lia|]. split; [lia|].
        split; [f_equal; exact Hs|].
        split.
        { cbn [app]. rewrite answered_post, Here. exact Ha'. }
        split; [intros H _; apply Hall; [exact H | exact Hn]|].
        split; [intros H; destruct (Hnone H) as [-> ->]; now split|].
        intros limit m' Hl.
        rewrite (post_times_app m' [EvPost (now w) method params]).
        change (post_times m' ([EvSleep 1] ++ evs)) with (post_times m' evs).
        apply (Bound limit m' _ Hl); [|exact Hn].
        exact (Ht limit m' Hl).
    + exists (Some j), (after_post method params w), [EvPost (now w) method params].
      split; [reflexivity|]. split; [exact P|].
      split; [repeat constructor|].
      split; [cbn; lia|]. split; [cbn; lia|]. split; [cbn; lia|].
      split; [reflexivity|].
      split; [rewrite answered_post, Here; now destruct j as [[x|]]|].
      split; [intros H _; rewrite (H (posts w) (now w)) in Here;
              destruct j as [[x|]]; [discriminate | discriminate Here]|].
      split; [intros H; destruct (H (posts w) (now w)) as [e He];
              change (net w (posts w) (now w) method) with (attempt_at method w) in He;
              congruence|].
      intros limit m' Hl.
      pose proof (Hl (posts w) (now w)) as Hl0.
      unfold post_times. cbn.
      destruct (String.eqb method m'); repeat constructor; nia.
Qed.

(** A call, counted: between one and three requests, all of them for the
    method called; the command is taken when the reply carries a
    result. *)
Lemma aria2_call_sends method params w :
  exists r w' evs,
    aria2_call method params w = (Ok r, w') /\
    talks w w' evs /\
    calls evs = [(now w, method, params)] /\
    posts w' = (posts w + length (sent_requests evs))%nat /\
    (1 <= length (sent_requests evs) <= 3)%nat /\
    sent_requests evs = repeat (method, params) (length (sent_requests evs)) /\
    answered (net w) (posts w) evs
    = match result_of r with Some _ => [(method, params)] | None => [] end /\
    ((forall k t, has_result (outcome (net w k t method)) = true) ->
     result_of r <> None) /\
    forall limit m',
      (forall k t, Z.of_N (latency (net w k t method)) <= limit) ->
      Forall (fun t => now w <= t <= now w + 2 * limit + 2000) (post_times m' evs).
Proof.
  unfold aria2_call, aria2_call_n.
  set (w0 := log (EvCall (now w) method params) w).
  destruct (aria2_attempts_sends method params 3 3 0%nat w0 eq_refl)
    as (r & w' & evs & E & T & C & Hp & Hle & Hge & Hs & Ha & Hall & _ & Ht).
  exists r, w', (EvCall (now w) method params :: evs).
  split; [exact E|].
  split.
  { apply (talks_trans w w0 w' [EvCall (now w) method params] evs); [|exact T].
    split; cbn; try reflexivity; lia. }
  split.
  { change (calls (EvCall (now w) method params :: evs))
      with ((now w, method, params) :: calls evs).
    now rewrite (channel_calls evs C). }
  change (sent_requests (EvCall (now w) method params :: evs))
    with (sent_requests evs).
  split; [exact Hp|]. split; [lia|]. split; [exact Hs|].
  split; [exact Ha|]. split; [intros H; apply Hall; [exact H | lia]|].
  intros limit m' Hl.
  change (post_times m' (EvCall (now w) method params :: evs))
    with (post_times m' evs).
  eapply Forall_impl; [exact (Ht limit m' Hl)|]. cbn. intros t.
  change (now w0) with (now w). lia.
Qed.

Lemma last_repeat {A} (x : A) n : (1 <= n)%nat -> last (repeat x n) = Some x.
Proof.
  intros H. destruct n as [|n]; [lia|]. clear H.
  induction n as [|n IH]; [reflexivity|]. exact IH.
Qed.

(** Requests for one method are no requests for another. *)
Lemma post_times_other m m' evs n params :
  sent_requests evs = repeat (m, params) n ->
  String.eqb m m' = false -> post_times m' evs = [].
Proof.
  revert n. induction evs as [|e evs IH]; intros n Hs Hm; [reflexivity|].
  destruct e as [t x p|t x p|s|t x|c|x y]; try exact (IH n Hs Hm).
  change (sent_requests (EvPost t x p :: evs)) with ((x, p) :: sent_requests evs) in Hs.
  destruct n as [|n]; [discriminate|]. cbn [repeat] in Hs.
  injection Hs as -> -> Hs.
  unfold post_times. cbn. rewrite Hm. exact (IH n Hs Hm).
Qed.

(** ** The wait for the file list *)

Lemma get_torrent_files_body_sends gid w :
  exists s w' evs,
    get_torrent_files_body gid w = (Ok s, w') /\
    talks w w' evs /\
    posts w' = (posts w + length (sent_requests evs))%nat /\
    Forall (fun c => c = poll_files gid) (sent_requests evs) /\
    (forall limit,
        (forall k t, Z.of_N (latency (net w k t "aria2.tellStatus")) <= limit) ->
        Forall (fun t => now w <= t <= now w + 2 * limit + 2000)
          (post_times "aria2.tellStatus" evs)) /\
    match s with
    | Return fl => fl <> []
    | Continue _ => now w + 1000 <= now w'
    end.
Proof.
  unfold get_torrent_files_body, bind.
  destruct (aria2_call_sends "aria2.tellStatus" [AStr gid; AList [AStr "files"]] w)
    as (r & w1 & evs & -> & T & _ & Hp & _ & Hs & _ & _ & Ht).
  assert (F : Forall (fun c => c = poll_files gid) (sent_requests evs)).
  { rewrite Hs. apply Forall_forall. intros c Hc.
    apply list_elem_of_In, repeat_spec in Hc. exact Hc. }
  assert (Again : exists s w' evs',
    (time_sleep 1 ;;; ret (Continue tt) : M (Step (list FileEntry) unit)) w1 = (Ok s, w') /\
    talks w w' evs' /\
    posts w' = (posts w + length (sent_requests evs'))%nat /\
    Forall (fun c => c = poll_files gid) (sent_requests evs') /\
    (forall limit,
        (forall k t, Z.of_N (latency (net w k t "aria2.tellStatus")) <= limit) ->
        Forall (fun t => now w <= t <= now w + 2 * limit + 2000)
          (post_times "aria2.tellStatus" evs')) /\
    match s with Return fl => fl <> [] | Continue _ => now w + 1000 <= now w' end).
  { exists (Continue tt), (log (EvSleep 1) (advance (1 * 1000) w1)), (evs ++ [EvSleep 1]).
    split; [reflexivity|].
    split; [eapply talks_trans; [exact T | apply (talks_sleep _ 1); lia]|].
    rewrite sent_requests_app, post_times_app, !app_nil_r.
    split; [exact Hp|]. split; [exact F|].
    split; [intros limit Hl; exact (Ht limit _ Hl)|].
    cbn. pose proof (talks_now _ _ _ T). lia. }
  destruct r as [[[st|]]|]; try exact Again.
  destruct (default [] (files st)) as [|f fl] eqn:Hf; [exact Again|].
  exists (Return (f :: fl)), w1, evs.
  split; [reflexivity|]. split; [exact T|]. split; [exact Hp|]. split; [exact F|].
  split; [intros limit Hl; exact (Ht limit _ Hl) | discriminate].
Qed.

Lemma get_torrent_files_loop_sends gid timeout start fuel : forall w,
  timeout * 1000 - (now w - start) <= Z.of_nat fuel * 1000 ->
  exists fl w' evs,
    get_torrent_files_loop fuel gid timeout start w = (Ok fl, w') /\
    talks w w' evs /\
    posts w' = (posts w + length (sent_requests evs))%nat /\
    Forall (fun c => c = poll_files gid) (sent_requests evs) /\
    forall limit,
      (forall k t, Z.of_N (latency (net w k t "aria2.tellStatus")) <= limit) ->
      Forall (fun t => t - start < timeout * 1000 + 2 * limit + 2000)
        (post_times "aria2.tellStatus" evs).
Proof.
  induction fuel as [|fuel IH]; intros w Hfuel; cbn [get_torrent_files_loop];
    destruct (Z.ltb_spec (now w - start) (timeout * 1000)) as [G|G].
  1: lia.
  1,3: (exists [], w, []; split; [reflexivity|]; split; [apply talks_refl|];
        split; [cbn; lia|]; split; [constructor|]; intros; constructor).
  unfold bind.
  destruct (get_torrent_files_body_sends gid w)
    as (s & w1 & e1 & -> & T1 & P1 & F1 & B1 & Hs).
  assert (B1' : forall limit,
             (forall k t, Z.of_N (latency (net w k t "aria2.tellStatus")) <= limit) ->
             Forall (fun t => t - start < timeout * 1000 + 2 * limit + 2000)
               (post_times "aria2.tellStatus" e1)).
  { intros limit Hl. eapply Forall_impl; [exact (B1 limit Hl)|]. cbn. intros; lia. }
  destruct s as [fl|[]].
  - exists fl, w1, e1. auto.
  - destruct (IH w1) as (fl & w2 & e2 & E2 & T2 & P2 & F2 & B2); [lia|].
    exists fl, w2, (e1 ++ e2).
    split; [exact E2|]. split; [eapply talks_trans; eassumption|].
    rewrite sent_requests_app, post_times_app, length_app.
    split; [lia|]. split; [now apply Forall_app|].
    intros limit Hl. apply Forall_app. split; [now apply B1'|].
    apply B2. now rewrite (talks_net _ _ _ T1).
Qed.

Lemma files_loop_turn gid timeout start fuel w w' :
  files_again gid timeout start w w' ->
  get_torrent_files_loop (S fuel) gid timeout start w
  = get_torrent_files_loop fuel gid timeout start w'.
Proof.
  inversion 1 as [? ? G B]; subst. cbn [get_torrent_files_loop].
  apply Z.ltb_lt in G. rewrite G. unfold bind. now rewrite B.
Qed.

(** The wait, started with fuel for the time that is left, comes to each
    of its turns with fuel for the time that is left then. *)
Lemma files_turns_loop gid timeout start x y :
  rtc (files_again gid timeout start) x y ->
  forall fuel,
    timeout * 1000 - (now x - start) <= Z.of_nat fuel * 1000 ->
    exists fuel',
      get_torrent_files_loop fuel gid timeout start x
      = get_torrent_files_loop fuel' gid timeout start y /\
      timeout * 1000 - (now y - start) <= Z.of_nat fuel' * 1000.
Proof.
  induction 1 as [x|x y z Hxy Hyz IH]; intros fuel Hf.
  - exists fuel. now split.
  - assert (G : now x - start < timeout * 1000) by (inversion Hxy; assumption).
    assert (D : now x + 1000 <= now y).
    { inversion Hxy as [? ? _ B]; subst.
      destruct (get_torrent_files_body_sends gid x)
        as (s & w1 & e1 & E & _ & _ & _ & _ & Hs).
      rewrite B in E. injection E as <- <-. exact Hs. }
    destruct fuel as [|fuel]; [cbn in Hf; lia|].
    destruct (IH fuel) as (fuel' & E & Hf'); [lia|].
    exists fuel'. rewrite (files_loop_turn _ _ _ _ _ _ Hxy). now split.
Qed.

(** When the poll of some turn of the wait is answered with a list that
    is not empty, that list is what [get_torrent_files] returns, at the
    end of that poll. *)
Lemma files_turn_returns gid w wk st w1 fl :
  files_turn gid w wk ->
  poll_file_list gid wk = (Ok (Some {| result := Some st |}), w1) ->
  files st = Some fl -> fl <> [] ->
  get_torrent_files gid (printed MsgApplying w) = (Ok fl, w1).
Proof.
  intros [Hr G] Hp Hf Hne. cbn zeta in Hr, G.
  set (w0 := printed MsgApplying w) in *.
  unfold get_torrent_files, get_torrent_files_t, bind, time_time.
  destruct (files_turns_loop _ _ _ _ _ Hr (Z.to_nat 15)) as (fuel' & E & Hfuel);
    [change (Z.of_nat (Z.to_nat 15)) with 15; lia|].
  rewrite E. destruct fuel' as [|fuel']; [lia|].
  cbn [get_torrent_files_loop]. apply Z.ltb_lt in G. rewrite G.
  unfold bind, get_torrent_files_body, bind. unfold poll_file_list in Hp.
  rewrite Hp, Hf. cbn [default].
  destruct fl as [|f fl]; [contradiction | reflexivity].
Qed.

(** ** The selection commands *)

Lemma select_command_select_file gid selected i :
  select_command (select_file gid selected i)
  = Some (gid, Z.of_nat i, bool_decide (Z.of_nat i ∈ selected)).
Proof. unfold select_file, select_command. cbn. now rewrite py_in_spec. Qed.

Lemma requests_of_call evs t method params :
  calls evs = [(t, method, params)] -> requests evs = [(method, params)].
Proof. unfold requests. now intros ->. Qed.

Lemma call_times_of_call evs t method params m :
  calls evs = [(t, method, params)] -> String.eqb method m = false ->
  call_times m evs = [].
Proof. unfold call_times. intros -> H. cbn. now rewrite H. Qed.

(** The selection calls, counted: one call for each index, and of the
    commands those that the engine answered, in order. *)
Lemma select_each_sends gid selected : forall indices w,
  exists w' evs,
    select_each gid selected indices w = (Ok tt, w') /\
    talks w w' evs /\
    requests evs = map (select_file gid selected) indices /\
    posts w' = (posts w + length (sent_requests evs))%nat /\
    post_times "aria2.tellStatus" evs = [] /\
    sublist (omap select_command (answered (net w) (posts w) evs))
      (map (fun i => (gid, Z.of_nat i, bool_decide (Z.of_nat i ∈ selected)))
         indices) /\
    ((forall k t,
         has_result (outcome (net w k t "aria2.selectFile")) = true) ->
     omap select_command (answered (net w) (posts w) evs)
     = map (fun i => (gid, Z.of_nat i, bool_decide (Z.of_nat i ∈ selected)))
         indices).
Proof.
  induction indices as [|i rest IH]; intros w; cbn [select_each].
  - exists w, []. split; [reflexivity|]. split; [apply talks_refl|].
    split; [reflexivity|]. split; [cbn; lia|]. split; [reflexivity|].
    split; [constructor | reflexivity].
  - unfold bind.
    destruct (aria2_call_sends "aria2.selectFile"
                [AStr gid; AInt (Z.of_nat i); ABool (py_in i selected)] w)
      as (r & w1 & e1 & -> & T1 & C1 & P1 & _ & S1 & A1 & All1 & _).
    destruct (IH w1) as (w2 & e2 & -> & T2 & R2 & P2 & Q2 & Sub2 & All2).
    rewrite (talks_net _ _ _ T1) in Sub2, All2.
    exists w2, (e1 ++ e2). split; [reflexivity|].
    split; [eapply talks_trans; eassumption|].
    rewrite requests_app, sent_requests_app, post_times_app, length_app,
      answered_app, omap_app, <- P1, A1, R2, Q2.
    rewrite (requests_of_call _ _ _ _ C1),
      (post_times_other "aria2.selectFile" "aria2.tellStatus" e1 _ _ S1 eq_refl).
    fold (select_file gid selected i).
    split; [reflexivity|]. split; [lia|]. split; [reflexivity|].
    cbn [map].
    destruct (result_of r) as [j|].
    + change (omap select_command [select_file gid selected i])
        with (match select_command (select_file gid selected i) with
              | Some c => [c] | None => [] end).
      rewrite select_command_select_file. cbn [app].
      split; [now apply sublist_skip|].
      intros H. f_equal. now apply All2.
    + cbn [app]. change (omap select_command []) with (@nil (string * Z * bool)).
      cbn [app].
      split; [now apply sublist_cons|].
      intros H. now destruct (All1 H).
Qed.

(** The end of [apply_file_selection]: a print, then the call that
    releases the job. *)
Lemma unpause_sends gid m w :
  exists r w' evs,
    aria2_call "aria2.unpause" [AStr gid] (printed m w) = (Ok r, w') /\
    talks w w' evs /\
    requests evs = [unpause gid] /\
    post_times "aria2.tellStatus" evs = [] /\
    posts w' = (posts w + length (sent_requests evs))%nat /\
    last (sent_requests evs) = Some (unpause gid) /\
    omap select_command (answered (net w) (posts w) evs) = [] /\
    ((forall k t,
         has_result (outcome (net w k t "aria2.unpause")) = true) ->
     last (answered (net w) (posts w) evs) = Some (unpause gid)).
Proof.
  destruct (aria2_call_sends "aria2.unpause" [AStr gid] (printed m w))
    as (r & w' & evs & E & T & C & P & [Hn _] & S & A & All & _).
  exists r, w', ([EvPrint (now w) m] ++ evs).
  split; [exact E|].
  split; [exact (talks_trans _ _ _ _ _ (talks_print w m) T)|].
  split; [rewrite requests_app; exact (requests_of_call _ _ _ _ C)|].
  split; [rewrite post_times_app; exact (post_times_other "aria2.unpause" "aria2.tellStatus" evs _ _ S eq_refl)|].
  change (sent_requests ([EvPrint (now w) m] ++ evs)) with (sent_requests evs).
  change (answered (net w) (posts w) ([EvPrint (now w) m] ++ evs))
    with (answered (net (printed m w)) (posts (printed m w)) evs).
  split; [exact P|].
  split; [rewrite S; now apply last_repeat|].
  rewrite A.
  split; [now destruct (result_of r)|].
  intros H. specialize (All H). destruct (result_of r); [reflexivity | contradiction].
Qed.

(** What [apply_file_selection] does once the wait for the file list is
    over. *)
Lemma apply_file_selection_sends gid selected w :
  exists fl w1 e1 w' tail,
    get_torrent_files gid (printed MsgApplying w) = (Ok fl, w1) /\
    talks (printed MsgApplying w) w1 e1 /\
    posts w1 = (posts w + length (sent_requests e1))%nat /\
    Forall (fun c => c = poll_files gid) (sent_requests e1) /\
    (forall limit,
        (forall k t, Z.of_N (latency (net w k t "aria2.tellStatus")) <= limit) ->
        Forall (fun t => t - now w < 15 * 1000 + 2 * limit + 2000)
          (post_times "aria2.tellStatus" e1)) /\
    apply_file_selection gid selected w = (Ok tt, w') /\
    talks w1 w' tail /\
    requests tail
    = map (select_file gid selected) (seq 0 (length fl)) ++ [unpause gid] /\
    post_times "aria2.tellStatus" tail = [] /\
    last (sent_requests tail) = Some (unpause gid) /\
    sublist (omap select_command (answered (net w1) (posts w1) tail))
      (map (fun i => (gid, Z.of_nat i, bool_decide (Z.of_nat i ∈ selected)))
         (seq 0 (length fl))) /\
    ((forall k t,
         has_result (outcome (net w1 k t "aria2.selectFile")) = true) ->
     omap select_command (answered (net w1) (posts w1) tail)
     = map (fun i => (gid, Z.of_nat i, bool_decide (Z.of_nat i ∈ selected)))
         (seq 0 (length fl))) /\
    ((forall k t,
         has_result (outcome (net w1 k t "aria2.unpause")) = true) ->
     last (answered (net w1) (posts w1) tail) = Some (unpause gid)).
Proof.
  set (w0 := printed MsgApplying w).
  destruct (get_torrent_files_loop_sends gid 15 (now w0) (Z.to_nat 15) w0)
    as (fl & w1 & e1 & E1 & T1 & P1 & F1 & B1);
    [change (Z.of_nat (Z.to_nat 15)) with 15; lia|].
  assert (G : get_torrent_files gid w0 = (Ok fl, w1)) by exact E1.
  exists fl, w1, e1.
  assert (Tail : exists w' tail,
    apply_file_selection gid selected w = (Ok tt, w') /\
    talks w1 w' tail /\
    requests tail
    = map (select_file gid selected) (seq 0 (length fl)) ++ [unpause gid] /\
    post_times "aria2.tellStatus" tail = [] /\
    last (sent_requests tail) = Some (unpause gid) /\
    sublist (omap select_command (answered (net w1) (posts w1) tail))
      (map (fun i => (gid, Z.of_nat i, bool_decide (Z.of_nat i ∈ selected)))
         (seq 0 (length fl))) /\
    ((forall k t,
         has_result (outcome (net w1 k t "aria2.selectFile")) = true) ->
     omap select_command (answered (net w1) (posts w1) tail)
     = map (fun i => (gid, Z.of_nat i, bool_decide (Z.of_nat i ∈ selected)))
         (seq 0 (length fl))) /\
    ((forall k t,
         has_result (outcome (net w1 k t "aria2.unpause")) = true) ->
     last (answered (net w1) (posts w1) tail) = Some (unpause gid))).
  { unfold apply_file_selection. unfold bind at 1. unfold print at 1.
    fold w0. unfold bind at 1. rewrite G.
    destruct fl as [|f fl].
    - unfold bind.
      destruct (unpause_sends gid MsgNoFileList w1)
        as (r & w' & tail & E & T & R & Q & P & L & A & All).
      unfold print at 1. rewrite E.
      exists w', tail. split; [reflexivity|]. split; [exact T|].
      split; [exact R|]. split; [exact Q|]. split; [exact L|].
      rewrite A. split; [constructor|]. split; [reflexivity | exact All].
    - unfold bind.
      destruct (select_each_sends gid selected (seq 0 (length (f :: fl))) w1)
        as (w2 & e2 & E2 & T2 & R2 & P2 & Q2 & Sub2 & All2).
      rewrite E2.
      destruct (unpause_sends gid (MsgSelected (length selected)) w2)
        as (r & w' & e3 & E3 & T3 & R3 & Q3 & P3 & L3 & A3 & All3).
      unfold print at 1. rewrite E3.
      rewrite (talks_net _ _ _ T2) in A3, All3.
      exists w', (e2 ++ e3). split; [reflexivity|].
      split; [eapply talks_trans; eassumption|].
      rewrite requests_app, post_times_app, sent_requests_app, answered_app,
        omap_app, <- P2, R2, R3, Q2, Q3, A3, ?app_nil_r.
      split; [reflexivity|]. split; [reflexivity|].
      split; [rewrite last_app, L3; reflexivity|].
      split; [exact Sub2|]. split; [exact All2|].
      intros H. rewrite last_app, (All3 H). reflexivity. }
  destruct Tail as (w' & tail & Tail).
  exists w', tail.
  split; [exact G|]. split; [exact T1|]. split; [exact P1|]. split; [exact F1|].
  split; [|exact Tail].
  intros limit Hl. exact (B1 limit Hl).
Qed.

(** The selection once the engine has taken commands whose flag is a
    function of the index. *)
Lemma selection_after_flags (f : Z -> bool) : forall cmds sel0 i,
  (forall c, c ∈ cmds -> c.2 = f (command_index c)) ->
  selection_after cmds sel0 !! i
  = if bool_decide (i ∈ map command_index cmds) then Some (f i) else sel0 !! i.
Proof.
  induction cmds as [|c cmds IH]; intros sel0 i H.
  - cbn. rewrite bool_decide_eq_false_2; [reflexivity | apply not_elem_of_nil].
  - change (selection_after (c :: cmds) sel0)
      with (selection_after cmds (<[command_index c := c.2]> sel0)).
    rewrite IH by (intros c' Hc'; apply H; now apply list_elem_of_further).
    cbn [map]. destruct (decide (i ∈ map command_index cmds)) as [Hin|Hout].
    + rewrite (bool_decide_eq_true_2 _ Hin).
      rewrite bool_decide_eq_true_2; [reflexivity | now apply list_elem_of_further].
    + rewrite (bool_decide_eq_false_2 _ Hout).
      destruct (decide (command_index c = i)) as [Hi|Hi].
      * subst i. rewrite lookup_insert_eq.
        rewrite bool_decide_eq_true_2 by apply list_elem_of_here.
        rewrite (H c) by apply list_elem_of_here. reflexivity.
      * rewrite lookup_insert_ne by exact Hi.
        rewrite bool_decide_eq_false_2; [reflexivity|].
        rewrite elem_of_cons. intros [E|E]; [now symmetry in E | contradiction].
Qed.

Lemma elem_of_map {A B} (f : A -> B) l y :
  y ∈ map f l -> exists x, y = f x /\ x ∈ l.
Proof. intros H. exact (list_elem_of_fmap_1 f l y H). Qed.

(** C1, as amended.  When a poll that the wait for the file list begins
    within its fifteen seconds is answered with a list of N files, N at
    least 1, [apply_file_selection] returns and after that poll makes one
    [aria2.selectFile] call for each index below N, in order, with the
    flag "the index is in the selection", then [aria2.unpause], and no
    other call: an index of the selection beyond the list gets no
    command.  The commands that reach the job are those of the requests
    the engine answered with a result: they are among the N commands, in
    order, and they are the N commands when the engine answers every
    selection request with a result.  Once the engine has taken them,
    each index that got its command is selected exactly when it is in
    the selection, the other indices are as they were, and taking the
    same commands again changes nothing; with every request answered
    these are exactly the indices below N. *)
Theorem apply_file_selection_selects (gid : string) (selected : list Z)
    (w wk : World) (st : Status) (w1 : World) (fl : list FileEntry) :
  files_turn gid w wk ->
  poll_file_list gid wk = (Ok (Some {| result := Some st |}), w1) ->
  files st = Some fl -> fl <> [] ->
  let n := length fl in
  let wanted :=
    map (fun i => (gid, Z.of_nat i, bool_decide (Z.of_nat i ∈ selected)))
      (seq 0 n) in
  exists w' tail,
    apply_file_selection gid selected w = (Ok tt, w') /\
    trace w' = trace w1 ++ tail /\
    requests tail = map (select_file gid selected) (seq 0 n) ++ [unpause gid] /\
    let taken := omap select_command (answered (net w1) (posts w1) tail) in
    sublist taken wanted /\
    ((forall k t,
         has_result (outcome (net w1 k t "aria2.selectFile")) = true) ->
     taken = wanted /\
     forall (sel0 : gmap Z bool) i,
       selection_after taken sel0 !! i
       = if bool_decide (0 <= i < Z.of_nat n)
         then Some (bool_decide (i ∈ selected)) else sel0 !! i) /\
    forall sel0 : gmap Z bool,
      let sel := selection_after taken sel0 in
      (forall i, sel !! i
                 = if bool_decide (i ∈ map command_index taken)
                   then Some (bool_decide (i ∈ selected)) else sel0 !! i) /\
      (forall i, i ∈ map command_index taken -> 0 <= i < Z.of_nat n) /\
      selection_after taken sel = sel.
Proof.
  intros Ht Hp Hf Hne. cbn zeta.
  pose proof (files_turn_returns gid w wk st w1 fl Ht Hp Hf Hne) as G.
  destruct (apply_file_selection_sends gid selected w)
    as (fl' & w1' & e1 & w' & tail & G' & _ & _ & _ & _ & E & T & R & _ & _
        & Sub & All & _).
  rewrite G in G'. injection G' as <- <-.
  exists w', tail.
  split; [exact E|]. split; [exact (talks_trace _ _ _ T)|]. split; [exact R|].
  set (taken := omap select_command (answered (net w1) (posts w1) tail)) in *.
  set (wanted := map (fun i => (gid, Z.of_nat i, bool_decide (Z.of_nat i ∈ selected)))
                   (seq 0 (length fl))) in *.
  assert (Hflag : forall c, c ∈ taken ->
            c.2 = bool_decide (command_index c ∈ selected)
            /\ 0 <= command_index c < Z.of_nat (length fl)).
  { intros c Hc. apply (elem_of_sublist _ _ _ Hc) in Sub.
    apply elem_of_map in Sub as (i & -> & Hi). apply elem_of_seq in Hi.
    unfold command_index. cbn. split; [reflexivity | lia]. }
  pose proof (selection_after_flags (fun z => bool_decide (z ∈ selected)) taken) as L.
  assert (Lt : forall sel0 i,
             selection_after taken sel0 !! i
             = if bool_decide (i ∈ map command_index taken)
               then Some (bool_decide (i ∈ selected)) else sel0 !! i).
  { intros sel0 i. apply L. intros c Hc. now apply Hflag. }
  split; [exact Sub|]. split.
  - intros H. specialize (All H). split; [exact All|].
    intros sel0 i. rewrite All. unfold wanted.
    exact (selection_after_lookup gid (fun z => bool_decide (z ∈ selected))
             (length fl) sel0 i).
  - intros sel0. cbn zeta. split; [apply Lt|]. split.
    + intros i Hi. apply elem_of_map in Hi as (c & -> & Hc). now apply Hflag.
    + apply map_eq. intros i. rewrite !Lt.
      destruct (bool_decide (i ∈ map command_index taken)); reflexivity.
Qed.

Lemma apply_file_selection_selects_witness :
  exists w' tail,
    apply_file_selection "2089b05ecca3d829" [0; 2; 7] three_files = (Ok tt, w') /\
    requests tail
    = [ ("aria2.selectFile", [AStr "2089b05ecca3d829"; AInt 0; ABool true]);
        ("aria2.selectFile", [AStr "2089b05ecca3d829"; AInt 1; ABool false]);
        ("aria2.selectFile", [AStr "2089b05ecca3d829"; AInt 2; ABool true]);
        unpause "2089b05ecca3d829" ] /\
    omap select_command
      (answered (net three_files) 1 tail)
    = [ ("2089b05ecca3d829", 0, true); ("2089b05ecca3d829", 1, false);
        ("2089b05ecca3d829", 2, true) ].
Proof.
  pose (w0 := printed MsgApplying three_files).
  destruct (apply_file_selection_selects "2089b05ecca3d829" [0; 2; 7] three_files
              w0 (paused_job three_entries)
              (snd (poll_file_list "2089b05ecca3d829" w0)) three_entries)
    as (w' & tail & E & _ & R & _ & All & _).
  - split; [apply rtc_refl | vm_compute; reflexivity].
  - vm_compute. reflexivity.
  - reflexivity.
  - discriminate.
  - exists w', tail. split; [exact E|]. split; [exact R|].
    assert (A : forall (k : nat) (t : Z),
              has_result (outcome (net three_files k t "aria2.selectFile")) = true)
      by (intros k t; reflexivity).
    destruct (All A) as [Hall _]. exact Hall.
Defined.

(** C1 as the specification words it fails: the job has three files, as
    the engine reports once the method has returned, but the list came
    after the fifteen seconds of the wait: no selection command was
    issued and the job was released with all its files. *)
Lemma apply_file_selection_misses_late_list :
  let w' := snd (apply_file_selection "2089b05ecca3d829" [0; 2] late_files) in
  ~ (forall st w1,
       poll_file_list "2089b05ecca3d829" w' = (Ok (Some {| result := Some st |}), w1) ->
       length (omap select_command (requests (trace w')))
       = length (default [] (files st))).
Proof.
  cbn zeta. intros H.
  specialize (H (paused_job three_entries)
                (snd (poll_file_list "2089b05ecca3d829"
                        (snd (apply_file_selection "2089b05ecca3d829" [0; 2] late_files))))).
  assert (P : poll_file_list "2089b05ecca3d829"
                (snd (apply_file_selection "2089b05ecca3d829" [0; 2] late_files))
              = (Ok (Some {| result := Some (paused_job three_entries) |}),
                 snd (poll_file_list "2089b05ecca3d829"
                        (snd (apply_file_selection "2089b05ecca3d829" [0; 2] late_files)))))
    by (vm_compute; reflexivity).
  specialize (H P). vm_compute in H. discriminate H.
Qed.

(** The selection {0, 2} on a job of three files: files 0 and 2 are
    selected, file 1 is not, and the job is released. *)
Example apply_file_selection_0_2 :
  requests (trace (snd (apply_file_selection "2089b05ecca3d829" [0; 2] three_files)))
  = [ poll_files "2089b05ecca3d829";
      ("aria2.selectFile", [AStr "2089b05ecca3d829"; AInt 0; ABool true]);
      ("aria2.selectFile", [AStr "2089b05ecca3d829"; AInt 1; ABool false]);
      ("aria2.selectFile", [AStr "2089b05ecca3d829"; AInt 2; ABool true]);
      unpause "2089b05ecca3d829" ].
Proof. vm_compute. reflexivity. Qed.

(** C5, as amended.  Against an engine whose replies have the form the
    protocol gives them, [apply_file_selection] returns without raising
    whatever the handle and the selection.  The polls of the file list
    begin at least one second apart, each less than fifteen seconds after
    the method was entered, so there are at most fifteen; a poll begun in
    time is carried through with its retries, so that status requests
    leave until 47 seconds after the entry when none waits longer than
    the fifteen seconds of its timeout.  Whether the list came or not,
    and whatever became of the selection commands, the last call is
    [aria2.unpause] on the job and the last request that is sent is one
    of its requests; when the engine answers the requests to unpause with
    a result, that is the last command the job takes. *)
Theorem apply_file_selection_unpauses (gid : string) (selected : list Z)
    (w : World) :
  exists w' evs,
    apply_file_selection gid selected w = (Ok tt, w') /\
    trace w' = trace w ++ evs /\
    last (requests evs) = Some (unpause gid) /\
    last (sent_requests evs) = Some (unpause gid) /\
    ((forall k t,
         has_result (outcome (net w k t "aria2.unpause")) = true) ->
     last (answered (net w) (posts w) evs) = Some (unpause gid)) /\
    let polls := call_times "aria2.tellStatus" evs in
    (length polls <= 15)%nat /\
    paced 1000 (now w) polls /\
    Forall (fun t => t < now w + 15000) polls /\
    ((forall k t, Z.of_N (latency (net w k t "aria2.tellStatus")) <= 15000) ->
     Forall (fun t => t < now w + 47000) (post_times "aria2.tellStatus" evs)).
Proof.
  destruct (apply_file_selection_sends gid selected w)
    as (fl & w1 & e1 & w' & tail & _ & T1 & P1 & _ & B1 & E & T & _ & Q & L
        & _ & _ & AllU).
  destruct (apply_file_selection_run gid selected w)
    as (fl' & w1' & w'' & evs & k & _ & E2 & T' & R' & _ & P & B).
  rewrite E in E2. injection E2 as <-.
  set (e0 := EvPrint (now w) MsgApplying).
  assert (Hevs : evs = [e0] ++ e1 ++ tail).
  { apply (app_inv_head (trace w)). rewrite <- (talks_trace _ _ _ T').
    rewrite (talks_trace _ _ _ T), (talks_trace _ _ _ T1).
    cbn [trace printed log]. now rewrite <- !app_assoc. }
  assert (N1 : net w1 = net w) by exact (talks_net _ _ _ T1).
  exists w', evs.
  split; [exact E|]. split; [exact (talks_trace _ _ _ T')|].
  split; [rewrite R', !app_assoc; apply last_snoc|].
  split; [rewrite Hevs, !sent_requests_app, !last_app, L; reflexivity|].
  split.
  { intros H. rewrite Hevs, !answered_app, !last_app.
    replace (posts w + length (sent_requests [e0]) + length (sent_requests e1))%nat
      with (posts w1) by (rewrite P1; cbn; lia).
    rewrite <- N1 in H |- *. now rewrite (AllU H). }
  cbn zeta.
  split; [apply (paced_length 1000 (now w)); [lia | exact P | exact B]|].
  split; [exact P|]. split; [exact B|].
  intros Hl. rewrite Hevs, !post_times_app, Q, app_nil_r.
  change (post_times "aria2.tellStatus" [e0]) with (@nil Z). cbn [app].
  eapply Forall_impl; [exact (B1 15000 Hl)|]. cbn. intros t Ht. lia.
Qed.

(** C5 as the specification words it fails: against an engine that lets
    every request wait its fifteen seconds, requests for the file list
    leave sixteen and thirty-two seconds after the method was entered. *)
Lemma apply_file_selection_polls_after_wait :
  ~ Forall (fun t => t - now hanging < 15 * 1000)
      (post_times "aria2.tellStatus"
         (trace (snd (apply_file_selection "2089b05ecca3d829" [0; 2] hanging)))).
Proof.
  assert (E : post_times "aria2.tellStatus"
                (trace (snd (apply_file_selection "2089b05ecca3d829" [0; 2] hanging)))
              = [0; 16000; 32000]) by (vm_compute; reflexivity).
  rewrite E. intros H.
  inversion H as [|? ? _ H2]; subst. inversion H2 as [|? ? H3 _]; subst.
  cbn in H3. lia.
Qed.

(** ** The session monitor *)

Lemma endings_app a b : endings (a ++ b) = endings a ++ endings b.
Proof. apply omap_app. Qed.

Lemma progress_lines_app a b :
  progress_lines (a ++ b) = progress_lines a ++ progress_lines b.
Proof. apply omap_app. Qed.

Lemma node_at_fs p w w' : fs w' = fs w -> node_at p w' = node_at p w.
Proof. unfold node_at. now intros ->. Qed.

Lemma path_exists_fs p w w' : fs w' = fs w -> path_exists p w' = path_exists p w.
Proof. intros H. unfold path_exists. now rewrite (node_at_fs p w w' H). Qed.

Lemma downloaded_paths_fs fl w w' :
  fs w' = fs w -> downloaded_paths fl w' = downloaded_paths fl w.
Proof.
  intros H. induction fl as [|f fl IH]; cbn [downloaded_paths]; [reflexivity|].
  destruct (path f) as [p|]; [|exact IH].
  rewrite IH, (path_exists_fs p w w' H). reflexivity.
Qed.

(** The artifacts are the reported paths that exist, in the order of the
    report. *)
Lemma downloaded_paths_filter fl w :
  downloaded_paths fl w
  = List.filter (fun p => path_exists p w) (omap path fl).
Proof.
  induction fl as [|f fl IH]; cbn -[path_exists]; [reflexivity|].
  destruct (path f) as [p|]; cbn -[path_exists]; [|exact IH].
  rewrite IH. destruct (String.eqb p "") eqn:E; [|reflexivity].
  assert (X : path_exists p w = false) by (unfold path_exists, node_at; now rewrite E).
  now rewrite X.
Qed.

(** One reaction of the monitor to a status, written out. *)
Lemma monitor_react_status name last st w :
  let state := default "" (status st) in
  let completed := default 0 (completedLength st) in
  let total := default 0 (totalLength st) in
  let speed := default 0 (downloadSpeed st) in
  let shown := (5000 <=? now w - last) && (0 <? total) in
  let w2 := if shown
            then printed (MsgProgress (take_str 40 name) completed total
                                 speed (eta_of completed total speed)) w
            else w in
  monitor_react name last (Some {| result := Some st |}) w =
    if String.eqb state "complete"
    then (Ok (Return (downloaded_paths (default [] (files st)) w)),
          printed (MsgCompleted name) w2)
    else if String.eqb state "error" || String.eqb state "removed"
    then (Ok (Return []), printed (MsgFailed name) w2)
    else (Ok (Continue (if shown then now w else last)), nap w2).
Proof.
  cbn zeta. unfold monitor_react, bind, time_time, print, ret, collect_downloaded,
    time_sleep, nap.
  destruct ((5000 <=? now w - last) && (0 <? default 0 (totalLength st)));
    destruct (String.eqb (default "" (status st)) "complete");
    destruct (String.eqb (default "" (status st)) "error"
              || String.eqb (default "" (status st)) "removed");
    try reflexivity;
    do 3 f_equal; apply downloaded_paths_fs; reflexivity.
Qed.

Lemma monitor_react_no_status name last (r : option (Reply Status)) w :
  result_of r = None ->
  monitor_react name last r w = (Ok (Continue last), nap w).
Proof. destruct r as [[[st|]]|]; [discriminate | reflexivity | reflexivity]. Qed.

Lemma monitor_body_poll gid name last w :
  exists r w1 e1,
    poll_status gid w = (Ok r, w1) /\
    talks w w1 (EvCall (now w) "aria2.tellStatus" [AStr gid; status_keys] :: e1) /\
    Forall (fun e => channel_event e = true) e1 /\
    monitor_body gid name last w = monitor_react name last r w1.
Proof.
  unfold monitor_body, poll_status, bind.
  destruct (aria2_call_channel "aria2.tellStatus" [AStr gid; status_keys] w)
    as (r & w1 & e1 & E & T & Q).
  exists r, w1, e1. rewrite E. auto.
Qed.

(** A reaction that goes round again takes two seconds at least and prints
    no ending. *)
Lemma monitor_react_talks name last r w :
  exists s w' evs,
    monitor_react name last r w = (Ok s, w') /\
    talks w w' evs /\ calls evs = [] /\
    match s with
    | Continue _ => now w + 2000 <= now w' /\ endings evs = []
    | Return d =>
        exists st, r = Some {| result := Some st |} /\ is_terminal st = true /\
        ((d = downloaded_paths (default [] (files st)) w /\
          endings evs = [MsgCompleted name]) \/
         (d = [] /\ endings evs = [MsgFailed name]))
    end.
Proof.
  destruct r as [[[st|]]|].
  2,3: (eexists _, _, [EvSleep 2]; split; [reflexivity|];
        split; [apply (talks_sleep _ 2); lia|]; split; [reflexivity|];
        cbn; split; [lia | reflexivity]).
  rewrite monitor_react_status. cbn zeta.
  set (msg := MsgProgress _ _ _ _ _).
  destruct ((5000 <=? now w - last) && (0 <? default 0 (totalLength st)));
    destruct (String.eqb (default "" (status st)) "complete") eqn:Ec;
    destruct (String.eqb (default "" (status st)) "error") eqn:Ee;
    destruct (String.eqb (default "" (status st)) "removed") eqn:Er; cbn [orb];
    eexists _, _, _; (split; [reflexivity|]);
    (split; [split; cbn; try reflexivity; try lia;
             rewrite <- ?app_assoc; reflexivity|]);
    (split; [reflexivity|]); cbn;
    try (split; [lia | reflexivity]);
    exists st; (split; [reflexivity|]);
    (split; [unfold is_terminal; rewrite Ec, Ee, Er; reflexivity|]); auto.
Qed.

Lemma monitor_loop_turn gid name timeout start fuel last w last' w' :
  turn gid name timeout start (last, w) (last', w') ->
  monitor_loop (S fuel) gid name timeout start last w
  = monitor_loop fuel gid name timeout start last' w'.
Proof.
  inversion 1 as [? ? ? ? G B]; subst. cbn [monitor_loop].
  apply Z.ltb_lt in G. rewrite G. unfold bind. now rewrite B.
Qed.

(** A turn that goes round again is one poll, takes two seconds at least
    and prints no ending. *)
Lemma turn_talks gid name timeout start last w last' w' :
  turn gid name timeout start (last, w) (last', w') ->
  exists evs,
    talks w w' evs /\ endings evs = [] /\ now w + 2000 <= now w' /\
    call_times "aria2.tellStatus" evs = [now w].
Proof.
  inversion 1 as [? ? ? ? G B]; subst.
  destruct (monitor_body_poll gid name last w) as (r & w1 & e1 & _ & T1 & Q1 & E).
  rewrite E in B.
  destruct (monitor_react_talks name last r w1) as (s & w2 & e2 & E2 & T2 & Q2 & Hs).
  rewrite E2 in B. injection B as -> ->.
  destruct Hs as [Ht He].
  exists ((EvCall (now w) "aria2.tellStatus" [AStr gid; status_keys] :: e1) ++ e2).
  split; [eapply talks_trans; eassumption|].
  split; [|split].
  - rewrite endings_app, He, app_nil_r.
    change (endings (EvCall (now w) "aria2.tellStatus" [AStr gid; status_keys] :: e1))
      with (endings e1).
    apply (channel_endings e1 Q1).
  - pose proof (talks_now _ _ _ T1). lia.
  - rewrite call_times_app, call_times_call, (call_times_quiet _ e2 Q2),
      (call_times_quiet _ e1 (channel_calls e1 Q1)). reflexivity.
Qed.

(** The loop, started with fuel for the time that is left, comes to each
    of its turns with fuel for the time that is left then. *)
Lemma turns_loop gid name timeout start x y :
  rtc (turn gid name timeout start) x y ->
  forall fuel,
    timeout * 1000 - (now x.2 - start) <= Z.of_nat fuel * 1000 ->
    exists fuel' evs,
      monitor_loop fuel gid name timeout start x.1 x.2
      = monitor_loop fuel' gid name timeout start y.1 y.2 /\
      timeout * 1000 - (now y.2 - start) <= Z.of_nat fuel' * 1000 /\
      talks x.2 y.2 evs /\ endings evs = [].
Proof.
  induction 1 as [x|x y z Hxy Hyz IH]; intros fuel Hf.
  - exists fuel, []. split; [reflexivity|]. split; [exact Hf|].
    split; [apply talks_refl | reflexivity].
  - destruct x as [lx wx], y as [ly wy].
    destruct (turn_talks _ _ _ _ _ _ _ _ Hxy) as (e1 & T1 & N1 & D1 & _).
    assert (G : now wx - start < timeout * 1000) by (inversion Hxy; assumption).
    destruct fuel as [|fuel]; [cbn in Hf; lia|].
    destruct (IH fuel) as (fuel' & e2 & E & Hf' & T2 & N2); [cbn in *; lia|].
    exists fuel', (e1 ++ e2). cbn [fst snd] in *.
    rewrite (monitor_loop_turn _ _ _ _ _ _ _ _ _ Hxy).
    split; [exact E|]. split; [exact Hf'|].
    split; [eapply talks_trans; eassumption|].
    now rewrite endings_app, N1, N2.
Qed.

(** When the poll of some turn of a session makes the loop return, that
    is what [monitor_download] returns. *)
Lemma session_turn_returns gid name timeout w last wk r w1 d w' :
  session_turn gid name timeout w last wk ->
  poll_status gid wk = (Ok r, w1) ->
  monitor_react name last r w1 = (Ok (Return d), w') ->
  monitor_download gid name timeout w = (Ok d, w') /\
  exists evs, talks w w1 evs /\ endings evs = [].
Proof.
  intros [Hr G] Hp Hd. cbn zeta in Hr.
  set (w0 := printed (MsgMonitoring name) w) in *.
  destruct (turns_loop _ _ _ _ _ _ Hr (Z.to_nat timeout))
    as (fuel' & evs & E & Hf & T & N); [cbn [fst snd]; lia|].
  cbn [fst snd] in *.
  destruct (monitor_body_poll gid name last wk) as (r' & w1' & e1 & Hp' & T1 & Q1 & B).
  rewrite Hp in Hp'. injection Hp' as <- <-.
  split.
  - unfold monitor_download, bind, print, time_time. fold w0. rewrite E.
    destruct fuel' as [|fuel']; [lia|].
    cbn [monitor_loop]. apply Z.ltb_lt in G. rewrite G.
    unfold bind. rewrite B, Hd. reflexivity.
  - eexists. split.
    + eapply talks_trans; [|exact T1].
      eapply talks_trans; [apply (talks_print w (MsgMonitoring name)) | exact T].
    + rewrite !endings_app, N.
      change (endings (EvCall (now wk) "aria2.tellStatus" [AStr gid; status_keys] :: e1))
        with (endings e1).
      rewrite (channel_endings e1 Q1). reflexivity.
Qed.

(** C3.  When the poll of some turn of a session is answered with the
    status [complete], [monitor_download] returns the reported paths that
    are on disk then, in the order of the report; the others are left out
    and nothing is raised.  It prints "completed" and no other ending,
    and after that poll it makes no call and no request: it only
    prints. *)
Theorem monitor_download_completed (gid name : string) (timeout : Z)
    (w : World) (last : Z) (wk : World) (st : Status) (w1 : World) :
  session_turn gid name timeout w last wk ->
  poll_status gid wk = (Ok (Some {| result := Some st |}), w1) ->
  status st = Some "complete" ->
  exists w' evs tail,
    monitor_download gid name timeout w
    = (Ok (List.filter (fun p => path_exists p w1)
             (omap path (default [] (files st)))), w') /\
    trace w' = trace w ++ evs /\ endings evs = [MsgCompleted name] /\
    trace w' = trace w1 ++ tail /\ calls tail = [] /\
    posts w' = posts w1 /\ now w' = now w1 /\ fs w' = fs w1.
Proof.
  intros Hs Hp Hc.
  pose proof (monitor_react_status name last st w1) as R. cbn zeta in R.
  rewrite Hc in R. cbn -[downloaded_paths log nap take_str eta_of Z.leb Z.ltb Z.sub] in R.
  rewrite <- downloaded_paths_filter.
  match type of R with _ = (_, ?w2) => set (w' := w2) in * end.
  destruct (session_turn_returns _ _ _ _ _ _ _ _ _ _ Hs Hp R) as [E (evs & T & N)].
  assert (X : exists tail, trace w' = trace w1 ++ tail /\ calls tail = [] /\
                           endings tail = [MsgCompleted name] /\
                           posts w' = posts w1 /\ now w' = now w1 /\ fs w' = fs w1).
  { subst w'.
    destruct ((5000 <=? now w1 - last) && (0 <? default 0 (totalLength st)));
      eexists; cbn; rewrite <- ?app_assoc; repeat split. }
  destruct X as (tail & Ht & Hcalls & He & Hposts & Hnow & Hfs).
  exists w', (evs ++ tail), tail.
  split; [exact E|].
  split; [rewrite Ht, (talks_trace _ _ _ T); now rewrite app_assoc|].
  split; [now rewrite endings_app, N, He|]. auto.
Qed.

Lemma monitor_download_completed_witness :
  exists w',
    monitor_download "2089b05ecca3d829" "film" 600 finished = (Ok [film], w').
Proof.
  pose (w0 := printed (MsgMonitoring "film") finished).
  destruct (monitor_download_completed "2089b05ecca3d829" "film" 600 finished
              (now w0) w0 (report "complete" 0)
              (snd (poll_status "2089b05ecca3d829" w0)))
    as (w' & evs & tail & E & _).
  - split; [apply rtc_refl | vm_compute; reflexivity].
  - vm_compute. reflexivity.
  - reflexivity.
  - exists w'. exact E.
Defined.

(** C6.  When the poll of some turn of a session is answered with the
    status [error] or [removed], [monitor_download] returns the empty
    list in that same turn: it prints "failed" and no other ending, and
    after that poll it makes no call, no request and no sleep. *)
Theorem monitor_download_failed (gid name : string) (timeout : Z)
    (w : World) (last : Z) (wk : World) (st : Status) (w1 : World) :
  session_turn gid name timeout w last wk ->
  poll_status gid wk = (Ok (Some {| result := Some st |}), w1) ->
  status st = Some "error" \/ status st = Some "removed" ->
  exists w' evs tail,
    monitor_download gid name timeout w = (Ok [], w') /\
    trace w' = trace w ++ evs /\ endings evs = [MsgFailed name] /\
    trace w' = trace w1 ++ tail /\ calls tail = [] /\
    posts w' = posts w1 /\ now w' = now w1.
Proof.
  intros Hs Hp Hc.
  pose proof (monitor_react_status name last st w1) as R. cbn zeta in R.
  assert (R' : exists w', monitor_react name last (Some {| result := Some st |}) w1
                          = (Ok (Return []), w') /\
               exists tail, trace w' = trace w1 ++ tail /\ calls tail = [] /\
                            endings tail = [MsgFailed name] /\
                            posts w' = posts w1 /\ now w' = now w1).
  { destruct Hc as [Hc|Hc]; rewrite Hc in R;
      cbn -[downloaded_paths log nap take_str eta_of Z.leb Z.ltb Z.sub] in R;
      (eexists; split; [exact R|]);
      destruct ((5000 <=? now w1 - last) && (0 <? default 0 (totalLength st)));
      eexists; cbn; rewrite <- ?app_assoc; repeat split. }
  destruct R' as (w' & R' & tail & Ht & Hcalls & He & Hposts & Hnow).
  destruct (session_turn_returns _ _ _ _ _ _ _ _ _ _ Hs Hp R') as [E (evs & T & N)].
  exists w', (evs ++ tail), tail.
  split; [exact E|].
  split; [rewrite Ht, (talks_trace _ _ _ T); now rewrite app_assoc|].
  split; [now rewrite endings_app, N, He|]. auto.
Qed.

Lemma monitor_download_failed_witness :
  exists w', monitor_download "2089b05ecca3d829" "film" 600 broken = (Ok [], w').
Proof.
  pose (w0 := printed (MsgMonitoring "film") broken).
  destruct (monitor_download_failed "2089b05ecca3d829" "film" 600 broken
              (now w0) w0 (report "error" 0)
              (snd (poll_status "2089b05ecca3d829" w0)))
    as (w' & evs & tail & E & _).
  - split; [apply rtc_refl | vm_compute; reflexivity].
  - vm_compute. reflexivity.
  - left. reflexivity.
  - exists w'. exact E.
Defined.

Lemma monitor_loop_times_out gid name timeout (w : World)
    (H : forall last wk, session_turn gid name timeout w last wk ->
                         poll_terminal gid wk = false) :
  let w0 := printed (MsgMonitoring name) w in
  forall fuel last wk,
    rtc (turn gid name timeout (now w0)) (now w0, w0) (last, wk) ->
    timeout * 1000 - (now wk - now w0) <= Z.of_nat fuel * 1000 ->
    exists w' evs,
      monitor_loop fuel gid name timeout (now w0) last wk = (Ok [], w') /\
      talks wk w' evs /\ endings evs = [MsgTimeout name] /\
      Forall (fun t => t - now w0 < timeout * 1000)
        (call_times "aria2.tellStatus" evs) /\
      paced 2000 (now wk) (call_times "aria2.tellStatus" evs).
Proof.
  intros w0. assert (W0 : now w0 = now w) by reflexivity.
  induction fuel as [|fuel IH]; intros last wk Hreach Hf; cbn [monitor_loop];
    destruct (now wk - now w0 <? timeout * 1000) eqn:G.
  1: apply Z.ltb_lt in G; lia.
  1,3: (exists (printed (MsgTimeout name) wk), [EvPrint (now wk) (MsgTimeout name)];
        split; [reflexivity|]; split; [apply talks_print|];
        split; [reflexivity|]; split; constructor).
  apply Z.ltb_lt in G. unfold bind.
  destruct (monitor_body_poll gid name last wk) as (r & w1 & e1 & Hp & T1 & Q1 & B).
  destruct (monitor_react_talks name last r w1) as (s & w2 & e2 & E2 & T2 & Q2 & Hs).
  rewrite B, E2.
  pose proof (H last wk (conj Hreach G)) as Hnt.
  unfold poll_terminal in Hnt. rewrite Hp in Hnt. cbn [fst] in Hnt.
  destruct s as [d|last'].
  { destruct Hs as (st & -> & Ht & _). cbn in Hnt. congruence. }
  destruct Hs as [Hn He].
  pose proof (talks_trans _ _ _ _ _ T1 T2) as T12.
  destruct (IH last' w2) as (w' & e3 & E3 & T3 & N3 & B3 & P3).
  { eapply rtc_r; [exact Hreach|]. constructor; [exact G|]. now rewrite B. }
  { pose proof (talks_now _ _ _ T1). lia. }
  exists w', ((EvCall (now wk) "aria2.tellStatus" [AStr gid; status_keys] :: e1)
              ++ e2 ++ e3).
  split; [exact E3|].
  split; [rewrite app_assoc; eapply talks_trans; eassumption|].
  rewrite !endings_app, !call_times_app, call_times_call, He, N3,
    (call_times_quiet _ e2 Q2), (call_times_quiet _ e1 (channel_calls e1 Q1)).
  change (endings (EvCall (now wk) "aria2.tellStatus" [AStr gid; status_keys] :: e1))
    with (endings e1).
  rewrite (channel_endings e1 Q1). cbn.
  split; [reflexivity|]. split; [constructor; [lia | exact B3]|].
  split; [lia|]. eapply paced_weaken; [|exact P3].
  pose proof (talks_now _ _ _ T1). lia.
Qed.

(** C2, as amended.  When no poll that the session begins before the
    timeout has elapsed comes back with a terminal status,
    [monitor_download] returns the empty list and prints "timeout" and no
    other ending; its polls begin two seconds apart at least and each
    before the timeout has elapsed, whatever the engine would answer
    later. *)
Theorem monitor_download_times_out (gid name : string) (timeout : Z)
    (w : World) :
  (forall last wk, session_turn gid name timeout w last wk ->
                   poll_terminal gid wk = false) ->
  exists w' evs,
    monitor_download gid name timeout w = (Ok [], w') /\
    trace w' = trace w ++ evs /\ endings evs = [MsgTimeout name] /\
    Forall (fun t => t - now w < timeout * 1000)
      (call_times "aria2.tellStatus" evs) /\
    paced 2000 (now w) (call_times "aria2.tellStatus" evs).
Proof.
  intros H. unfold monitor_download, bind, print, time_time.
  set (w0 := printed (MsgMonitoring name) w).
  destruct (monitor_loop_times_out gid name timeout w H
              (Z.to_nat timeout) (now w0) w0)
    as (w' & evs & E & T & N & B & P); [apply rtc_refl | fold w0; lia |].
  exists w', ([EvPrint (now w) (MsgMonitoring name)] ++ evs).
  split; [exact E|].
  split; [exact (talks_trace _ _ _ (talks_trans _ _ _ _ _ (talks_print w _) T))|].
  split; [exact N|]. split; [exact B | exact P].
Qed.

(** The turns of a session see the engine the session started with. *)
Lemma session_turn_net gid name timeout w last wk :
  session_turn gid name timeout w last wk ->
  net wk = net w /\ now wk - now w < timeout * 1000.
Proof.
  intros [Hr G]. cbn zeta in Hr. split; [|exact G].
  destruct (turns_loop _ _ _ _ _ _ Hr (Z.to_nat timeout))
    as (_ & evs & _ & _ & T & _); [cbn [fst snd]; lia|].
  exact (talks_net _ _ _ T).
Qed.

Lemma slow_never_terminal wk :
  net wk = net slow -> now wk - now slow < 600 * 1000 ->
  poll_terminal "2089b05ecca3d829" wk = false.
Proof.
  intros Hnet Hnow. unfold poll_terminal, poll_status.
  rewrite (aria2_call_attempts "aria2.tellStatus"
             [AStr "2089b05ecca3d829"; status_keys] wk).
  cbn zeta. unfold attempt_at at 1. cbn [net log posts now]. rewrite Hnet.
  cbn [net slow world_of].
  assert (L : (now wk <? 600000) = true) by (apply Z.ltb_lt; cbn in Hnow; lia).
  rewrite L. reflexivity.
Qed.

Lemma monitor_download_times_out_witness :
  exists w',
    monitor_download "2089b05ecca3d829" "film" 600 slow = (Ok [], w').
Proof.
  destruct (monitor_download_times_out "2089b05ecca3d829" "film" 600 slow)
    as (w' & evs & E & _).
  - intros last wk Hs.
    destruct (session_turn_net _ _ _ _ _ _ Hs) as [Hnet Hnow].
    exact (slow_never_terminal wk Hnet Hnow).
  - exists w'. exact E.
Defined.

(** C2 as the specification words it fails: no request sent before the ten
    minutes are over is answered with a terminal status, yet the poll
    begun at 9 min 58 s waits, retries after the ten minutes, is told
    [complete] and the monitor returns the file. *)
Lemma monitor_download_returns_after_timeout :
  ~ ((forall k t, t - now straddling < 600 * 1000 ->
                  observes_terminal (net straddling k t "aria2.tellStatus") = false) ->
     fst (monitor_download "2089b05ecca3d829" "film" 600 straddling) = Ok []).
Proof.
  intros H.
  assert (X : fst (monitor_download "2089b05ecca3d829" "film" 600 straddling)
              = Ok [film]) by (vm_compute; reflexivity).
  rewrite X in H. 
  assert (Y : Ok [film] = Ok (@nil string)); [|discriminate Y].
  apply H. intros k t Ht. cbn in Ht. cbn [net straddling world_of].
  destruct (t <? 598000); [reflexivity|].
  destruct (t <? 600000) eqn:E; [reflexivity|].
  apply Z.ltb_ge in E. lia.
Qed.

Lemma progress_times_app a b :
  progress_times (a ++ b) = progress_times a ++ progress_times b.
Proof. apply omap_app. Qed.

Lemma channel_progress_times evs :
  Forall (fun e => channel_event e = true) evs -> progress_times evs = [].
Proof.
  induction 1 as [|e evs He _ IH]; [reflexivity|].
  destruct e as [| | |t m| |]; try discriminate; try exact IH.
  destruct m; try discriminate; exact IH.
Qed.

Lemma eta_of_rule name completed total speed :
  0 < total ->
  eta_rule (MsgProgress name completed total speed (eta_of completed total speed)).
Proof.
  intros Ht. unfold eta_rule, eta_of. split; [exact Ht|].
  destruct (Z.ltb_spec 0 speed); split; intros; try reflexivity; lia.
Qed.

(** What a reaction prints as progress: a line that follows the rule of
    the ETA, five seconds at least after the last one, and then the loop
    remembers when. *)
Lemma monitor_react_progress name last r w :
  exists s w' evs,
    monitor_react name last r w = (Ok s, w') /\
    trace w' = trace w ++ evs /\
    Forall eta_rule (progress_lines evs) /\
    match s with
    | Continue last' =>
        forall ts, paced 5000 (last' + 5000) ts ->
                   paced 5000 (last + 5000) (progress_times evs ++ ts)
    | Return _ => paced 5000 (last + 5000) (progress_times evs)
    end.
Proof.
  destruct r as [[[st|]]|].
  2,3: (eexists _, _, [EvSleep 2]; split; [reflexivity|];
        split; [reflexivity|]; split; [constructor|]; intros ts Hts; exact Hts).
  rewrite monitor_react_status. cbn zeta.
  destruct ((5000 <=? now w - last) && (0 <? default 0 (totalLength st))) eqn:G;
    [apply andb_prop in G as [G1 G2]; apply Z.leb_le in G1; apply Z.ltb_lt in G2|];
    destruct (String.eqb (default "" (status st)) "complete");
    destruct (String.eqb (default "" (status st)) "error"
              || String.eqb (default "" (status st)) "removed");
    eexists _, _, _; (split; [reflexivity|]);
    (split; [unfold printed, nap; cbn [trace log advance now];
             rewrite <- ?app_assoc; cbn [app]; try reflexivity;
             symmetry; apply app_nil_r |]);
    (split;
     [ cbn; first [ constructor; [apply eta_of_rule; exact G2 | constructor]
                  | constructor ]
     | cbn; first [ intros ts Hts; first [exact Hts | split; [lia | exact Hts]]
                  | split; [lia | exact I]
                  | exact I ] ]).
Qed.

(** Whatever the engine of the model answers, the loop of the monitor
    returns; it
    prints one ending; its progress lines follow the rule of the ETA and
    are five seconds apart at least. *)
Lemma monitor_loop_runs gid name timeout start :
  forall fuel last wk,
    timeout * 1000 - (now wk - start) <= Z.of_nat fuel * 1000 ->
    exists d w' evs,
      monitor_loop fuel gid name timeout start last wk = (Ok d, w') /\
      talks wk w' evs /\ length (endings evs) = 1%nat /\
      Forall eta_rule (progress_lines evs) /\
      paced 5000 (last + 5000) (progress_times evs).
Proof.
  induction fuel as [|fuel IH]; intros last wk Hf; cbn [monitor_loop];
    destruct (now wk - start <? timeout * 1000) eqn:G.
  1: apply Z.ltb_lt in G; lia.
  1,3: (exists [], (printed (MsgTimeout name) wk), [EvPrint (now wk) (MsgTimeout name)];
        split; [reflexivity|]; split; [apply talks_print|];
        split; [reflexivity|]; split; constructor).
  apply Z.ltb_lt in G. unfold bind.
  destruct (monitor_body_poll gid name last wk) as (r & w1 & e1 & Hp & T1 & Q1 & B).
  destruct (monitor_react_talks name last r w1) as (s & w2 & e2 & E2 & T2 & Q2 & Hs).
  destruct (monitor_react_progress name last r w1) as (s' & w2' & e2' & E2' & Tr & Fe & Hp').
  rewrite E2 in E2'. injection E2' as <- <-.
  assert (e2' = e2) as ->
    by (apply (app_inv_head (trace w1)); rewrite <- Tr; apply (talks_trace _ _ _ T2)).
  rewrite B, E2.
  pose proof (talks_trans _ _ _ _ _ T1 T2) as T12.
  set (call := EvCall (now wk) "aria2.tellStatus" [AStr gid; status_keys]) in *.
  assert (N1 : endings (call :: e1) = []) by exact (channel_endings e1 Q1).
  assert (L1 : progress_lines (call :: e1) = []) by exact (channel_progress e1 Q1).
  assert (K1 : progress_times (call :: e1) = []) by exact (channel_progress_times e1 Q1).
  destruct s as [d|last'].
  - exists d, w2, ((call :: e1) ++ e2).
    split; [reflexivity|]. split; [exact T12|].
    rewrite endings_app, progress_lines_app, progress_times_app, N1, L1, K1.
    cbn [app]. split; [|split; assumption].
    destruct Hs as (st & _ & _ & [[_ ->] | [_ ->]]); reflexivity.
  - destruct Hs as [Hn He].
    destruct (IH last' w2) as (d & w' & e3 & E3 & T3 & N3 & F3 & P3).
    { pose proof (talks_now _ _ _ T1). lia. }
    exists d, w', (((call :: e1) ++ e2) ++ e3).
    split; [exact E3|]. split; [eapply talks_trans; eassumption|].
    rewrite !endings_app, !progress_lines_app, !progress_times_app,
      N1, L1, K1, He. cbn [app].
    split; [exact N3|]. split; [apply Forall_app; split; assumption|].
    apply Hp'. exact P3.
Qed.

(** The loop begins with the print of the timeout, which ends it, or
    with a poll. *)
Lemma monitor_loop_begins gid name timeout start fuel last wk :
  timeout * 1000 - (now wk - start) <= Z.of_nat fuel * 1000 ->
  exists d w' evs,
    monitor_loop fuel gid name timeout start last wk = (Ok d, w') /\
    trace w' = trace wk ++ evs /\
    (evs = [EvPrint (now wk) (MsgTimeout name)]
     \/ exists l, evs = EvCall (now wk) "aria2.tellStatus" [AStr gid; status_keys] :: l).
Proof.
  intros Hf.
  destruct (monitor_loop_runs gid name timeout start fuel last wk Hf)
    as (d & w' & evs & E & T & _).
  exists d, w', evs. split; [exact E|]. split; [exact (talks_trace _ _ _ T)|].
  pose proof (talks_trace _ _ _ T) as Tr.
  destruct fuel as [|fuel]; cbn [monitor_loop] in E;
    destruct (Z.ltb_spec (now wk - start) (timeout * 1000)) as [G|G];
    try (cbn in Hf; lia).
  1,3: (left; injection E as _ <-; apply (app_inv_head (trace wk));
        rewrite <- Tr; reflexivity).
  right. unfold bind in E.
  destruct (monitor_body_poll gid name last wk) as (r & w1 & e1 & _ & T1 & _ & B).
  rewrite B in E.
  destruct (monitor_react_talks name last r w1) as (s & w2 & e2 & E2 & T2 & _).
  rewrite E2 in E.
  assert (X : exists e3, trace w' = trace w2 ++ e3).
  { destruct s as [d'|last'].
    - injection E as _ <-. exists []. now rewrite app_nil_r.
    - destruct (monitor_loop_runs gid name timeout start fuel last' w2)
        as (d3 & w3 & e3 & E3 & T3 & _).
      { pose proof (talks_now _ _ _ T1). pose proof (talks_now _ _ _ T2).
        assert (now wk + 1000 <= now w2); [|lia].
        destruct (monitor_react_talks name last r w1) as (s' & w2' & e2' & E2' & _ & _ & Hs).
        rewrite E2 in E2'. injection E2' as <- <-. destruct Hs as [Hs _]. lia. }
      rewrite E3 in E. injection E as _ <-. exists e3.
      exact (talks_trace _ _ _ T3). }
  destruct X as (e3 & X).
  exists (e1 ++ e2 ++ e3). apply (app_inv_head (trace wk)). rewrite <- Tr, X.
  rewrite (talks_trace _ _ _ T2), (talks_trace _ _ _ T1).
  now rewrite <- !app_assoc.
Qed.

(** C9, as amended.  When the poll of some turn of a session is answered
    with a status, the monitor prints a progress line right after it
    exactly when five seconds at least have passed since the last line
    (since the start, for the first one) and the total of the status is
    positive; nothing else of that turn is a progress line.  The line
    carries the completed bytes, the total and the rate of that status,
    and as ETA the remaining bytes over [max(rate, 1)], rounded down,
    when the rate is positive, and zero when it is not.  Over the whole
    session the lines are five seconds apart at least and each follows
    this rule. *)
Theorem monitor_download_progress (gid name : string) (timeout : Z)
    (w : World) (last : Z) (wk : World) (st : Status) (w1 : World) :
  session_turn gid name timeout w last wk ->
  poll_status gid wk = (Ok (Some {| result := Some st |}), w1) ->
  let completed := default 0 (completedLength st) in
  let total := default 0 (totalLength st) in
  let speed := default 0 (downloadSpeed st) in
  let eta := if 0 <? speed then (total - completed) / Z.max speed 1 else 0 in
  let due := (5000 <=? now w1 - last) && (0 <? total) in
  exists d w' evs here later,
    monitor_download gid name timeout w = (Ok d, w') /\
    trace w' = trace w ++ evs /\
    Forall eta_rule (progress_lines evs) /\
    paced 5000 (now w + 5000) (progress_times evs) /\
    trace w' = trace w1 ++ here ++ later /\
    calls here = [] /\
    (later = [] \/
     exists t l, later = EvCall t "aria2.tellStatus" [AStr gid; status_keys] :: l) /\
    progress_lines here
    = (if due
       then [MsgProgress (take_str 40 name) completed total speed eta]
       else []) /\
    progress_times here = (if due then [now w1] else []).
Proof.
  intros Hs Hp. cbn zeta.
  set (w0 := printed (MsgMonitoring name) w).
  assert (Whole : exists d w' evs,
             monitor_download gid name timeout w = (Ok d, w') /\
             trace w' = trace w ++ evs /\
             Forall eta_rule (progress_lines evs) /\
             paced 5000 (now w + 5000) (progress_times evs)).
  { unfold monitor_download, bind, print, time_time. fold w0.
    destruct (monitor_loop_runs gid name timeout (now w0) (Z.to_nat timeout)
                (now w0) w0) as (d & w' & evs & E & T & _ & F & P); [lia|].
    exists d, w', ([EvPrint (now w) (MsgMonitoring name)] ++ evs).
    split; [exact E|].
    split; [exact (talks_trace _ _ _ (talks_trans _ _ _ _ _ (talks_print w _) T))|].
    split; [exact F | exact P]. }
  destruct Whole as (d & w' & evs & E & Tr & F & P).
  exists d, w', evs.
  destruct Hs as [Hr G]. cbn zeta in Hr, G. fold w0 in Hr, G.
  destruct (turns_loop _ _ _ _ _ _ Hr (Z.to_nat timeout))
    as (fuel' & evs0 & E0 & Hf & _); [cbn [fst snd]; lia|].
  cbn [fst snd] in *.
  assert (E' : monitor_loop fuel' gid name timeout (now w0) last wk = (Ok d, w')).
  { rewrite <- E0. exact E. }
  destruct fuel' as [|fuel']; [lia|].
  cbn [monitor_loop] in E'. apply Z.ltb_lt in G. rewrite G in E'.
  apply Z.ltb_lt in G. unfold bind in E'.
  destruct (monitor_body_poll gid name last wk) as (r & w1' & e1 & Hp' & T1 & _ & B).
  rewrite Hp in Hp'. injection Hp' as <- <-.
  rewrite B, monitor_react_status in E'. cbn zeta in E'.
  fold (eta_of (default 0 (completedLength st)) (default 0 (totalLength st))
          (default 0 (downloadSpeed st))).
  set (line := MsgProgress (take_str 40 name) (default 0 (completedLength st))
                 (default 0 (totalLength st)) (default 0 (downloadSpeed st))
                 (eta_of (default 0 (completedLength st))
                    (default 0 (totalLength st))
                    (default 0 (downloadSpeed st)))) in *.
  set (due := (5000 <=? now w1 - last) && (0 <? default 0 (totalLength st))) in *.
  set (w2 := if due then printed line w1 else w1) in *.
  set (shown := if due then [EvPrint (now w1) line] else []).
  assert (T2 : trace w2 = trace w1 ++ shown /\ now w2 = now w1)
    by (subst w2 shown; destruct due; split; try reflexivity;
        symmetry; apply app_nil_r).
  destruct T2 as [T2 N2].
  assert (Lines : forall e,
             progress_of e = None -> progress_time_of e = None -> call_of e = None ->
             calls (shown ++ [e]) = [] /\
             progress_lines (shown ++ [e]) = (if due then [line] else []) /\
             progress_times (shown ++ [e]) = (if due then [now w1] else [])).
  { intros e H1 H2 H3. unfold calls, progress_lines, progress_times.
    rewrite !omap_app. subst shown. destruct due; cbn; rewrite H1, H2, H3; auto. }
  destruct (String.eqb (default "" (status st)) "complete").
  { injection E' as _ <-.
    exists (shown ++ [EvPrint (now w2) (MsgCompleted name)]), [].
    split; [exact E|]. split; [exact Tr|]. split; [exact F|]. split; [exact P|].
    split; [cbn [trace printed log]; rewrite T2, app_nil_r; now rewrite <- app_assoc|].
    destruct (Lines (EvPrint (now w2) (MsgCompleted name)) eq_refl eq_refl eq_refl)
      as (L1 & L2 & L3).
    split; [exact L1|]. split; [now left|]. split; [exact L2 | exact L3]. }
  destruct (String.eqb (default "" (status st)) "error"
            || String.eqb (default "" (status st)) "removed").
  { injection E' as _ <-.
    exists (shown ++ [EvPrint (now w2) (MsgFailed name)]), [].
    split; [exact E|]. split; [exact Tr|]. split; [exact F|]. split; [exact P|].
    split; [cbn [trace printed log]; rewrite T2, app_nil_r; now rewrite <- app_assoc|].
    destruct (Lines (EvPrint (now w2) (MsgFailed name)) eq_refl eq_refl eq_refl)
      as (L1 & L2 & L3).
    split; [exact L1|]. split; [now left|]. split; [exact L2 | exact L3]. }
  destruct (Lines (EvSleep 2) eq_refl eq_refl eq_refl) as (L1 & L2 & L3).
  assert (T3 : trace (nap w2) = trace w1 ++ shown ++ [EvSleep 2])
    by (cbn [trace nap log advance]; rewrite T2; now rewrite <- app_assoc).
  destruct (monitor_loop_begins gid name timeout (now w0) fuel'
              (if due then now w1 else last) (nap w2))
    as (d3 & w3 & e3 & E3 & Tr3 & Shape).
  { pose proof (talks_now _ _ _ T1).
    change (now (nap w2)) with (now w2 + 2 * 1000). lia. }
  rewrite E3 in E'. injection E' as _ <-.
  destruct Shape as [-> | (l & ->)].
  - exists ((shown ++ [EvSleep 2])
            ++ [EvPrint (now (nap w2)) (MsgTimeout name)]), [].
    split; [exact E|]. split; [exact Tr|]. split; [exact F|]. split; [exact P|].
    split; [rewrite Tr3, T3, app_nil_r; now rewrite <- !app_assoc|].
    rewrite calls_app, progress_lines_app, progress_times_app, L1, L2, L3.
    split; [reflexivity|]. split; [now left|]. split; apply app_nil_r.
  - exists (shown ++ [EvSleep 2]),
      (EvCall (now (nap w2)) "aria2.tellStatus" [AStr gid; status_keys] :: l).
    split; [exact E|]. split; [exact Tr|]. split; [exact F|]. split; [exact P|].
    split; [rewrite Tr3, T3; now rewrite <- !app_assoc|].
    split; [exact L1|]. split; [right; eauto|]. split; [exact L2 | exact L3].
Qed.

Lemma monitor_download_progress_witness :
  exists d w' here later,
    monitor_download "2089b05ecca3d829" "film" 12 sluggish = (Ok d, w') /\
    trace w'
    = trace (snd (poll_status "2089b05ecca3d829"
                    (printed (MsgMonitoring "film") sluggish)))
      ++ here ++ later /\
    progress_lines here = [MsgProgress "film" 700 1000 40 7].
Proof.
  pose (w0 := printed (MsgMonitoring "film") sluggish).
  destruct (monitor_download_progress "2089b05ecca3d829" "film" 12 sluggish
              (now w0) w0 (report "active" 40)
              (snd (poll_status "2089b05ecca3d829" w0)))
    as (d & w' & evs & here & later & E & _ & _ & _ & Tr & _ & _ & L & _).
  - split; [apply rtc_refl | vm_compute; reflexivity].
  - vm_compute. reflexivity.
  - exists d, w', here, later. split; [exact E|]. split; [exact Tr|].
    rewrite L. vm_compute. reflexivity.
Defined.

(** C9 as the specification words it fails: with a rate of zero the line
    printed six seconds into the session carries the ETA 0, not the 300
    bytes that remain. *)
Lemma monitor_download_eta_zero_rate :
  ~ Forall spec_eta_rule
      (progress_lines
         (trace (snd (monitor_download "2089b05ecca3d829" "film" 12 slow)))).
Proof.
  intros H. vm_compute in H.
  inversion H as [|m l Hm _]. discriminate Hm.
Qed.

(** ** Post-processing *)

Lemma commands_app a b : commands (a ++ b) = commands a ++ commands b.
Proof. apply omap_app. Qed.

Lemma moves_app a b : moves (a ++ b) = moves a ++ moves b.
Proof. apply omap_app. Qed.

Lemma exists_and_big_spec p w : exists_and_big p w = (Ok (big_file p w), w).
Proof.
  unfold exists_and_big, big_file, path_exists, bind, path_getsize, ret.
  destruct (node_at p w); reflexivity.
Qed.

(** A run of ffmpeg touches no path but its output file. *)
Lemma after_run_node cmd w p :
  p <> List.last cmd "" -> node_at p (after_run cmd w) = node_at p w.
Proof.
  intros Hp. unfold node_at, after_run. cbn [fs with_fs].
  destruct (String.eqb p ""); [reflexivity|].
  destruct (run_output (proc w (runs w))); [|reflexivity].
  destruct (path_isdir _ w || String.eqb _ ""); [reflexivity|].
  apply lookup_insert_ne. congruence.
Qed.

(** One language, written out: the run, then the test of its exit status
    and of its output file. *)
Lemma try_language_spec video base lang w :
  let w1 := after_run (language_cmd video base lang) w in
  try_language video base lang w =
    if exit_zero (proc w (runs w)) && big_file (language_output base lang) w1
    then (Ok true, printed (MsgExtracted lang) w1)
    else (Ok false, w1).
Proof.
  cbn zeta. unfold try_language, try_except, bind, subprocess_run, exit_zero.
  destruct (run_exit (proc w (runs w))) as [rc|e]; [|reflexivity].
  destruct (rc =? 0); [|reflexivity].
  rewrite exists_and_big_spec.
  destruct (big_file _ _); reflexivity.
Qed.

Lemma big_file_fs p w w' : fs w' = fs w -> big_file p w' = big_file p w.
Proof. intros H. unfold big_file. now rewrite (node_at_fs p w w' H). Qed.

Lemma big_file_node p w w' :
  node_at p w' = node_at p w -> big_file p w' = big_file p w.
Proof. unfold big_file. now intros ->. Qed.

Lemma commands_run cmd evs : commands (EvRun cmd :: evs) = cmd :: commands evs.
Proof. reflexivity. Qed.

(** The languages in order: the loop stops at the first one that is
    extracted and touches no file but the outputs of the languages it
    tried. *)
Lemma try_languages_spec video base : forall langs w,
  NoDup (map (language_output base) langs) ->
  exists r w' evs,
    try_languages video base langs w = (Ok r, w') /\
    proc w' = proc w /\ trace w' = trace w ++ evs /\ moves evs = [] /\
    (forall p, p ∉ map (language_output base) langs ->
               node_at p w' = node_at p w) /\
    ((exists pre lang post,
        langs = pre ++ lang :: post /\
        r = [language_output base lang] /\
        commands evs = map (language_cmd video base) (pre ++ [lang]) /\
        runs w' = (runs w + length pre + 1)%nat /\
        extracted_in w w' base (length pre) lang = true /\
        forall j l, pre !! j = Some l -> extracted_in w w' base j l = false)
     \/
     (r = [] /\
      commands evs = map (language_cmd video base) langs /\
      runs w' = (runs w + length langs)%nat /\
      forall j l, langs !! j = Some l -> extracted_in w w' base j l = false)).
Proof.
  induction langs as [|lang rest IH]; intros w Hnd.
  - exists [], w, []. split; [reflexivity|]. split; [reflexivity|].
    split; [now rewrite app_nil_r|]. split; [reflexivity|].
    split; [reflexivity|]. right. split; [reflexivity|]. split; [reflexivity|].
    split; [cbn; lia|]. intros j l Hj. rewrite lookup_nil in Hj. discriminate.
  - cbn [map] in Hnd. apply NoDup_cons in Hnd as [Hnotin Hnd].
    cbn [try_languages]. unfold bind. rewrite try_language_spec. cbn zeta.
    set (cmd := language_cmd video base lang).
    set (w1 := after_run cmd w).
    assert (Hlast : List.last cmd "" = language_output base lang) by reflexivity.
    assert (Hnode1 : forall p, p <> language_output base lang ->
                               node_at p w1 = node_at p w).
    { intros p Hp. apply after_run_node. now rewrite Hlast. }
    destruct (exit_zero (proc w (runs w)) && big_file (language_output base lang) w1)
      eqn:Hok.
    + exists [language_output base lang], (printed (MsgExtracted lang) w1),
        [EvRun cmd; EvPrint (now w1) (MsgExtracted lang)].
      split; [reflexivity|]. split; [reflexivity|].
      split; [cbn; now rewrite <- app_assoc|]. split; [reflexivity|].
      split.
      { intros p Hp. apply Hnode1. intros ->. apply Hp. cbn. apply elem_of_cons. now left. }
      left. exists [], lang, rest. split; [reflexivity|]. split; [reflexivity|].
      split; [reflexivity|]. split; [cbn; lia|].
      split.
      { unfold extracted_in. cbn [length]. rewrite Nat.add_0_r. exact Hok. }
      intros j l Hj. rewrite lookup_nil in Hj. discriminate.
    + destruct (IH w1 Hnd) as (r & w' & evs & E & Hproc & Htr & Hmv & Hnode & Hcase).
      exists r, w', (EvRun cmd :: evs).
      split; [exact E|]. split; [rewrite Hproc; reflexivity|].
      split; [rewrite Htr; cbn; now rewrite <- app_assoc|].
      split; [exact Hmv|].
      assert (Hout : big_file (language_output base lang) w'
                     = big_file (language_output base lang) w1)
        by (apply big_file_node, Hnode, Hnotin).
      assert (Hshift : forall j l, extracted_in w w' base (S j) l
                                   = extracted_in w1 w' base j l).
      { intros j l. unfold extracted_in. cbn [runs w1 after_run with_fs advance ran proc].
        now rewrite Nat.add_succ_r. }
      assert (Hhead : extracted_in w w' base 0 lang = false).
      { unfold extracted_in. rewrite Nat.add_0_r, Hout. exact Hok. }
      split.
      { intros p Hp. rewrite Hnode.
        - apply Hnode1. intros ->. apply Hp. cbn. apply elem_of_cons. now left.
        - intros Hin. apply Hp. cbn. apply elem_of_cons. now right. }
      destruct Hcase as [(pre & l & post & -> & -> & Hc & Hr & Hx & Hpre)
                        | (-> & Hc & Hr & Hall)].
      * left. exists (lang :: pre), l, post.
        split; [reflexivity|]. split; [reflexivity|].
        split; [rewrite commands_run, Hc; reflexivity|].
        split; [rewrite Hr; cbn; lia|].
        split; [cbn [length]; now rewrite Hshift|].
        intros [|j] l' Hj; cbn in Hj.
        -- injection Hj as <-. exact Hhead.
        -- rewrite Hshift. now apply Hpre.
      * right. split; [reflexivity|]. split; [rewrite commands_run, Hc; reflexivity|].
        split; [rewrite Hr; cbn; lia|].
        intros [|j] l' Hj; cbn in Hj.
        -- injection Hj as <-. exact Hhead.
        -- rewrite Hshift. now apply Hall.
Qed.

Lemma commands_after_print t m a b :
  commands (EvPrint t m :: a ++ b) = commands a ++ commands b.
Proof. change (commands (EvPrint t m :: a ++ b)) with (commands (a ++ b)). apply commands_app. Qed.

Lemma string_app_cancel (s a b : string) :
  (s ++ a)%string = (s ++ b)%string -> a = b.
Proof. induction s as [|c s IH]; cbn; [trivial|]. intros H. injection H as H. auto. Qed.

Lemma language_outputs_distinct base :
  NoDup (map (language_output base) languages).
Proof.
  unfold languages, language_output. cbn [map].
  repeat (apply NoDup_cons; split);
    try apply NoDup_nil_2;
    rewrite ?not_elem_of_cons; repeat split;
    try apply not_elem_of_nil;
    intros H; apply string_app_cancel in H; discriminate H.
Qed.

Lemma fallback_output_distinct base l :
  l ∈ languages -> language_output base l <> fallback_output base.
Proof.
  unfold languages, language_output, fallback_output.
  rewrite !elem_of_cons, elem_of_nil.
  intros [-> | [-> | [-> | [-> | []]]]] H;
    apply string_app_cancel in H; discriminate H.
Qed.

(** The fallback, written out: one run, and the file is taken when the
    run ended with status 0 and the file exists, whatever its size. *)
Lemma try_fallback_spec video base w :
  let w2 := after_run (fallback_cmd video base) w in
  try_fallback video base w =
    match run_exit (proc w (runs w)) with
    | inl rc =>
        if (rc =? 0) && path_exists (fallback_output base) w2
        then (Ok [fallback_output base], printed MsgExtractedFirst w2)
        else (Ok [], w2)
    | inr _ => (Ok [], printed MsgNoSubtitles w2)
    end.
Proof.
  cbn zeta. unfold try_fallback, try_except, bind, subprocess_run.
  destruct (run_exit (proc w (runs w))) as [rc|e]; [|reflexivity].
  destruct ((rc =? 0) && path_exists _ _); reflexivity.
Qed.

(** C7, as amended.  For a video that is on disk, [extract_subtitles] runs
    ffmpeg for the languages fre, fra, fr, french in this order, once
    each, and stops at the first language whose run ends with exit
    status 0 and whose output file then exists and is larger than 100
    bytes: it returns that file and runs nothing more.  When no language
    is extracted it runs ffmpeg once more, for the first subtitle stream,
    and returns its output when that run ends with exit status 0 and the
    file exists, whatever its size. *)
Theorem extract_subtitles_order (video : string) (w : World) :
  path_exists video w = true ->
  let base := splitext_root video in
  exists r w' evs,
    extract_subtitles video w = (Ok r, w') /\
    trace w' = trace w ++ evs /\
    ((exists pre lang post,
        languages = pre ++ lang :: post /\
        commands evs = map (language_cmd video base) (pre ++ [lang]) /\
        r = [language_output base lang] /\
        extracted_in w w' base (length pre) lang = true /\
        forall j l, pre !! j = Some l -> extracted_in w w' base j l = false)
     \/
     ((forall j l, languages !! j = Some l -> extracted_in w w' base j l = false) /\
      commands evs = map (language_cmd video base) languages
                     ++ [fallback_cmd video base] /\
      r = if exit_zero (proc w (runs w + 4)%nat)
             && path_exists (fallback_output base) w'
          then [fallback_output base] else [])).
Proof.
  intros Hex. cbn zeta. unfold extract_subtitles. rewrite Hex. cbn [negb].
  unfold bind at 1. unfold print at 1.
  set (base := splitext_root video).
  set (w0 := printed (MsgExtracting (basename video)) w).
  destruct (try_languages_spec video base languages w0 (language_outputs_distinct base))
    as (r & w1 & evs & E & Hproc & Htr & _ & Hnode & Hcase).
  unfold bind. rewrite E.
  destruct Hcase as [(pre & l & post & Hl & -> & Hc & Hr & Hx & Hpre)
                    | (-> & Hc & Hr & Hall)].
  - exists [language_output base l], w1,
      (EvPrint (now w) (MsgExtracting (basename video)) :: evs).
    split; [reflexivity|].
    split; [rewrite Htr; cbn; now rewrite <- app_assoc|].
    left. exists pre, l, post. split; [exact Hl|]. split; [exact Hc|].
    split; [reflexivity|]. split; [exact Hx|]. exact Hpre.
  - rewrite try_fallback_spec. cbn zeta.
    set (w2 := after_run (fallback_cmd video base) w1).
    assert (Hkeep : forall j l, languages !! j = Some l ->
              forall w', fs w' = fs w2 -> extracted_in w w' base j l = false).
    { intros j l Hj w' Hfs. rewrite <- (Hall j l Hj). unfold extracted_in.
      f_equal. rewrite (big_file_fs _ w2 w' Hfs). apply big_file_node.
      apply after_run_node. apply fallback_output_distinct.
      apply list_elem_of_lookup. eauto. }
    assert (Hexit : exit_zero (proc w (runs w + 4)%nat)
                    = match run_exit (proc w1 (runs w1)) with
                      | inl rc => rc =? 0 | inr _ => false end).
    { unfold exit_zero. rewrite Hproc, Hr. reflexivity. }
    rewrite Hexit.
    destruct (run_exit (proc w1 (runs w1))) as [rc|e].
    + destruct ((rc =? 0) && path_exists (fallback_output base) w2) eqn:Hok.
      * exists [fallback_output base], (printed MsgExtractedFirst w2),
          (EvPrint (now w) (MsgExtracting (basename video)) :: evs
           ++ [EvRun (fallback_cmd video base); EvPrint (now w2) MsgExtractedFirst]).
        split; [reflexivity|].
        split; [cbn; rewrite Htr; cbn; now rewrite <- !app_assoc|].
        right. split; [intros j l Hj; now apply Hkeep|].
        split; [rewrite commands_after_print , Hc; reflexivity|].
        rewrite (path_exists_fs _ w2 (printed MsgExtractedFirst w2) eq_refl).
        now rewrite Hok.
      * exists [], w2,
          (EvPrint (now w) (MsgExtracting (basename video)) :: evs
           ++ [EvRun (fallback_cmd video base)]).
        split; [reflexivity|].
        split; [cbn; rewrite Htr; cbn; now rewrite <- !app_assoc|].
        right. split; [intros j l Hj; now apply Hkeep|].
        split; [rewrite commands_after_print, Hc; reflexivity|].
        now rewrite Hok.
    + exists [], (printed MsgNoSubtitles w2),
        (EvPrint (now w) (MsgExtracting (basename video)) :: evs
         ++ [EvRun (fallback_cmd video base); EvPrint (now w2) MsgNoSubtitles]).
      split; [reflexivity|].
      split; [cbn; rewrite Htr; cbn; now rewrite <- !app_assoc|].
      right. split; [intros j l Hj; now apply Hkeep|].
      split; [rewrite commands_after_print, Hc; reflexivity|]. reflexivity.
Qed.

Lemma extract_subtitles_order_witness :
  path_exists film only_fr = true /\
  exists r w', extract_subtitles film only_fr = (Ok r, w').
Proof.
  split; [reflexivity|].
  destruct (extract_subtitles_order film only_fr eq_refl) as (r & w' & evs & E & _).
  exists r, w'. exact E.
Defined.

(** When only [fr] is extracted the result is the file of [fr], and
    ffmpeg has run for fre, fra and fr: not for french, not for the
    fallback. *)
Example extract_subtitles_only_fr :
  fst (extract_subtitles film only_fr) = Ok ["/workspace/downloads/film.fr.srt"] /\
  commands (trace (snd (extract_subtitles film only_fr)))
  = map (language_cmd film "/workspace/downloads/film") ["fre"; "fra"; "fr"].
Proof. vm_compute. split; reflexivity. Qed.

(** C7 as the specification words it fails: after the run for [fre] its
    output file exists and is larger than 100 bytes, yet the run ended
    with exit status 1, the loop goes on and the result is the file of
    [fra]. *)
Lemma extract_subtitles_needs_exit_zero :
  let base := "/workspace/downloads/film" in
  let w1 := after_run (language_cmd film base "fre")
              (printed (MsgExtracting "film.mkv") stale_fre) in
  ~ (big_file (language_output base "fre") w1 = true ->
     fst (extract_subtitles film stale_fre) = Ok [language_output base "fre"]).
Proof.
  cbn zeta. intros H. specialize (H eq_refl). vm_compute in H. discriminate H.
Qed.

Lemma bind_ok {A B} (c : M A) (k : A -> M B) w b w' :
  bind c k w = (Ok b, w') ->
  exists a w1, c w = (Ok a, w1) /\ k a w1 = (Ok b, w').
Proof.
  unfold bind. destruct (c w) as [[a| |] w1]; try discriminate. eauto.
Qed.

(** [shutil.move] moves: when it succeeds and the source is not the
    destination itself, the source is gone. *)
Lemma shutil_move_removes src dst w w' :
  src <> dst -> shutil_move src dst w = (Ok tt, w') -> path_exists src w' = false.
Proof.
  intros Hne. unfold shutil_move.
  set (w0 := log (EvMove src dst) w).
  destruct (String.eqb_spec src dst) as [->|_]; [contradiction|].
  rewrite andb_false_r.
  assert (Gone : forall rd n, rd <> src ->
            path_exists src (with_fs (<[rd := n]> (delete src (fs w0))) w0) = false).
  { intros rd n Hrd. unfold path_exists, node_at. cbn [fs with_fs].
    destruct (String.eqb src ""); [reflexivity|].
    rewrite lookup_insert_ne by exact Hrd. now rewrite lookup_delete_eq. }
  destruct (path_isdir dst w0) eqn:Hd; cbn [andb].
  - set (rd := path_join dst (basename (rstrip_slash src))).
    destruct (path_exists rd w0) eqn:Hex; [discriminate|].
    destruct (node_at src w0) as [n|] eqn:Hsrc; [|discriminate].
    intros H. injection H as <-. apply Gone.
    intros Heq. unfold path_exists in Hex. rewrite Heq, Hsrc in Hex. discriminate.
  - destruct (node_at src w0) as [n|] eqn:Hsrc; [|discriminate].
    intros H. injection H as <-. apply Gone. congruence.
Qed.

Lemma process_file_absent f w :
  path_exists f w = false -> process_file f w = (Ok tt, w).
Proof. intros H. unfold process_file. now rewrite H. Qed.

Lemma process_each_absent files w :
  (forall f, f ∈ files -> path_exists f w = false) ->
  process_each files w = (Ok tt, w).
Proof.
  induction files as [|f files IH]; intros H; cbn [process_each]; [reflexivity|].
  unfold bind. rewrite process_file_absent by (apply H, elem_of_cons; now left).
  apply IH. intros g Hg. apply H, elem_of_cons. now right.
Qed.

(** When [process_file] returns normally the file is not at its path any
    more. *)
Lemma process_file_moves f w w' :
  f <> OUTPUT_DIR -> process_file f w = (Ok tt, w') -> path_exists f w' = false.
Proof.
  intros Hne. unfold process_file.
  destruct (path_exists f w) eqn:Hex; cbn [negb].
  - intros H.
    apply bind_ok in H as (sz & w1 & _ & H).
    apply bind_ok in H as (u1 & w2 & _ & H).
    apply bind_ok in H as (u2 & w3 & _ & H).
    exact (shutil_move_removes _ _ _ _ Hne H).
  - intros H. injection H as <-. exact Hex.
Qed.

(** C8.  After a run of the post-processing on an artifact that returned
    normally the artifact is not at its path any more: it was moved, not
    copied.  A further run on artifacts that are not at their paths
    returns normally and moves nothing, runs nothing and leaves the disk
    as it is; for each of them the body of the loop does nothing at all.
    The artifact is supposed not to be the output directory itself. *)
Theorem relocation_is_idempotent (f name : string) (w w1 : World) :
  f <> OUTPUT_DIR ->
  process_downloaded_files [f] name w = (Ok tt, w1) ->
  path_exists f w1 = false /\
  process_file f w1 = (Ok tt, w1) /\
  forall files name',
    (forall g, g ∈ files -> path_exists g w1 = false) ->
    exists w2 evs,
      process_downloaded_files files name' w1 = (Ok tt, w2) /\
      trace w2 = trace w1 ++ evs /\
      moves evs = [] /\ commands evs = [] /\ fs w2 = fs w1.
Proof.
  intros Hne H. unfold process_downloaded_files in H.
  apply bind_ok in H as (u0 & wa & Ha & H).
  apply bind_ok in H as (u1 & wb & Hb & H).
  cbn [process_each] in Hb. apply bind_ok in Hb as (u2 & wc & Hc & Hb).
  injection Hb as _ <-. destruct u2.
  pose proof (process_file_moves f wa wc Hne Hc) as Hgone.
  injection H as <-.
  assert (Hgone1 : path_exists f (printed (MsgProcessed name) wc) = false)
    by exact Hgone.
  split; [exact Hgone1|]. split; [exact (process_file_absent _ _ Hgone1)|].
  intros files name' Habs.
  unfold process_downloaded_files, bind, print.
  rewrite process_each_absent.
  - eexists _, [_; _]. split; [reflexivity|].
    split; [cbn; now rewrite <- app_assoc|]. repeat split.
  - intros g Hg. exact (Habs g Hg).
Qed.

Lemma relocation_is_idempotent_witness :
  film <> OUTPUT_DIR /\
  path_exists film finished = true /\
  path_exists film (snd (process_downloaded_files [film] "film" finished)) = false.
Proof.
  split; [discriminate|]. split; [reflexivity|].
  refine (proj1 (relocation_is_idempotent film "film" finished
                   (snd (process_downloaded_files [film] "film" finished)) _ _)).
  - discriminate.
  - vm_compute. reflexivity.
Defined.

(** ** One item *)

(** C10.  When the item was submitted and the monitor returns the empty
    list, [download_item] returns [False] in the world the monitor left:
    no post-processing follows.  The empty list of a session that was
    complete with none of its files on disk, of a failed session and of a
    timed-out one all give this same [False]. *)
Theorem download_item_empty_is_failure (item : string)
    (selected_files : option (list Z)) (w : World) (gid : string)
    (w1 w2 : World) :
  let name := item_name item w in
  submit_item item selected_files (printed (MsgStarting name) w)
  = (Ok (Continue (Some gid)), w1) ->
  gid <> "" ->
  monitor_download gid name 600 w1 = (Ok [], w2) ->
  download_item item selected_files w = (Ok false, w2).
Proof.
  cbn zeta. intros Hs Hg Hm.
  unfold download_item, bind at 1, print, try_except, bind at 1.
  rewrite Hs. unfold watch_item.
  destruct (String.eqb_spec gid "") as [->|_]; [contradiction|].
  unfold bind. now rewrite Hm.
Qed.

Lemma download_item_empty_is_failure_witness :
  fst (download_item magnet None vanished) = Ok false /\
  endings (trace (snd (download_item magnet None vanished)))
  = [MsgCompleted (item_name magnet vanished)].
Proof.
  pose (w0 := printed (MsgStarting (item_name magnet vanished)) vanished).
  pose (w1 := snd (submit_item magnet None w0)).
  pose (w2 := snd (monitor_download "2089b05ecca3d829"
                     (item_name magnet vanished) 600 w1)).
  assert (E : download_item magnet None vanished = (Ok false, w2)).
  { apply (download_item_empty_is_failure magnet None vanished
             "2089b05ecca3d829" w1 w2).
    - vm_compute. reflexivity.
    - discriminate.
    - vm_compute. reflexivity. }
  rewrite E. split; [reflexivity | vm_compute; reflexivity].
Defined.

(** A session complete with none of its files on disk, a failed session
    and a timed-out one: the same [False]. *)
Example download_item_same_failure :
  fst (download_item magnet None vanished) = Ok false /\
  fst (download_item magnet None broken) = Ok false /\
  fst (download_item magnet None slow) = Ok false.
Proof. vm_compute. repeat split. Qed.

(** * Further properties of the code *)

(** ** Numbers and names *)

(** X1.  With the completed bytes between 0 and the total, the ETA that
    [monitor_download] prints is between 0 and the bytes that remain,
    whatever the rate. *)
Theorem eta_of_bounds (completed total speed : Z) :
  0 <= completed <= total ->
  0 <= eta_of completed total speed <= total - completed.
Proof.
  intros H. unfold eta_of. destruct (Z.ltb_spec 0 speed) as [Hs|Hs]; [|lia].
  assert (Hm : 0 < Z.max speed 1) by lia. split.
  - apply Z.div_pos; lia.
  - apply Z.div_le_upper_bound; [exact Hm|]. nia.
Qed.

Lemma eta_of_bounds_witness : 0 <= eta_of 700 1000 40 <= 1000 - 700.
Proof. apply eta_of_bounds. lia. Defined.

Lemma take_str_length n s : (String.length (take_str n s) <= n)%nat.
Proof.
  unfold take_str. revert s. induction n as [|n IH]; intros s.
  - destruct s; cbn; lia.
  - destruct s as [|c s]; cbn; [lia|]. specialize (IH s). lia.
Qed.

Lemma take_str_prefix n s : String.prefix (take_str n s) s = true.
Proof.
  unfold take_str. revert s. induction n as [|n IH]; intros s.
  - destruct s; reflexivity.
  - destruct s as [|c s]; cbn; [reflexivity|].
    rewrite IH. destruct (ascii_dec c c); [reflexivity | contradiction].
Qed.

Lemma prefix_refl s : String.prefix s s = true.
Proof.
  induction s as [|c s IH]; cbn; [reflexivity|].
  rewrite IH. destruct (ascii_dec c c); [reflexivity | contradiction].
Qed.

(** X2.  The name under which [download_item] reports an item is at most
    50 characters long and is a prefix of the item, or of its base name
    when the item is a file on disk. *)
Theorem item_name_short (item : string) (w : World) :
  (String.length (item_name item w) <= 50)%nat /\
  String.prefix (item_name item w)
    (if path_isfile item w then basename item else item) = true.
Proof.
  unfold item_name.
  set (name := if path_isfile item w then basename item else item).
  destruct (Nat.ltb_spec 50 (String.length name)) as [H|H].
  - split; [apply take_str_length | apply take_str_prefix].
  - split; [exact H | apply prefix_refl].
Qed.

(** ** The control channel, further *)

Lemma sleeps_app a b : sleeps (a ++ b) = (sleeps a + sleeps b)%nat.
Proof. unfold sleeps. now rewrite omap_app, length_app. Qed.

Lemma aria2_attempts_spec method params retries : forall n a w,
  (a + n = retries)%nat ->
  exists r w' evs,
    aria2_attempts method params retries (seq a n) w = (Ok r, w') /\
    talks w w' evs /\
    Forall (fun e => channel_event e = true) evs /\
    (posts w' <= posts w + n)%nat /\
    ((forall k t, exists e, verdict (outcome (net w k t method)) = inl e) ->
     r = None /\ posts w' = (posts w + n)%nat) /\
    (1 <= n -> posts w + 1 <= posts w')%nat /\
    sleeps evs = (posts w' - posts w - 1)%nat.
Proof.
  induction n as [|n IH]; intros a w Ha; cbn [seq aria2_attempts].
  - exists None, w, []. split; [reflexivity|]. split; [apply talks_refl|].
    split; [constructor|]. split; [lia|].
    split; [intros _; split; [reflexivity | lia]|]. split; [lia|]. cbn. lia.
  - unfold try_except, bind, post_request.
    pose proof (talks_post w method params) as P.
    destruct (verdict (outcome (attempt_at method w))) as [e|j] eqn:V.
    + destruct (Nat.eqb_spec a (retries - 1)) as [Hlast|Hmore].
      * exists None, (printed (MsgRpcFailed e) (after_post method params w)),
          [EvPost (now w) method params;
           EvPrint (now (after_post method params w)) (MsgRpcFailed e)].
        split; [reflexivity|].
        split; [exact (talks_trans _ _ _ _ _ P (talks_print _ _))|].
        split; [repeat constructor|].
        split; [cbn; lia|].
        split; [intros _; split; [reflexivity | cbn; lia]|].
        split; [cbn; lia|]. cbn. lia.
      * destruct (IH (S a) (backoff (after_post method params w)))
          as (r & w' & evs & E & T & C & Hle & Hnone & Hge & Hs); [lia|].
        exists r, w', ([EvPost (now w) method params] ++ [EvSleep 1] ++ evs).
        unfold time_sleep, ret. fold (backoff (after_post method params w)).
        split; [exact E|].
        split.
        { eapply talks_trans; [exact P|]. eapply talks_trans; [|exact T].
          apply (talks_sleep _ 1). lia. }
        split; [repeat constructor; exact C|].
        cbn [posts backoff log advance after_post sent] in *.
        assert (1 <= n)%nat by lia.
        split; [lia|].
        split; [intros H'; destruct (Hnone H') as [-> Hp]; split; [reflexivity | lia]|].
        split; [lia|].
        rewrite !sleeps_app, Hs. cbn. lia.
    + exists (Some j), (after_post method params w), [EvPost (now w) method params].
      split; [reflexivity|]. split; [exact P|].
      split; [repeat constructor|].
      split; [cbn; lia|].
      split; [intros H'; destruct (H' (posts w) (now w)) as [e He];
              change (net w (posts w) (now w) method) with (attempt_at method w) in He;
              congruence|].
      split; [cbn; lia|]. cbn. lia.
Qed.

(** X3.  For any number of retries, [aria2_call] never raises and makes at
    most that many requests, with one sleep of a second between two
    requests and none after the last; when every request fails it makes
    them all and returns [None].  With no retry allowed it returns [None]
    at once: no request, no sleep, no print. *)
Theorem aria2_call_n_bounded (method : string) (params : list Arg)
    (retries : nat) (w : World) :
  exists r w' evs,
    aria2_call_n method params retries w = (Ok r, w') /\
    trace w' = trace w ++ EvCall (now w) method params :: evs /\
    (posts w' <= posts w + retries)%nat /\
    sleeps evs = (posts w' - posts w - 1)%nat /\
    ((forall k t, exists e, verdict (outcome (net w k t method)) = inl e) ->
     r = None /\ posts w' = (posts w + retries)%nat) /\
    (retries = 0%nat -> r = None /\ evs = []).
Proof.
  unfold aria2_call_n.
  set (w0 := log (EvCall (now w) method params) w).
  destruct (aria2_attempts_spec method params retries retries 0%nat w0 eq_refl)
    as (r & w' & evs & E & T & _ & Hle & Hnone & _ & Hs).
  exists r, w', evs. split; [exact E|].
  split; [rewrite (talks_trace _ _ _ T); cbn; now rewrite <- app_assoc|].
  split; [exact Hle|]. split; [exact Hs|]. split; [exact Hnone|].
  intros ->. cbn in E. injection E as <- <-.
  split; [reflexivity|].
  pose proof (talks_trace _ _ _ T) as Tr.
  rewrite <- (app_nil_r (trace w0)) in Tr at 1.
  now apply app_inv_head in Tr.
Qed.

(** A call lasts three requests and two sleeps at most. *)
Lemma aria2_call_lasts method params w (limit : Z) :
  (forall k t, Z.of_N (latency (net w k t method)) <= limit) ->
  now (snd (aria2_call method params w)) - now w <= 3 * limit + 2000.
Proof.
  intros H. rewrite aria2_call_attempts. cbn zeta.
  set (w0 := log (EvCall (now w) method params) w).
  set (w1 := backoff (after_post method params w0)).
  set (w2 := backoff (after_post method params w1)).
  assert (L : forall v, net v = net w ->
                        now (after_post method params v) - now v <= limit).
  { intros v Hv. unfold after_post, attempt_at. cbn [now advance sent log].
    rewrite Hv. specialize (H (posts v) (now v)). lia. }
  assert (N0 : net w0 = net w) by reflexivity.
  assert (N1 : net w1 = net w) by reflexivity.
  assert (N2 : net w2 = net w) by reflexivity.
  pose proof (L w0 N0) as L0. pose proof (L w1 N1) as L1. pose proof (L w2 N2) as L2.
  assert (T0 : now w0 = now w) by reflexivity.
  assert (T1 : now w1 = now (after_post method params w0) + 1000) by reflexivity.
  assert (T2 : now w2 = now (after_post method params w1) + 1000) by reflexivity.
  pose proof (N2Z.is_nonneg (latency (net w 0%nat 0 method))) as Hpos.
  specialize (H 0%nat 0).
  destruct (verdict (outcome (attempt_at method w0))); cbn [snd]; [|lia].
  destruct (verdict (outcome (attempt_at method w1))); cbn [snd]; [|lia].
  destruct (verdict (outcome (attempt_at method w2))); cbn [snd]; [|lia].
  change (now (printed (MsgRpcFailed e1) (after_post method params w2)))
    with (now (after_post method params w2)). lia.
Qed.

(** X4.  When no request waits longer than the 15 seconds of its
    timeout, a call of [aria2_call] lasts 47 seconds at most: three
    requests and two backoffs. *)
Theorem aria2_call_duration (method : string) (params : list Arg) (w : World) :
  (forall k t, Z.of_N (latency (net w k t method)) <= 15000) ->
  now (snd (aria2_call method params w)) - now w <= 47000.
Proof. intros H. apply (aria2_call_lasts method params w 15000 H). Qed.

Lemma aria2_call_duration_witness :
  now (snd (aria2_call "aria2.unpause" [AStr "2089b05ecca3d829"] flaky))
  - now flaky <= 47000.
Proof.
  apply aria2_call_duration. intros k t. cbn [net flaky world_of].
  destruct (k <? 2)%nat; cbn; lia.
Defined.

(** ** Submission *)

(** X5.  [add_magnet_link] never raises, whatever the engine does.  It
    makes one call of [aria2_call], [aria2.addUri] with the link as the
    only URI and the fixed options, does nothing else, and returns what
    the reply carries under ["result"]: [None] when the call failed or
    the reply has no result. *)
Theorem add_magnet_link_one_call (magnet_uri : string) (w : World) :
  exists rr w' evs,
    aria2_call "aria2.addUri" [AList [AStr magnet_uri]; magnet_options] w
    = (Ok rr, w') /\
    add_magnet_link magnet_uri w = (Ok (result_of rr), w') /\
    trace w' = trace w ++ evs /\ fs w' = fs w /\
    requests evs = [("aria2.addUri", [AList [AStr magnet_uri]; magnet_options])].
Proof.
  unfold add_magnet_link, try_except, bind. fold magnet_options.
  destruct (aria2_call_talks "aria2.addUri"
              [AList [AStr magnet_uri]; magnet_options] w)
    as (rr & w' & evs & E & T & Q).
  rewrite E.
  exists rr, w',
    (EvCall (now w) "aria2.addUri" [AList [AStr magnet_uri]; magnet_options] :: evs).
  split; [reflexivity|]. split; [reflexivity|].
  split; [exact (talks_trace _ _ _ T)|].
  split; [exact (talks_fs _ _ _ T)|].
  rewrite requests_call, (requests_quiet evs Q). reflexivity.
Qed.

Lemma open_read_spec p w :
  open_read p w = if path_isfile p w then (Ok tt, w)
                  else (Raise (match node_at p w with
                               | Some _ => IsADirectoryError p
                               | None => FileNotFoundError p
                               end), w).
Proof.
  unfold open_read, path_isfile.
  destruct (node_at p w) as [n|]; [|reflexivity].
  destruct (is_dir n); reflexivity.
Qed.

(** X6.  When the torrent descriptor cannot be read (it is missing, or a
    directory), [add_torrent_file] returns [None] without raising: it
    prints the failure and makes no call to the engine. *)
Theorem add_torrent_file_unreadable (torrent_path : string)
    (selected_files : option (list Z)) (w : World) :
  path_isfile torrent_path w = false ->
  exists w' e,
    add_torrent_file torrent_path selected_files w = (Ok None, w') /\
    trace w' = trace w ++ [EvPrint (now w) (MsgAddTorrentFailed e)] /\
    posts w' = posts w /\ fs w' = fs w.
Proof.
  intros H. unfold add_torrent_file, try_except, bind.
  rewrite open_read_spec, H. eexists _, _. split; [reflexivity|].
  repeat split.
Qed.

Lemma add_torrent_file_unreadable_witness :
  path_isfile "/workspace/film.torrent" finished = false /\
  fst (add_torrent_file "/workspace/film.torrent" (Some [0; 2]) finished) = Ok None.
Proof.
  split; [reflexivity|].
  destruct (add_torrent_file_unreadable "/workspace/film.torrent" (Some [0; 2])
              finished eq_refl) as (w' & e & E & _).
  now rewrite E.
Defined.

(** What [add_torrent_file] does with a descriptor it can read. *)
Lemma add_torrent_file_run torrent_path selected_files w :
  path_isfile torrent_path w = true ->
  exists r w' evs,
    add_torrent_file torrent_path selected_files w = (Ok r, w') /\
    talks w w' evs /\
    exists rest,
      requests evs = add_torrent torrent_path (has_selection selected_files) :: rest /\
      match r with
      | Some gid =>
          if negb (String.eqb gid "") && has_selection selected_files
          then last rest = Some (unpause gid)
          else rest = []
      | None => rest = []
      end.
Proof.
  intros H. unfold add_torrent_file, try_except, bind.
  rewrite open_read_spec, H.
  set (params := [AFileB64 torrent_path; AList []; _]).
  destruct (aria2_call_talks "aria2.addTorrent" params w)
    as (rr & w1 & e1 & E & T & Q).
  rewrite E.
  assert (R1 : requests (EvCall (now w) "aria2.addTorrent" params :: e1)
               = [add_torrent torrent_path (has_selection selected_files)]).
  { rewrite requests_call, (requests_quiet e1 Q). reflexivity. }
  destruct (result_of rr) as [gid|] eqn:Hg; cbn [truthy].
  2:{ eexists None, w1, _. split; [reflexivity|]. split; [exact T|].
      exists []. split; [exact R1 | reflexivity]. }
  destruct (negb (String.eqb gid "") && has_selection selected_files) eqn:Hc.
  - change (default "" (Some gid)) with gid.
    destruct (apply_file_selection_run gid (default [] selected_files) w1)
      as (fl & wa & w2 & e2 & n & _ & E2 & T2 & R2 & _).
    rewrite E2. eexists (Some gid), w2, _. split; [reflexivity|].
    split; [exact (talks_trans _ _ _ _ _ T T2)|].
    exists (requests e2). split; [now rewrite requests_app, R1|].
    rewrite Hc, R2, !app_assoc. apply last_snoc.
  - eexists (Some gid), w1, _. split; [reflexivity|]. split; [exact T|].
    exists []. split; [exact R1|]. now rewrite Hc.
Qed.

(** X7.  With a descriptor it can read, [add_torrent_file] never raises.
    Its first call is [aria2.addTorrent], paused exactly when a selection
    with at least one index was given.  When a GID came back and there is
    such a selection, the last call is [aria2.unpause] on that GID: a job
    submitted paused and accepted is always released.  Otherwise
    [aria2.addTorrent] is the only call. *)
Theorem add_torrent_file_pauses_and_releases (torrent_path : string)
    (selected_files : option (list Z)) (w : World) :
  path_isfile torrent_path w = true ->
  exists r w' evs rest,
    add_torrent_file torrent_path selected_files w = (Ok r, w') /\
    trace w' = trace w ++ evs /\ fs w' = fs w /\
    requests evs = add_torrent torrent_path (has_selection selected_files) :: rest /\
    match r with
    | Some gid =>
        if negb (String.eqb gid "") && has_selection selected_files
        then last rest = Some (unpause gid)
        else rest = []
    | None => rest = []
    end.
Proof.
  intros H.
  destruct (add_torrent_file_run torrent_path selected_files w H)
    as (r & w' & evs & E & T & rest & R & Hr).
  exists r, w', evs, rest. split; [exact E|].
  split; [exact (talks_trace _ _ _ T)|]. split; [exact (talks_fs _ _ _ T)|].
  split; [exact R | exact Hr].
Qed.

Lemma add_torrent_file_pauses_and_releases_witness :
  path_isfile torrent seeded = true /\
  exists r w', add_torrent_file torrent (Some [0; 2]) seeded = (Ok r, w').
Proof.
  split; [reflexivity|].
  destruct (add_torrent_file_pauses_and_releases torrent (Some [0; 2]) seeded eq_refl)
    as (r & w' & evs & rest & E & _).
  exists r, w'. exact E.
Defined.

(** A descriptor submitted with the selection {0, 2}: paused, the three
    files marked, released. *)
Example add_torrent_file_0_2 :
  fst (add_torrent_file torrent (Some [0; 2]) seeded) = Ok (Some "OK") /\
  requests (trace (snd (add_torrent_file torrent (Some [0; 2]) seeded)))
  = [ add_torrent torrent true;
      poll_files "OK";
      ("aria2.selectFile", [AStr "OK"; AInt 0; ABool true]);
      ("aria2.selectFile", [AStr "OK"; AInt 1; ABool false]);
      ("aria2.selectFile", [AStr "OK"; AInt 2; ABool true]);
      unpause "OK" ].
Proof. vm_compute. split; reflexivity. Qed.

(** ** Waiting for the file list *)

Lemma get_torrent_files_loop_empty gid timeout start fuel : forall w fl w',
  get_torrent_files_loop fuel gid timeout start w = (Ok fl, w') ->
  fl = [] -> timeout * 1000 <= now w' - start.
Proof.
  induction fuel as [|fuel IH]; intros w fl w'; cbn [get_torrent_files_loop];
    destruct (Z.ltb_spec (now w - start) (timeout * 1000)) as [G|G];
    try discriminate.
  1,3: (intros E _; injection E as _ <-; exact G).
  unfold bind.
  destruct (get_torrent_files_body_talks gid w) as (s & w1 & e1 & -> & _ & _ & Hs).
  destruct s as [fl'|[]].
  - intros E ->. injection E as ->. contradiction.
  - apply IH.
Qed.

(** X8.  For any timeout, against an engine whose replies have the form
    the protocol gives them (a failure, or a JSON object whose result,
    when there is one, is a status dictionary), [get_torrent_files]
    returns, makes only [aria2.tellStatus] polls for the files, at most
    one per second of the timeout, and touches nothing on disk.  It
    returns the empty list only once the whole timeout has elapsed.  What
    the method does on a reply of another form is not covered. *)
Theorem get_torrent_files_waits (gid : string) (timeout : Z) (w : World) :
  exists fl w' evs,
    get_torrent_files_t gid timeout w = (Ok fl, w') /\
    trace w' = trace w ++ evs /\ fs w' = fs w /\
    requests evs = repeat (poll_files gid) (length (requests evs)) /\
    (length (requests evs) <= Z.to_nat timeout)%nat /\
    (fl = [] -> timeout * 1000 <= now w' - now w).
Proof.
  unfold get_torrent_files_t, bind, time_time.
  destruct (get_torrent_files_loop_talks gid timeout (now w) (Z.to_nat timeout) w)
    as (fl & w' & evs & E & T & R & P & B & L); [lia|].
  exists fl, w', evs. split; [exact E|].
  split; [exact (talks_trace _ _ _ T)|]. split; [exact (talks_fs _ _ _ T)|].
  split; [exact R|]. split.
  - rewrite <- L. apply (paced_length 1000 (now w)); [lia | exact P |].
    eapply Forall_impl; [exact B|]. cbn. intros; lia.
  - exact (get_torrent_files_loop_empty _ _ _ _ _ _ _ E).
Qed.

(** ** The session monitor, further *)

Lemma filter_all {A} (f : A -> bool) l :
  Forall (fun x => f x = true) (List.filter f l).
Proof.
  induction l as [|x l IH]; cbn; [constructor|].
  destruct (f x) eqn:E; [constructor; assumption | assumption].
Qed.

Lemma downloaded_paths_exist fl w w' :
  fs w' = fs w ->
  Forall (fun p => path_exists p w' = true) (downloaded_paths fl w).
Proof.
  intros H. rewrite downloaded_paths_filter.
  eapply Forall_impl; [apply filter_all|].
  cbn. intros p Hp. now rewrite (path_exists_fs p w w' H).
Qed.

(** The loop of the monitor, for every engine: what it calls, when, and
    how it ends. *)
Lemma monitor_loop_sound gid name timeout start :
  forall fuel last wk,
    timeout * 1000 - (now wk - start) <= Z.of_nat fuel * 1000 ->
    exists d w' evs,
      monitor_loop fuel gid name timeout start last wk = (Ok d, w') /\
      talks wk w' evs /\
      requests evs = repeat (poll_session gid) (length (requests evs)) /\
      length (call_times "aria2.tellStatus" evs) = length (requests evs) /\
      paced 2000 (now wk) (call_times "aria2.tellStatus" evs) /\
      Forall (fun t => t - start < timeout * 1000)
        (call_times "aria2.tellStatus" evs) /\
      ((endings evs = [MsgCompleted name] /\
        Forall (fun p => path_exists p w' = true) d)
       \/ (endings evs = [MsgFailed name] /\ d = [])
       \/ (endings evs = [MsgTimeout name] /\ d = [] /\
           timeout * 1000 <= now w' - start)).
Proof.
  induction fuel as [|fuel IH]; intros last wk Hf; cbn [monitor_loop];
    destruct (Z.ltb_spec (now wk - start) (timeout * 1000)) as [G|G].
  1: lia.
  1,3: (exists [], (printed (MsgTimeout name) wk), [EvPrint (now wk) (MsgTimeout name)];
        split; [reflexivity|]; split; [apply talks_print|];
        split; [reflexivity|]; split; [reflexivity|];
        split; [exact I|]; split; [constructor|];
        right; right; split; [reflexivity|]; split; [reflexivity | exact G]).
  unfold bind.
  destruct (monitor_body_poll gid name last wk) as (r & w1 & e1 & Hp & T1 & Q1 & B).
  destruct (monitor_react_talks name last r w1) as (s & w2 & e2 & E2 & T2 & Q2 & Hs).
  rewrite B, E2.
  pose proof (talks_trans _ _ _ _ _ T1 T2) as T12.
  set (call := EvCall (now wk) "aria2.tellStatus" [AStr gid; status_keys]) in *.
  assert (N1 : endings (call :: e1) = []) by exact (channel_endings e1 Q1).
  assert (R1 : requests (call :: e1) = [poll_session gid])
    by (unfold call; rewrite requests_call, (requests_quiet e1 (channel_calls e1 Q1));
        reflexivity).
  assert (K1 : call_times "aria2.tellStatus" (call :: e1) = [now wk])
    by (unfold call; rewrite call_times_call,
          (call_times_quiet _ e1 (channel_calls e1 Q1)); reflexivity).
  pose proof (requests_quiet e2 Q2) as R2.
  pose proof (call_times_quiet "aria2.tellStatus" e2 Q2) as K2.
  destruct s as [d|last'].
  - exists d, w2, ((call :: e1) ++ e2).
    split; [reflexivity|]. split; [exact T12|].
    rewrite requests_app, call_times_app, endings_app, N1, R1, K1, R2, K2.
    cbn [app length repeat].
    split; [reflexivity|]. split; [reflexivity|].
    split; [cbn; split; [lia | exact I]|].
    split; [repeat constructor; lia|].
    destruct Hs as (st & _ & _ & [[-> ->] | [-> ->]]).
    + left. split; [reflexivity|].
      apply downloaded_paths_exist. exact (talks_fs _ _ _ T2).
    + right. left. split; reflexivity.
  - destruct Hs as [Hn He].
    destruct (IH last' w2) as (d & w' & e3 & E3 & T3 & R3 & L3 & P3 & B3 & O3).
    { pose proof (talks_now _ _ _ T1). lia. }
    exists d, w', (((call :: e1) ++ e2) ++ e3).
    split; [exact E3|]. split; [eapply talks_trans; eassumption|].
    rewrite !requests_app, !call_times_app, !endings_app, N1, R1, K1, R2, K2, He.
    cbn [app length repeat].
    split; [f_equal; exact R3|]. split; [f_equal; exact L3|].
    split; [cbn; split; [lia|]; eapply paced_weaken; [|exact P3];
            pose proof (talks_now _ _ _ T1); lia|].
    split; [constructor; [lia | exact B3]|]. exact O3.
Qed.

(** The whole of [monitor_download], for every engine. *)
Lemma monitor_download_run gid name timeout w :
  exists d w' evs,
    monitor_download gid name timeout w = (Ok d, w') /\
    talks w w' evs /\
    requests evs = repeat (poll_session gid) (length (requests evs)) /\
    length (call_times "aria2.tellStatus" evs) = length (requests evs) /\
    paced 2000 (now w) (call_times "aria2.tellStatus" evs) /\
    Forall (fun t => t - now w < timeout * 1000)
      (call_times "aria2.tellStatus" evs) /\
    session_outcome name timeout w w' evs d.
Proof.
  unfold monitor_download, bind, print, time_time.
  set (w0 := printed (MsgMonitoring name) w).
  destruct (monitor_loop_sound gid name timeout (now w0) (Z.to_nat timeout)
              (now w0) w0) as (d & w' & evs & E & T & R & L & P & B & O); [lia|].
  exists d, w', ([EvPrint (now w) (MsgMonitoring name)] ++ evs).
  split; [exact E|].
  split; [exact (talks_trans _ _ _ _ _ (talks_print w _) T)|].
  split; [exact R|]. split; [exact L|]. split; [exact P|]. split; [exact B|].
  exact O.
Qed.


(** X10.  [monitor_download] prints one ending and what it returns goes
    with it: after "completed", paths that all exist on disk when it
    returns; after "failed", nothing; after "timeout", nothing, and then
    the whole timeout has elapsed.  So a non-empty result always comes
    from a completed session and names only files that are there. *)
Theorem monitor_download_sound (gid name : string) (timeout : Z) (w : World) :
  exists d w' evs,
    monitor_download gid name timeout w = (Ok d, w') /\
    trace w' = trace w ++ evs /\
    session_outcome name timeout w w' evs d.
Proof.
  destruct (monitor_download_run gid name timeout w)
    as (d & w' & evs & E & T & _ & _ & _ & _ & O).
  exists d, w', evs. split; [exact E|].
  split; [exact (talks_trace _ _ _ T) | exact O].
Qed.

(** Against an engine that answers no request, a poll comes back empty. *)
Lemma poll_status_dead gid w wk :
  (forall k t, exists e,
      verdict (outcome (net w k t "aria2.tellStatus")) = inl e) ->
  net wk = net w ->
  fst (poll_status gid wk) = Ok None.
Proof.
  intros Hdead Hnet. unfold poll_status. rewrite aria2_call_attempts. cbn zeta.
  set (w0 := log (EvCall (now wk) "aria2.tellStatus" [AStr gid; status_keys]) wk).
  set (w1 := backoff (after_post "aria2.tellStatus" [AStr gid; status_keys] w0)).
  set (w2 := backoff (after_post "aria2.tellStatus" [AStr gid; status_keys] w1)).
  assert (D : forall v, net v = net wk -> exists e,
                verdict (outcome (attempt_at "aria2.tellStatus" v)) = inl e).
  { intros v Hv. unfold attempt_at. rewrite Hv, Hnet. apply Hdead. }
  destruct (D w0 eq_refl) as [e0 ->].
  destruct (D w1 eq_refl) as [e1 ->].
  destruct (D w2 eq_refl) as [e2 ->].
  reflexivity.
Qed.

(** X11.  When the engine answers none of the status requests (no
    connection, a wait exceeded, an error status, a body that is not
    JSON), [monitor_download] does not report a failure: it keeps polling,
    returns the empty list only once the whole timeout has elapsed, and
    the ending it prints is "timeout". *)
Theorem monitor_download_unreachable (gid name : string) (timeout : Z)
    (w : World) :
  (forall k t, exists e,
      verdict (outcome (net w k t "aria2.tellStatus")) = inl e) ->
  exists w' evs,
    monitor_download gid name timeout w = (Ok [], w') /\
    trace w' = trace w ++ evs /\ endings evs = [MsgTimeout name] /\
    timeout * 1000 <= now w' - now w.
Proof.
  intros Hdead.
  assert (H : forall last wk, session_turn gid name timeout w last wk ->
                              poll_terminal gid wk = false).
  { intros last wk Hs. destruct (session_turn_net _ _ _ _ _ _ Hs) as [Hnet _].
    unfold poll_terminal. now rewrite (poll_status_dead gid w wk Hdead Hnet). }
  destruct (monitor_download_run gid name timeout w)
    as (d & w' & evs & E & T & _ & _ & _ & _ & O).
  pose proof E as E'.
  unfold monitor_download, bind, print, time_time in E'.
  set (w0 := printed (MsgMonitoring name) w) in E'.
  destruct (monitor_loop_times_out gid name timeout w H
              (Z.to_nat timeout) (now w0) w0)
    as (w'' & evs' & E2 & T2 & N2 & _); [apply rtc_refl | fold w0; lia |].
  fold w0 in E2. rewrite E2 in E'. injection E' as <- <-.
  assert (Hev : evs = [EvPrint (now w) (MsgMonitoring name)] ++ evs').
  { apply (app_inv_head (trace w)). rewrite <- (talks_trace _ _ _ T).
    exact (talks_trace _ _ _ (talks_trans _ _ _ _ _ (talks_print w _) T2)). }
  assert (Hend : endings evs = [MsgTimeout name])
    by (rewrite Hev, endings_app; exact N2).
  exists w'', evs. split; [exact E|].
  split; [exact (talks_trace _ _ _ T)|]. split; [exact Hend|].
  destruct O as [[He _] | [[He _] | (_ & _ & Hel)]];
    [rewrite Hend in He; discriminate | rewrite Hend in He; discriminate | exact Hel].
Qed.

Lemma monitor_download_unreachable_witness :
  exists w',
    monitor_download "2089b05ecca3d829" "film" 600 unreachable = (Ok [], w') /\
    600 * 1000 <= now w' - now unreachable.
Proof.
  destruct (monitor_download_unreachable "2089b05ecca3d829" "film" 600 unreachable)
    as (w' & evs & E & _ & _ & Hel).
  - intros k t. exists ConnectionError. reflexivity.
  - exists w'. split; [exact E | exact Hel].
Defined.

Lemma monitor_react_time name last r w s w' :
  monitor_react name last r w = (Ok s, w') ->
  now w' <= now w + 2000 /\
  (forall d, s = Return d -> now w' = now w).
Proof.
  destruct r as [[[st|]]|].
  2,3: (intros E; injection E as <- <-; cbn; split; [lia | discriminate]).
  rewrite monitor_react_status. cbn zeta.
  destruct ((5000 <=? now w - last) && (0 <? default 0 (totalLength st)));
    destruct (String.eqb (default "" (status st)) "complete");
    destruct (String.eqb (default "" (status st)) "error"
              || String.eqb (default "" (status st)) "removed");
    intros E; injection E as <- <-; cbn; (split; [lia|]);
    try discriminate; reflexivity.
Qed.

Lemma monitor_loop_lasts gid name timeout start (w : World) :
  (forall k t, Z.of_N (latency (net w k t "aria2.tellStatus")) <= 15000) ->
  forall fuel last wk d w',
    net wk = net w ->
    now wk - start < Z.max 0 (timeout * 1000) + 49000 ->
    monitor_loop fuel gid name timeout start last wk = (Ok d, w') ->
    now w' - start < Z.max 0 (timeout * 1000) + 49000.
Proof.
  intros Hlat.
  induction fuel as [|fuel IH]; intros last wk d w' Hnet Hinv; cbn [monitor_loop];
    destruct (Z.ltb_spec (now wk - start) (timeout * 1000)) as [G|G];
    try discriminate.
  1,3: (intros E; injection E as _ <-; exact Hinv).
  unfold bind.
  destruct (monitor_body_poll gid name last wk) as (r & w1 & e1 & Hp & T1 & Q1 & B).
  rewrite B.
  assert (D1 : now w1 - now wk <= 47000).
  { pose proof (aria2_call_lasts "aria2.tellStatus" [AStr gid; status_keys] wk 15000) as L.
    unfold poll_status in Hp. rewrite Hp in L. apply L.
    intros k t. rewrite Hnet. apply Hlat. }
  destruct (monitor_react name last r w1) as [[s| |] w2] eqn:E2; try discriminate.
  destruct (monitor_react_time _ _ _ _ _ _ E2) as [Hle Hret].
  destruct (monitor_react_talks name last r w1) as (s' & w2' & e2 & E2' & T2 & _).
  rewrite E2 in E2'. injection E2' as <- <-.
  destruct s as [d'|last'].
  - intros E. injection E as _ <-. rewrite (Hret d' eq_refl). lia.
  - apply IH.
    + rewrite (talks_net _ _ _ T2), (talks_net _ _ _ T1). exact Hnet.
    + lia.
Qed.

(** X12.  When no status request waits longer than the 15 seconds of its
    timeout, [monitor_download] returns less than 49 seconds after its
    timeout has elapsed: the last poll may begin just before the timeout,
    last 47 seconds and be followed by a sleep of 2. *)
Theorem monitor_download_duration (gid name : string) (timeout : Z) (w : World) :
  (forall k t, Z.of_N (latency (net w k t "aria2.tellStatus")) <= 15000) ->
  now (snd (monitor_download gid name timeout w)) - now w
  < Z.max 0 (timeout * 1000) + 49000.
Proof.
  intros Hlat.
  destruct (monitor_download_run gid name timeout w) as (d & w' & evs & E & _).
  rewrite E. cbn [snd].
  unfold monitor_download, bind, print, time_time in E.
  set (w0 := printed (MsgMonitoring name) w) in E.
  apply (monitor_loop_lasts gid name timeout (now w0) w Hlat
           (Z.to_nat timeout) (now w0) w0 d w'); [reflexivity | | exact E].
  lia.
Qed.

Lemma monitor_download_duration_witness :
  now (snd (monitor_download "2089b05ecca3d829" "film" 600 unreachable))
  - now unreachable < Z.max 0 (600 * 1000) + 49000.
Proof.
  apply monitor_download_duration. intros k t. cbn. lia.
Defined.

(** ** What each part of the program can do *)

Lemma emits_weaken {A} ks ks' (c : M A) :
  ks ⊆ ks' -> emits ks c -> emits ks' c.
Proof.
  intros Hs Hc w. destruct (Hc w) as (evs & E & F). exists evs. split; [exact E|].
  eapply Forall_impl; [exact F|]. cbn. intros e He. now apply Hs.
Qed.

Lemma emits_ret {A} ks (a : A) : emits ks (ret a).
Proof. intros w. exists []. split; [symmetry; apply app_nil_r | constructor]. Qed.

Lemma emits_raise {A} ks e : emits ks (raise e : M A).
Proof. intros w. exists []. split; [symmetry; apply app_nil_r | constructor]. Qed.

Lemma emits_bind {A B} ks (c : M A) (k : A -> M B) :
  emits ks c -> (forall a, emits ks (k a)) -> emits ks (bind c k).
Proof.
  intros Hc Hk w. unfold bind. destruct (Hc w) as (e1 & E1 & F1).
  destruct (c w) as [[a| |] w1]; cbn [snd] in *; try (exists e1; now split).
  destruct (Hk a w1) as (e2 & E2 & F2). exists (e1 ++ e2).
  split; [rewrite E2, E1; now rewrite app_assoc | now apply Forall_app].
Qed.

Lemma emits_try {A} ks (c : M A) (h : Exn -> M A) :
  emits ks c -> (forall e, emits ks (h e)) -> emits ks (try_except c h).
Proof.
  intros Hc Hh w. unfold try_except. destruct (Hc w) as (e1 & E1 & F1).
  destruct (c w) as [[a|e|] w1]; cbn [snd] in *; try (exists e1; now split).
  destruct (Hh e w1) as (e2 & E2 & F2). exists (e1 ++ e2).
  split; [rewrite E2, E1; now rewrite app_assoc | now apply Forall_app].
Qed.

(** A step that adds one event. *)
Lemma emits_one {A} ks (c : M A) :
  (forall w, exists e, trace (snd (c w)) = trace w ++ [e] /\ kind e ∈ ks) ->
  emits ks c.
Proof.
  intros H w. destruct (H w) as (e & E & K). exists [e]. split; [exact E|].
  now constructor.
Qed.

(** A step that adds nothing. *)
Lemma emits_none {A} ks (c : M A) :
  (forall w, trace (snd (c w)) = trace w) -> emits ks c.
Proof.
  intros H w. exists []. rewrite H. split; [symmetry; apply app_nil_r | constructor].
Qed.

(** A choice made on the world. *)
Lemma emits_if {A} ks (b : World -> bool) (c1 c2 : M A) :
  emits ks c1 -> emits ks c2 -> emits ks (fun w => if b w then c1 w else c2 w).
Proof. intros H1 H2 w. destruct (b w); [apply H1 | apply H2]. Qed.

Lemma emits_print ks m : (forall t, kind (EvPrint t m) ∈ ks) -> emits ks (print m).
Proof. intros H. apply emits_one. intros w. exists (EvPrint (now w) m). split; [reflexivity | apply H]. Qed.

Lemma emits_sleep ks secs : KEngine ∈ ks -> emits ks (time_sleep secs).
Proof. intros H. apply emits_one. intros w. exists (EvSleep secs). now split. Qed.

Lemma emits_time ks : emits ks time_time.
Proof. now apply emits_none. Qed.

Lemma settles_ret {A} (a : A) : settles (ret a).
Proof. intros w. discriminate. Qed.

Lemma settles_bind {A B} (c : M A) (k : A -> M B) :
  settles c -> (forall a, settles (k a)) -> settles (bind c k).
Proof.
  intros Hc Hk w. unfold bind. specialize (Hc w).
  destruct (c w) as [[a| |] w1]; cbn [fst] in *; [apply Hk | discriminate | now destruct Hc].
Qed.

Lemma settles_try {A} (c : M A) (h : Exn -> M A) :
  settles c -> (forall e, settles (h e)) -> settles (try_except c h).
Proof.
  intros Hc Hh w. unfold try_except. specialize (Hc w).
  destruct (c w) as [[a|e|] w1]; cbn [fst] in *; [discriminate | apply Hh | now destruct Hc].
Qed.

Lemma settles_if {A} (b : World -> bool) (c1 c2 : M A) :
  settles c1 -> settles c2 -> settles (fun w => if b w then c1 w else c2 w).
Proof. intros H1 H2 w. destruct (b w); [apply H1 | apply H2]. Qed.

(** A step that returns a value in every world. *)
Lemma settles_ok {A} (c : M A) :
  (forall w, exists a w', c w = (Ok a, w')) -> settles c.
Proof. intros H w. destruct (H w) as (a & w' & ->). discriminate. Qed.

Lemma settles_print m : settles (print m).
Proof. intros w. discriminate. Qed.

Lemma emits_at {A} (ks : list Kind) (c : M A) w :
  emits ks c ->
  exists evs, trace (snd (c w)) = trace w ++ evs /\ Forall (fun e => kind e ∈ ks) evs.
Proof. intros H. apply H. Qed.

(** A world left as it is. *)
Lemma emits_here {A} (ks : list Kind) (r : Res A) w :
  exists evs, trace (snd (r, w)) = trace w ++ evs /\ Forall (fun e => kind e ∈ ks) evs.
Proof. exists []. split; [symmetry; apply app_nil_r | constructor]. Qed.

(** Membership of a kind, or inclusion of kinds, in a list of kinds. *)
Ltac kinds :=
  intros; cbn;
  try match goal with K : _ ⊆ ?ks |- _ ⊆ ?ks => etrans; [|exact K] end;
  try match goal with K : _ ⊆ ?ks |- _ ∈ ?ks => apply K end;
  try (let x := fresh in intros x);
  rewrite ?elem_of_cons, ?elem_of_nil; intuition auto.

Ltac emits_step :=
  lazymatch goal with
  | |- emits _ (ret _) => apply emits_ret
  | |- emits _ (raise _) => apply emits_raise
  | |- emits _ time_time => apply emits_time
  | |- emits _ (print _) => apply emits_print; kinds
  | |- emits _ (time_sleep _) => apply emits_sleep; kinds
  | |- emits _ (bind _ _) => apply emits_bind; [|intros ?]
  | |- emits _ (try_except _ _) => apply emits_try; [|intros ?]
  end.

Ltac emits_steps := repeat emits_step.

Lemma emits_post_request ks method params :
  [KEngine] ⊆ ks -> emits ks (post_request method params).
Proof.
  intros K. apply emits_one. intros w. exists (EvPost (now w) method params).
  unfold post_request. destruct (verdict _); (split; [reflexivity | kinds]).
Qed.

Lemma emits_aria2_attempts ks method params retries attempts :
  [KEngine] ⊆ ks -> emits ks (aria2_attempts method params retries attempts).
Proof.
  intros K. induction attempts as [|a rest IH]; cbn [aria2_attempts]; [apply emits_ret|].
  apply emits_try.
  - apply emits_bind; [now apply emits_post_request | intros ?; emits_steps].
  - intros e. destruct (a =? retries - 1)%nat; emits_steps. exact IH.
Qed.

Lemma emits_aria2_call_n ks method params retries :
  [KEngine] ⊆ ks -> emits ks (aria2_call_n method params retries).
Proof.
  intros K w. unfold aria2_call_n.
  destruct (emits_aria2_attempts ks method params retries (seq 0 retries) K
              (log (EvCall (now w) method params) w)) as (evs & E & F).
  exists (EvCall (now w) method params :: evs). split.
  - rewrite E. cbn [trace log]. now rewrite <- app_assoc.
  - constructor; [kinds | exact F].
Qed.

Lemma emits_aria2_call ks method params :
  [KEngine] ⊆ ks -> emits ks (aria2_call method params).
Proof. apply emits_aria2_call_n. Qed.

Lemma emits_get_torrent_files_t ks gid timeout :
  [KEngine] ⊆ ks -> emits ks (get_torrent_files_t gid timeout).
Proof.
  intros K. unfold get_torrent_files_t. apply emits_bind; [apply emits_time|].
  intros start. generalize (Z.to_nat timeout) as fuel.
  induction fuel as [|fuel IH]; intros w; cbn [get_torrent_files_loop];
    destruct (now w - start <? timeout * 1000); try apply emits_here.
  apply emits_at. apply emits_bind.
  - unfold get_torrent_files_body. apply emits_bind; [now apply emits_aria2_call|].
    intros [[[st|]]|]; [destruct (default [] (files st))| |]; emits_steps.
  - intros [fl|[]]; [apply emits_ret | exact IH].
Qed.

Lemma emits_select_each ks gid selected indices :
  [KEngine] ⊆ ks -> emits ks (select_each gid selected indices).
Proof.
  intros K. induction indices as [|i rest IH]; cbn [select_each]; [apply emits_ret|].
  apply emits_bind; [now apply emits_aria2_call | intros _; exact IH].
Qed.

Lemma emits_apply_file_selection ks gid selected :
  [KEngine; KSubmit] ⊆ ks -> emits ks (apply_file_selection gid selected).
Proof.
  intros K. unfold apply_file_selection.
  apply emits_bind; [apply emits_print; kinds|]. intros _.
  apply emits_bind; [apply emits_get_torrent_files_t; kinds|].
  intros [|f fl].
  - apply emits_bind; [apply emits_print; kinds|]. intros _.
    apply emits_bind; [apply emits_aria2_call; kinds | intros ?; emits_steps].
  - apply emits_bind; [apply emits_select_each; kinds|]. intros _.
    apply emits_bind; [apply emits_print; kinds|]. intros _.
    apply emits_bind; [apply emits_aria2_call; kinds | intros ?; emits_steps].
Qed.

Lemma emits_add_magnet_link ks magnet_uri :
  [KEngine; KSubmit] ⊆ ks -> emits ks (add_magnet_link magnet_uri).
Proof.
  intros K. unfold add_magnet_link. apply emits_try; [|intros ?; emits_steps].
  apply emits_bind; [apply emits_aria2_call; kinds | intros ?; emits_steps].
Qed.

Lemma emits_add_torrent_file ks torrent_path selected :
  [KEngine; KSubmit] ⊆ ks -> emits ks (add_torrent_file torrent_path selected).
Proof.
  intros K. unfold add_torrent_file. apply emits_try; [|intros ?; emits_steps].
  apply emits_bind.
  { apply emits_none. intros w. unfold open_read.
    destruct (node_at _ w) as [n|]; [destruct (is_dir n)|]; reflexivity. }
  intros _. apply emits_bind; [apply emits_aria2_call; kinds|]. intros r.
  apply emits_bind; [|intros ?; emits_steps].
  destruct (truthy _ && _); [now apply emits_apply_file_selection | apply emits_ret].
Qed.

Lemma emits_monitor_download ks gid name timeout :
  [KEngine; KMonitor; KEnding] ⊆ ks -> emits ks (monitor_download gid name timeout).
Proof.
  intros K. unfold monitor_download.
  apply emits_bind; [apply emits_print; kinds|]. intros _.
  apply emits_bind; [apply emits_time|]. intros start.
  generalize start at 2 as last. generalize (Z.to_nat timeout) as fuel.
  induction fuel as [|fuel IH]; intros last w; cbn [monitor_loop];
    destruct (now w - start <? timeout * 1000); try apply emits_here;
    apply emits_at; emits_steps.
  - unfold monitor_body. apply emits_bind; [apply emits_aria2_call; kinds|].
    intros [[[st|]]|]; cbn [monitor_react]; [|emits_steps..].
    apply emits_bind; [apply emits_time|]. intros t.
    apply emits_bind; [destruct (_ && _); emits_steps|]. intros last'.
    destruct (String.eqb _ "complete"); [|destruct (_ || _)]; emits_steps.
    apply emits_none. reflexivity.
  - destruct a as [d|last']; [apply emits_ret | apply IH].
Qed.

Lemma emits_subprocess_run ks cmd : [KExtract] ⊆ ks -> emits ks (subprocess_run cmd).
Proof.
  intros K. apply emits_one. intros w. exists (EvRun cmd).
  unfold subprocess_run. destruct (run_exit _); (split; [reflexivity | kinds]).
Qed.

Lemma emits_exists_and_big ks p : emits ks (exists_and_big p).
Proof. apply emits_none. intros w. now rewrite exists_and_big_spec. Qed.

Lemma emits_extract_subtitles ks video :
  [KExtract] ⊆ ks -> emits ks (extract_subtitles video).
Proof.
  intros K w. unfold extract_subtitles.
  destruct (path_exists video w); cbn [negb]; [apply emits_at | apply emits_here].
  apply emits_bind; [apply emits_print; kinds|]. intros _.
  apply emits_bind.
  - induction languages as [|lang rest IH]; cbn [try_languages]; [apply emits_ret|].
    apply emits_bind.
    + unfold try_language. apply emits_try; [|intros ?; emits_steps].
      apply emits_bind; [now apply emits_subprocess_run|]. intros rc.
      apply emits_bind; [destruct (rc =? 0); [apply emits_exists_and_big | apply emits_ret]|].
      intros [|]; emits_steps.
    + intros [|]; [apply emits_ret | exact IH].
  - intros [|s r]; [|apply emits_ret].
    unfold try_fallback. apply emits_try; [|intros ?; emits_steps].
    apply emits_bind; [now apply emits_subprocess_run|]. intros rc w1.
    destruct (_ && _); [apply emits_at; emits_steps | apply emits_here].
Qed.

Lemma emits_shutil_move ks src dst : [KMove] ⊆ ks -> emits ks (shutil_move src dst).
Proof.
  intros K. apply emits_one. intros w. exists (EvMove src dst).
  split; [|kinds]. unfold shutil_move.
  destruct (_ && String.eqb src dst); [reflexivity|].
  destruct (_ && path_exists _ _); [reflexivity|].
  destruct (node_at src _); reflexivity.
Qed.

Lemma emits_move_subtitles ks subtitles :
  [KMove] ⊆ ks -> emits ks (move_subtitles subtitles).
Proof.
  intros K. induction subtitles as [|sub rest IH]; cbn [move_subtitles];
    [apply emits_ret|].
  apply emits_bind; [|intros _; exact IH].
  intros w. destruct (path_exists sub w);
    [apply emits_at; now apply emits_shutil_move | apply emits_here].
Qed.

Lemma emits_path_getsize ks p : emits ks (path_getsize p).
Proof.
  apply emits_none. intros w. unfold path_getsize. now destruct (node_at p w).
Qed.

Lemma emits_process_file ks f :
  [KExtract; KMove; KProcess] ⊆ ks -> emits ks (process_file f).
Proof.
  intros K w. unfold process_file.
  destruct (path_exists f w); cbn [negb]; [apply emits_at | apply emits_here].
  apply emits_bind; [apply emits_path_getsize|]. intros sz.
  apply emits_bind; [apply emits_print; kinds|]. intros _.
  apply emits_bind; [|intros _; apply emits_shutil_move; kinds].
  destruct (is_video f); [|apply emits_ret].
  apply emits_bind; [apply emits_extract_subtitles; kinds|].
  intros subs. apply emits_move_subtitles; kinds.
Qed.

Lemma emits_process_each ks files :
  [KExtract; KMove; KProcess] ⊆ ks -> emits ks (process_each files).
Proof.
  intros K. induction files as [|f rest IH]; cbn [process_each]; [apply emits_ret|].
  apply emits_bind; [now apply emits_process_file | intros _; exact IH].
Qed.

Lemma emits_process_downloaded_files ks files name :
  [KExtract; KMove; KProcess; KDone] ⊆ ks ->
  emits ks (process_downloaded_files files name).
Proof.
  intros K. unfold process_downloaded_files.
  apply emits_bind; [apply emits_print; kinds|]. intros _.
  apply emits_bind; [apply emits_process_each; kinds|]. intros _.
  apply emits_print; kinds.
Qed.

Lemma emits_submit_item ks item selected :
  [KEngine; KSubmit; KItem] ⊆ ks -> emits ks (submit_item item selected).
Proof.
  intros K w. unfold submit_item.
  destruct (_ && _); [|destruct (startswith _ _)]; apply emits_at.
  - apply emits_bind; [apply emits_add_torrent_file; kinds | intros ?; emits_steps].
  - apply emits_bind; [apply emits_add_magnet_link; kinds | intros ?; emits_steps].
  - emits_steps.
Qed.

(** X13.  The parts of the program keep apart.  The submission of an item
    leaves only engine events (calls, requests, sleeps) and its own
    prints; the monitor leaves only engine events, its progress prints and
    the print that ends the session; the extraction of subtitles leaves
    only runs of ffmpeg and its prints; the post-processing leaves only
    those, moves and its own prints.  So nothing but the post-processing
    runs ffmpeg or moves a file, the post-processing never talks to the
    engine nor sleeps, and only the monitor prints the end of a
    session. *)
Theorem stages_keep_apart :
  (forall item selected_files,
      emits [KEngine; KSubmit; KItem] (submit_item item selected_files)) /\
  (forall gid name timeout,
      emits [KEngine; KMonitor; KEnding] (monitor_download gid name timeout)) /\
  (forall video_path, emits [KExtract] (extract_subtitles video_path)) /\
  (forall files name,
      emits [KExtract; KMove; KProcess; KDone]
        (process_downloaded_files files name)).
Proof.
  split; [|split; [|split]]; intros.
  - apply emits_submit_item; kinds.
  - apply emits_monitor_download; kinds.
  - apply emits_extract_subtitles; kinds.
  - apply emits_process_downloaded_files; kinds.
Qed.

(** ** The program always ends *)

Lemma settles_aria2_call method params : settles (aria2_call method params).
Proof.
  apply settles_ok. intros w.
  destruct (aria2_call_talks method params w) as (r & w' & _ & E & _). eauto.
Qed.

Lemma settles_apply_file_selection gid selected :
  settles (apply_file_selection gid selected).
Proof.
  apply settles_ok. intros w.
  destruct (apply_file_selection_run gid selected w)
    as (_ & _ & w' & _ & _ & _ & E & _). eauto.
Qed.

Lemma settles_monitor_download gid name timeout :
  settles (monitor_download gid name timeout).
Proof.
  apply settles_ok. intros w.
  destruct (monitor_download_run gid name timeout w) as (d & w' & _ & E & _). eauto.
Qed.

Lemma settles_add_magnet_link magnet_uri : settles (add_magnet_link magnet_uri).
Proof.
  unfold add_magnet_link. apply settles_try.
  - apply settles_bind; [apply settles_aria2_call | intros; apply settles_ret].
  - intros e. apply settles_bind; [apply settles_print | intros; apply settles_ret].
Qed.

Lemma settles_add_torrent_file torrent_path selected :
  settles (add_torrent_file torrent_path selected).
Proof.
  unfold add_torrent_file. apply settles_try.
  - apply settles_bind.
    { intros w. rewrite open_read_spec. now destruct (path_isfile _ w). }
    intros _. apply settles_bind; [apply settles_aria2_call|]. intros r.
    apply settles_bind; [|intros; apply settles_ret].
    destruct (truthy _ && _); [apply settles_apply_file_selection | apply settles_ret].
  - intros e. apply settles_bind; [apply settles_print | intros; apply settles_ret].
Qed.

Lemma settles_subprocess_run cmd : settles (subprocess_run cmd).
Proof. intros w. unfold subprocess_run. now destruct (run_exit _). Qed.

Lemma settles_try_languages video base langs :
  settles (try_languages video base langs).
Proof.
  induction langs as [|lang rest IH]; cbn [try_languages]; [apply settles_ret|].
  apply settles_bind.
  - intros w. rewrite try_language_spec. cbn zeta. now destruct (_ && _).
  - intros [|]; [apply settles_ret | exact IH].
Qed.

Lemma settles_extract_subtitles video : settles (extract_subtitles video).
Proof.
  intros w. unfold extract_subtitles.
  destruct (path_exists video w); cbn [negb]; [|discriminate].
  revert w. apply settles_bind; [apply settles_print|]. intros _.
  apply settles_bind; [apply settles_try_languages|].
  intros [|s r]; [|apply settles_ret].
  intros w. rewrite try_fallback_spec. cbn zeta.
  destruct (run_exit _); [destruct (_ && _)|]; discriminate.
Qed.

Lemma settles_shutil_move src dst : settles (shutil_move src dst).
Proof.
  intros w. unfold shutil_move.
  destruct (_ && String.eqb src dst); [discriminate|].
  destruct (_ && path_exists _ _); [discriminate|].
  now destruct (node_at src _).
Qed.

Lemma settles_move_subtitles subtitles : settles (move_subtitles subtitles).
Proof.
  induction subtitles as [|sub rest IH]; cbn [move_subtitles]; [apply settles_ret|].
  apply settles_bind; [|intros _; exact IH].
  intros w. destruct (path_exists sub w); [apply settles_shutil_move | discriminate].
Qed.

Lemma settles_process_file f : settles (process_file f).
Proof.
  intros w. unfold process_file.
  destruct (path_exists f w); cbn [negb]; [|discriminate].
  revert w. apply settles_bind.
  { intros w. unfold path_getsize. now destruct (node_at f w). }
  intros sz. apply settles_bind; [apply settles_print|]. intros _.
  apply settles_bind; [|intros _; apply settles_shutil_move].
  destruct (is_video f); [|apply settles_ret].
  apply settles_bind; [apply settles_extract_subtitles|].
  intros subs. apply settles_move_subtitles.
Qed.

Lemma settles_process_each files : settles (process_each files).
Proof.
  induction files as [|f rest IH]; cbn [process_each]; [apply settles_ret|].
  apply settles_bind; [apply settles_process_file | intros _; exact IH].
Qed.

Lemma settles_submit_item item selected : settles (submit_item item selected).
Proof.
  intros w. unfold submit_item.
  destruct (_ && _); [|destruct (startswith _ _)]; revert w.
  - apply settles_bind; [apply settles_add_torrent_file | intros; apply settles_ret].
  - apply settles_bind; [apply settles_add_magnet_link | intros; apply settles_ret].
  - apply settles_bind; [apply settles_print | intros; apply settles_ret].
Qed.

(** [submit_item] returns at once only to say [False]. *)
Lemma submit_item_return item selected w b w' :
  submit_item item selected w = (Ok (Return b), w') -> b = false.
Proof.
  unfold submit_item, bind, print, ret.
  destruct (_ && _); [|destruct (startswith _ _)].
  - destruct (add_torrent_file _ _ w) as [[g| |] w1]; discriminate.
  - destruct (add_magnet_link _ w) as [[g| |] w1]; discriminate.
  - congruence.
Qed.

(** ** What the kinds of the events say about the trace *)

Lemma kinds_endings (ks : list Kind) evs :
  KEnding ∉ ks -> Forall (fun e => kind e ∈ ks) evs -> endings evs = [].
Proof.
  intros Hk. induction 1 as [|e evs He _ IH]; [reflexivity|].
  change (e :: evs) with ([e] ++ evs). rewrite endings_app, IH, app_nil_r.
  assert (N : kind e <> KEnding) by congruence.
  destruct e as [| | |t m| |]; try reflexivity.
  destruct m; try reflexivity; now destruct N.
Qed.

Lemma kinds_not (ks : list Kind) k evs :
  k ∉ ks -> Forall (fun e => kind e ∈ ks) evs -> Forall (fun e => kind e <> k) evs.
Proof. intros Hk H. eapply Forall_impl; [exact H|]. cbn. congruence. Qed.

(** A kind that is not in a list of kinds. *)
Ltac not_kind :=
  rewrite ?not_elem_of_cons; repeat split; try discriminate; apply not_elem_of_nil.

(** The post-processing that returns ends with "completed processing";
    the one that raises never prints it. *)
Lemma process_downloaded_files_ok files name w w' :
  process_downloaded_files files name w = (Ok tt, w') ->
  exists evs t,
    trace w' = trace w ++ evs ++ [EvPrint t (MsgProcessed name)] /\
    Forall (fun e => kind e ∈ [KExtract; KMove; KProcess]) evs.
Proof.
  unfold process_downloaded_files. intros H.
  apply bind_ok in H as ([] & w1 & E1 & H). injection E1 as <-.
  apply bind_ok in H as ([] & w2 & E2 & H). injection H as <-.
  destruct (emits_process_each [KExtract; KMove; KProcess] files
              ltac:(kinds) (printed (MsgProcessing (length files) name) w))
    as (evs & E & F).
  rewrite E2 in E. cbn [snd] in E.
  exists (EvPrint (now w) (MsgProcessing (length files) name) :: evs), (now w2).
  split.
  - change (trace (printed (MsgProcessed name) w2))
      with (trace w2 ++ [EvPrint (now w2) (MsgProcessed name)]).
    rewrite E. cbn [trace printed log]. now rewrite <- !app_assoc.
  - constructor; [kinds | exact F].
Qed.

Lemma process_downloaded_files_raise files name w e w' :
  process_downloaded_files files name w = (Raise e, w') ->
  exists evs,
    trace w' = trace w ++ evs /\
    Forall (fun e => kind e ∈ [KExtract; KMove; KProcess]) evs.
Proof.
  unfold process_downloaded_files, bind, print. intros H.
  destruct (emits_process_each [KExtract; KMove; KProcess] files
              ltac:(kinds) (printed (MsgProcessing (length files) name) w))
    as (evs & E & F).
  destruct (process_each files _) as [[[]|e'|] w1]; try discriminate.
  injection H as _ <-. cbn [snd] in E.
  exists (EvPrint (now w) (MsgProcessing (length files) name) :: evs).
  split; [rewrite E; cbn [trace printed log]; now rewrite <- app_assoc|].
  constructor; [kinds | exact F].
Qed.

Lemma settles_process_downloaded_files files name :
  settles (process_downloaded_files files name).
Proof.
  unfold process_downloaded_files.
  apply settles_bind; [apply settles_print|]. intros _.
  apply settles_bind; [apply settles_process_each | intros _; apply settles_print].
Qed.

(** ** One item, from submission to post-processing *)

(** The second half of [download_item]: after [True] the session ended
    with "completed" and the last event is "completed processing";
    otherwise "completed processing" was never printed. *)
Lemma watch_item_run gid name w :
  match watch_item gid name w with
  | (Ok b, w') =>
      exists evs,
        trace w' = trace w ++ evs /\
        if b
        then endings evs = [MsgCompleted name] /\
             exists pre t, evs = pre ++ [EvPrint t (MsgProcessed name)]
        else Forall (fun e => kind e <> KDone) evs
  | (Raise _, w') =>
      exists evs, trace w' = trace w ++ evs /\
                  Forall (fun e => kind e <> KDone) evs
  | (Exhausted, _) => False
  end.
Proof.
  assert (Here : exists evs : list Event,
             trace w = trace w ++ evs /\ Forall (fun e => kind e <> KDone) evs)
    by (exists []; split; [symmetry; apply app_nil_r | constructor]).
  unfold watch_item. destruct gid as [g|]; [|exact Here].
  destruct (String.eqb g ""); [exact Here|]. unfold bind.
  destruct (monitor_download_run g name 600 w)
    as (d & w2 & em & E & T & _ & _ & _ & _ & O).
  destruct (emits_monitor_download [KEngine; KMonitor; KEnding] g name 600
              ltac:(kinds) w) as (em' & E' & F').
  rewrite E in *. cbn [snd] in E'.
  rewrite (talks_trace _ _ _ T) in E'. apply app_inv_head in E'. subst em'.
  assert (Fm : Forall (fun e => kind e <> KDone) em)
    by (eapply kinds_not; [|exact F']; not_kind).
  destruct d as [|f rest].
  { exists em. split; [apply (talks_trace _ _ _ T) | exact Fm]. }
  assert (Om : endings em = [MsgCompleted name]).
  { destruct O as [[O _]|[[_ O]|[_ [O _]]]]; [exact O | discriminate..]. }
  pose proof (settles_process_downloaded_files (f :: rest) name w2) as S.
  destruct (process_downloaded_files (f :: rest) name w2) as [[[]|e|] w3] eqn:P;
    cbn [fst] in S.
  - apply process_downloaded_files_ok in P as (ep & t & Ep & Fp).
    exists (em ++ ep ++ [EvPrint t (MsgProcessed name)]).
    split; [rewrite Ep, (talks_trace _ _ _ T); now rewrite <- app_assoc|].
    split.
    + rewrite !endings_app, Om.
      rewrite (kinds_endings [KExtract; KMove; KProcess] ep ltac:(not_kind) Fp). reflexivity.
    + exists (em ++ ep), t. now rewrite <- app_assoc.
  - apply process_downloaded_files_raise in P as (ep & Ep & Fp).
    exists (em ++ ep).
    split; [rewrite Ep, (talks_trace _ _ _ T); now rewrite <- app_assoc|].
    apply Forall_app. split; [exact Fm|].
    eapply kinds_not; [|exact Fp]. not_kind.
  - now destruct S.
Qed.

(** What [download_item] does, whatever the item and the world: it
    returns, and it returns [True] only after a session that ended with
    "completed" and a post-processing that went to its end. *)
Lemma download_item_run item selected w :
  let name := item_name item w in
  exists b w' evs,
    download_item item selected w = (Ok b, w') /\
    trace w' = trace w ++ evs /\
    (b = true ->
     endings evs = [MsgCompleted name] /\
     exists t, last evs = Some (EvPrint t (MsgProcessed name))) /\
    (b = false -> Forall (fun e => kind e <> KDone) evs).
Proof.
  intros name. set (w0 := printed (MsgStarting name) w).
  set (body := bind (submit_item item selected)
                 (fun s => match s with
                           | Return b => ret b
                           | Continue gid => watch_item gid name
                           end)).
  change (download_item item selected w)
    with (try_except body (fun e => bind (print (MsgDownloadFailed e))
                                      (fun _ => ret false)) w0).
  assert (T0 : forall w' evs, trace w' = trace w0 ++ evs ->
                 trace w' = trace w ++ EvPrint (now w) (MsgStarting name) :: evs).
  { intros w' evs ->. cbn [w0 trace printed log]. now rewrite <- app_assoc. }
  assert (Body :
    match body w0 with
    | (Ok b, w') =>
        exists evs,
          trace w' = trace w0 ++ evs /\
          if b
          then endings evs = [MsgCompleted name] /\
               exists pre t, evs = pre ++ [EvPrint t (MsgProcessed name)]
          else Forall (fun e => kind e <> KDone) evs
    | (Raise _, w') =>
        exists evs, trace w' = trace w0 ++ evs /\
                    Forall (fun e => kind e <> KDone) evs
    | (Exhausted, _) => False
    end).
  { unfold body, bind.
    destruct (emits_submit_item [KEngine; KSubmit; KItem] item selected
                ltac:(kinds) w0) as (e1 & E1 & F1).
    pose proof (settles_submit_item item selected w0) as S1.
    assert (N1 : Forall (fun e => kind e <> KDone) e1)
      by (eapply kinds_not; [|exact F1]; not_kind).
    assert (Q1 : endings e1 = []) by (apply (kinds_endings [KEngine; KSubmit; KItem] e1 ltac:(not_kind) F1)).
    destruct (submit_item item selected w0) as [[s|e|] w1] eqn:Sub;
      cbn [fst snd] in *; [|now exists e1 | now destruct S1].
    destruct s as [b|gid].
    - apply submit_item_return in Sub as ->. now exists e1.
    - pose proof (watch_item_run gid name w1) as W.
      destruct (watch_item gid name w1) as [[b|e|] w2]; [| |exact W].
      + destruct W as (e2 & E2 & H2). exists (e1 ++ e2).
        split; [rewrite E2, E1; now rewrite <- app_assoc|].
        destruct b.
        * destruct H2 as (Q2 & pre & t & ->). split.
          -- now rewrite endings_app, Q1, Q2.
          -- exists (e1 ++ pre), t. now rewrite <- app_assoc.
        * apply Forall_app. now split.
      + destruct W as (e2 & E2 & H2). exists (e1 ++ e2).
        split; [rewrite E2, E1; now rewrite <- app_assoc|].
        apply Forall_app. now split. }
  unfold try_except. destruct (body w0) as [[b|e|] w1]; [| |contradiction].
  - destruct Body as (evs & E & H).
    exists b, w1, (EvPrint (now w) (MsgStarting name) :: evs).
    split; [reflexivity|]. split; [now apply T0|]. split.
    + intros ->. destruct H as (Q & pre & t & ->). split; [exact Q|].
      exists t. change (last ((EvPrint (now w) (MsgStarting name) :: pre)
                               ++ [EvPrint t (MsgProcessed name)]) = Some (EvPrint t (MsgProcessed name))).
      apply last_snoc.
    + intros ->. constructor; [discriminate | exact H].
  - destruct Body as (evs & E & H).
    exists false, (printed (MsgDownloadFailed e) w1),
      (EvPrint (now w) (MsgStarting name)
         :: evs ++ [EvPrint (now w1) (MsgDownloadFailed e)]).
    split; [reflexivity|]. split.
    + apply T0. cbn [trace printed log]. rewrite E. now rewrite <- app_assoc.
    + split; [discriminate|]. intros _.
      constructor; [discriminate|]. apply Forall_app. split; [exact H|].
      constructor; [discriminate | constructor].
Qed.

(** X14.  [download_item] never raises and never hangs: whatever the item,
    the selection, the answers of the engine, the runs of ffmpeg and the
    disk, it returns [True] or [False]. *)
Theorem download_item_returns (item : string)
    (selected_files : option (list Z)) (w : World) :
  exists b w', download_item item selected_files w = (Ok b, w').
Proof.
  destruct (download_item_run item selected_files w) as (b & w' & _ & E & _).
  now exists b, w'.
Qed.

(** X15.  [download_item] returns [True] exactly when the post-processing
    went to its end: after [True] the session ended with "completed", no
    other ending was printed, and "completed processing" is the last
    thing printed; after [False] "completed processing" was not
    printed. *)
Theorem download_item_true_iff_processed (item : string)
    (selected_files : option (list Z)) (w : World) :
  let name := item_name item w in
  exists b w' evs,
    download_item item selected_files w = (Ok b, w') /\
    trace w' = trace w ++ evs /\
    (b = true <-> Exists (fun e => kind e = KDone) evs) /\
    (b = true ->
     endings evs = [MsgCompleted name] /\
     exists t, last evs = Some (EvPrint t (MsgProcessed name))).
Proof.
  intros name.
  destruct (download_item_run item selected_files w)
    as (b & w' & evs & E & T & Ht & Hf).
  exists b, w', evs. split; [exact E|]. split; [exact T|]. split; [|exact Ht].
  split.
  - intros Hb. destruct (Ht Hb) as (_ & t & L).
    apply Exists_exists. exists (EvPrint t (MsgProcessed name)).
    split; [|reflexivity]. apply last_Some_elem_of, L.
  - intros Hex. destruct b; [reflexivity|].
    specialize (Hf eq_refl). apply Exists_exists in Hex as (e & Hin & Hk).
    rewrite Forall_forall in Hf. now destruct (Hf e Hin).
Qed.

(** ** Subtitle extraction, whatever the video and the world *)

Lemma str_app_assoc (a b c : string) : ((a ++ b) ++ c)%string = (a ++ b ++ c)%string.
Proof. induction a as [|x a IH]; [reflexivity | exact (f_equal (String x) IH)]. Qed.

Lemma lower_app (a b : string) : lower (a ++ b) = (lower a ++ lower b)%string.
Proof.
  induction a as [|x a IH];
    [reflexivity | exact (f_equal (String (lower_char x)) IH)].
Qed.

Lemma list_ascii_of_string_app (a b : string) :
  list_ascii_of_string (a ++ b) = list_ascii_of_string a ++ list_ascii_of_string b.
Proof. induction a as [|x a IH]; [reflexivity | exact (f_equal (cons x) IH)]. Qed.

Lemma string_of_list_ascii_app (l1 l2 : list ascii) :
  string_of_list_ascii (l1 ++ l2)
  = (string_of_list_ascii l1 ++ string_of_list_ascii l2)%string.
Proof. induction l1 as [|x l1 IH]; [reflexivity | exact (f_equal (String x) IH)]. Qed.

Lemma str_rev_app (a b : string) : str_rev (a ++ b) = (str_rev b ++ str_rev a)%string.
Proof.
  unfold str_rev.
  now rewrite list_ascii_of_string_app, rev_app_distr, string_of_list_ascii_app.
Qed.

(** A name that ends in [.srt] is not the name of a video. *)
Lemma srt_not_video (x : string) : is_video (x ++ ".srt") = false.
Proof.
  unfold is_video, endswith. rewrite lower_app, str_rev_app. reflexivity.
Qed.

Lemma subtitle_output_srt base p :
  p ∈ subtitle_outputs base -> exists x, p = (x ++ ".srt")%string.
Proof.
  unfold subtitle_outputs, languages, language_output, fallback_output.
  cbn [map app]. rewrite !elem_of_cons, elem_of_nil.
  intros [-> | [-> | [-> | [-> | [-> | []]]]]];
    [exists (base ++ ".fre")%string | exists (base ++ ".fra")%string
    | exists (base ++ ".fr")%string | exists (base ++ ".french")%string
    | exists base]; rewrite ?str_app_assoc; reflexivity.
Qed.

Lemma subtitle_output_not_video base p :
  p ∈ subtitle_outputs base -> is_video p = false.
Proof. intros H. apply subtitle_output_srt in H as (x & ->). apply srt_not_video. Qed.

Lemma language_output_in base l :
  l ∈ languages -> language_output base l ∈ subtitle_outputs base.
Proof.
  unfold subtitle_outputs, languages. cbn [map app].
  rewrite !elem_of_cons, elem_of_nil.
  intros [-> | [-> | [-> | [-> | []]]]]; auto 10.
Qed.

Lemma fallback_output_in base : fallback_output base ∈ subtitle_outputs base.
Proof.
  unfold subtitle_outputs, languages. cbn [map app].
  rewrite !elem_of_cons. auto 10.
Qed.

Lemma not_subtitle_output base p :
  p ∉ subtitle_outputs base ->
  (p ∉ map (language_output base) languages) /\ p <> fallback_output base.
Proof.
  unfold subtitle_outputs. rewrite elem_of_app, list_elem_of_singleton. tauto.
Qed.

Lemma language_cmds_outputs video base ls :
  Forall (fun l => l ∈ languages) ls ->
  Forall (fun cmd => List.last cmd "" ∈ subtitle_outputs base)
    (map (language_cmd video base) ls).
Proof.
  induction 1 as [|l ls Hl _ IH]; cbn [map]; constructor; [|exact IH].
  now apply language_output_in.
Qed.

Lemma big_file_exists p w : big_file p w = true -> path_exists p w = true.
Proof. unfold big_file, path_exists. now destruct (node_at p w). Qed.

(** What [extract_subtitles] does, whatever the video and the world. *)
Lemma extract_subtitles_run video w :
  let outs := subtitle_outputs (splitext_root video) in
  exists r w' evs,
    extract_subtitles video w = (Ok r, w') /\
    trace w' = trace w ++ evs /\
    (length (commands evs) <= 5)%nat /\
    Forall (fun cmd => List.last cmd "" ∈ outs) (commands evs) /\
    (length r <= 1)%nat /\
    Forall (fun p => p ∈ outs /\ path_exists p w' = true) r /\
    (forall p, p ∉ outs -> node_at p w' = node_at p w) /\
    (path_exists video w = false -> w' = w /\ r = []).
Proof.
  cbn zeta. unfold extract_subtitles.
  destruct (path_exists video w) eqn:Hex; cbn [negb].
  2: { exists [], w, []. split; [reflexivity|]. split; [now rewrite app_nil_r|].
       split; [cbn; lia|]. split; [constructor|]. split; [cbn; lia|].
       split; [constructor|]. split; [reflexivity|]. now intros _. }
  unfold bind at 1. unfold print at 1.
  set (base := splitext_root video).
  set (w0 := printed (MsgExtracting (basename video)) w).
  destruct (try_languages_spec video base languages w0 (language_outputs_distinct base))
    as (r & w1 & evs & E & Hproc & Htr & _ & Hnode & Hcase).
  unfold bind. rewrite E.
  assert (Hnode' : forall p, p ∉ subtitle_outputs base -> node_at p w1 = node_at p w).
  { intros p Hp. apply not_subtitle_output in Hp as [Hp _]. now rewrite (Hnode p Hp). }
  assert (T0 : forall w' evs', trace w' = trace w1 ++ evs' ->
             trace w' = trace w ++ EvPrint (now w) (MsgExtracting (basename video))
                                  :: evs ++ evs').
  { intros w' evs' ->. rewrite Htr. cbn [w0 trace printed log].
    now rewrite <- !app_assoc. }
  destruct Hcase as [(pre & l & post & Hl & -> & Hc & Hr & Hx & Hpre)
                    | (-> & Hc & Hr & Hall)].
  - exists [language_output base l], w1,
      (EvPrint (now w) (MsgExtracting (basename video)) :: evs ++ []).
    assert (Hin : Forall (fun x => x ∈ languages) (pre ++ [l])).
    { apply Forall_forall. intros x. rewrite Hl, !elem_of_app, !elem_of_cons, elem_of_nil.
      tauto. }
    assert (Hlen : (length pre + 1 <= 4)%nat).
    { apply (f_equal length) in Hl. rewrite length_app in Hl. cbn in Hl. lia. }
    split; [reflexivity|].
    split; [apply T0; now rewrite app_nil_r|].
    rewrite app_nil_r.
    change (commands (EvPrint (now w) (MsgExtracting (basename video)) :: evs))
      with (commands evs).
    rewrite Hc. split; [rewrite length_map, length_app; cbn; lia|].
    split; [now apply language_cmds_outputs|].
    split; [cbn; lia|].
    split; [|split; [exact Hnode' | congruence]].
    constructor; [|constructor]. split.
    + apply language_output_in. rewrite Forall_forall in Hin. apply Hin.
      rewrite elem_of_app, list_elem_of_singleton. now right.
    + apply big_file_exists. unfold extracted_in in Hx.
      now apply andb_true_iff in Hx as [_ Hx].
  - rewrite try_fallback_spec. cbn zeta.
    set (w2 := after_run (fallback_cmd video base) w1).
    assert (Hall' : Forall (fun x => x ∈ languages) languages)
      by (now apply Forall_forall).
    assert (Hcmd : forall m,
      let evs' := EvPrint (now w) (MsgExtracting (basename video))
                    :: evs ++ EvRun (fallback_cmd video base) :: m in
      commands m = [] ->
      (length (commands evs') <= 5)%nat /\
      Forall (fun cmd => List.last cmd "" ∈ subtitle_outputs base) (commands evs')).
    { intros m evs' Hm. subst evs'.
      change (commands (EvPrint (now w) (MsgExtracting (basename video))
                          :: evs ++ EvRun (fallback_cmd video base) :: m))
        with (commands (evs ++ [EvRun (fallback_cmd video base)] ++ m)).
      rewrite !commands_app, Hc, Hm, app_nil_r.
      change (commands [EvRun (fallback_cmd video base)])
        with [fallback_cmd video base].
      split; [rewrite length_app, length_map; cbn; lia|].
      apply Forall_app. split; [now apply language_cmds_outputs|].
      constructor; [apply fallback_output_in | constructor]. }
    assert (Hnode2 : forall p w', fs w' = fs w2 -> p ∉ subtitle_outputs base ->
                       node_at p w' = node_at p w).
    { intros p w' Hfs Hp. rewrite (node_at_fs p w2 w' Hfs), <- (Hnode' p Hp).
      apply after_run_node. now apply not_subtitle_output in Hp as [_ Hp]. }
    destruct (run_exit (proc w1 (runs w1))) as [rc|e].
    + destruct ((rc =? 0) && path_exists (fallback_output base) w2) eqn:Hok.
      * apply andb_true_iff in Hok as [_ Hok].
        destruct (Hcmd [EvPrint (now w2) MsgExtractedFirst] eq_refl) as [C1 C2].
        exists [fallback_output base], (printed MsgExtractedFirst w2),
          (EvPrint (now w) (MsgExtracting (basename video)) :: evs
           ++ [EvRun (fallback_cmd video base); EvPrint (now w2) MsgExtractedFirst]).
        split; [reflexivity|].
        split; [apply T0; exact (eq_sym (app_assoc (trace w1) [_] [_]))|].
        split; [exact C1|]. split; [exact C2|]. split; [cbn; lia|].
        split; [|split; [intros p; now apply Hnode2 | congruence]].
        constructor; [|constructor]. split; [apply fallback_output_in | exact Hok].
      * destruct (Hcmd [] eq_refl) as [C1 C2].
        exists [], w2,
          (EvPrint (now w) (MsgExtracting (basename video)) :: evs
           ++ [EvRun (fallback_cmd video base)]).
        split; [reflexivity|]. split; [now apply T0|].
        split; [exact C1|]. split; [exact C2|]. split; [cbn; lia|].
        split; [constructor|]. split; [intros p; now apply Hnode2 | congruence].
    + destruct (Hcmd [EvPrint (now w2) MsgNoSubtitles] eq_refl) as [C1 C2].
      exists [], (printed MsgNoSubtitles w2),
        (EvPrint (now w) (MsgExtracting (basename video)) :: evs
         ++ [EvRun (fallback_cmd video base); EvPrint (now w2) MsgNoSubtitles]).
      split; [reflexivity|].
      split; [apply T0; exact (eq_sym (app_assoc (trace w1) [_] [_]))|].
      split; [exact C1|]. split; [exact C2|]. split; [cbn; lia|].
      split; [constructor|]. split; [intros p; now apply Hnode2 | congruence].
Qed.

(** X16.  Whatever the video and the world, [extract_subtitles] returns
    without raising, runs ffmpeg five times at most and returns at most
    one file, which is one of the five subtitle files of the video and is
    on disk when it returns.  Every run writes to one of those five files
    and nothing else on disk changes.  For a video that is not on disk it
    does nothing at all. *)
Theorem extract_subtitles_safe (video_path : string) (w : World) :
  let outs := subtitle_outputs (splitext_root video_path) in
  exists r w' evs,
    extract_subtitles video_path w = (Ok r, w') /\
    trace w' = trace w ++ evs /\
    (length (commands evs) <= 5)%nat /\
    Forall (fun cmd => List.last cmd "" ∈ outs) (commands evs) /\
    (length r <= 1)%nat /\
    Forall (fun p => p ∈ outs /\ path_exists p w' = true) r /\
    (forall p, p ∉ outs -> node_at p w' = node_at p w) /\
    (path_exists video_path w = false -> w' = w /\ r = []).
Proof. apply extract_subtitles_run. Qed.

(** X17.  Subtitle extraction never writes over a video: no run of ffmpeg
    has a video file (.mkv, .mp4, .avi, .mov, in any case) as its output,
    so every video on disk, the one being processed included, is after
    the extraction what it was before. *)
Theorem extract_subtitles_spares_videos (video_path : string) (w : World) :
  exists r w' evs,
    extract_subtitles video_path w = (Ok r, w') /\
    trace w' = trace w ++ evs /\
    Forall (fun cmd => is_video (List.last cmd "") = false) (commands evs) /\
    forall p, is_video p = true -> node_at p w' = node_at p w.
Proof.
  destruct (extract_subtitles_run video_path w)
    as (r & w' & evs & E & T & _ & C & _ & _ & N & _).
  exists r, w', evs. split; [exact E|]. split; [exact T|]. split.
  - eapply Forall_impl; [exact C|]. cbn. intros cmd.
    apply subtitle_output_not_video.
  - intros p Hp. apply N. intros Hin.
    apply subtitle_output_not_video in Hin. congruence.
Qed.

(** ** Moving the artifacts *)

Lemma relocated_nonempty src : relocated src <> "".
Proof.
  unfold relocated, path_join.
  destruct (startswith (basename (rstrip_slash src)) "/") eqn:H.
  - intros E. rewrite E in H. discriminate H.
  - discriminate.
Qed.

(** [shutil.move] into a directory in which the name is free. *)
Lemma shutil_move_into_dir src dst n w :
  let rd := path_join dst (basename (rstrip_slash src)) in
  path_isdir dst w = true -> src <> dst -> node_at src w = Some n ->
  path_exists rd w = false ->
  shutil_move src dst w
  = (Ok tt, with_fs (<[rd := n]> (delete src (fs w))) (log (EvMove src dst) w)).
Proof.
  cbn zeta. intros Hd Hne Hn Hfree. unfold shutil_move.
  change (path_isdir dst (log (EvMove src dst) w)) with (path_isdir dst w).
  rewrite Hd. cbn [andb].
  destruct (String.eqb_spec src dst) as [E|_]; [contradiction|].
  change (path_exists ?p (log (EvMove src dst) w)) with (path_exists p w).
  rewrite Hfree.
  change (node_at src (log (EvMove src dst) w)) with (node_at src w).
  now rewrite Hn.
Qed.

(** [shutil.move] into a directory in which the name is taken. *)
Lemma shutil_move_clash src dst w :
  let rd := path_join dst (basename (rstrip_slash src)) in
  path_isdir dst w = true -> src <> dst -> path_exists rd w = true ->
  shutil_move src dst w = (Raise (ShutilError rd), log (EvMove src dst) w).
Proof.
  cbn zeta. intros Hd Hne Htaken. unfold shutil_move.
  change (path_isdir dst (log (EvMove src dst) w)) with (path_isdir dst w).
  rewrite Hd. cbn [andb].
  destruct (String.eqb_spec src dst) as [E|_]; [contradiction|].
  change (path_exists ?p (log (EvMove src dst) w)) with (path_exists p w).
  now rewrite Htaken.
Qed.

(** The body of the loop on a file that is not a video, up to the move. *)
Lemma process_file_plain f n w :
  node_at f w = Some n -> is_video f = false ->
  process_file f w
  = shutil_move f OUTPUT_DIR
      (printed (MsgProcessingFile (basename f) (size n)) w).
Proof.
  intros Hn Hv. unfold process_file, path_exists. rewrite Hn. cbn [negb].
  unfold bind, path_getsize. rewrite Hn, Hv. reflexivity.
Qed.

(** A file that is not a video is moved as it is. *)
Lemma process_file_plain_run (file_path : string) (w : World) :
  path_exists file_path w = true ->
  is_video file_path = false ->
  file_path <> OUTPUT_DIR ->
  path_isdir OUTPUT_DIR w = true ->
  path_exists (relocated file_path) w = false ->
  exists w' sz,
    process_file file_path w = (Ok tt, w') /\
    node_at (relocated file_path) w' = node_at file_path w /\
    path_exists file_path w' = false /\
    (forall p, p <> file_path -> p <> relocated file_path ->
               node_at p w' = node_at p w) /\
    trace w' = trace w ++ [EvPrint (now w) (MsgProcessingFile (basename file_path) sz);
                           EvMove file_path OUTPUT_DIR].
Proof.
  intros Hex Hv Hne Hd Hfree.
  destruct (node_at file_path w) as [n|] eqn:Hn;
    [|unfold path_exists in Hex; rewrite Hn in Hex; discriminate].
  set (w1 := printed (MsgProcessingFile (basename file_path) (size n)) w).
  pose proof (shutil_move_into_dir file_path OUTPUT_DIR n w1 Hd Hne Hn Hfree) as M.
  cbn zeta in M. fold (relocated file_path) in M.
  exists (with_fs (<[relocated file_path := n]> (delete file_path (fs w1)))
            (log (EvMove file_path OUTPUT_DIR) w1)), (size n).
  split; [now rewrite (process_file_plain _ n w Hn Hv)|].
  assert (Hrf : relocated file_path <> file_path).
  { intros E. unfold path_exists in Hfree, Hex. rewrite E, Hn in Hfree. discriminate. }
  split; [|split; [|split]].
  - unfold node_at. cbn [fs with_fs].
    destruct (String.eqb_spec (relocated file_path) "") as [E|_];
      [now destruct (relocated_nonempty file_path)|].
    apply lookup_insert_eq.
  - unfold path_exists, node_at. cbn [fs with_fs].
    destruct (String.eqb file_path ""); [reflexivity|].
    rewrite lookup_insert_ne by exact Hrf. now rewrite lookup_delete_eq.
  - intros p Hp1 Hp2. unfold node_at. cbn [fs with_fs].
    destruct (String.eqb p ""); [reflexivity|].
    rewrite lookup_insert_ne by congruence.
    now rewrite lookup_delete_ne by congruence.
  - cbn [trace with_fs log w1 printed]. now rewrite <- app_assoc.
Qed.

(** X18.  A file that is not a video, in a world where the output
    directory exists and holds nothing of that name, is moved as it is:
    [process_file] returns, the file is no longer at its path, what was
    there is now under its base name in the output directory, nothing
    else on disk changes, and ffmpeg is not run. *)
Theorem process_file_relocates (file_path : string) (w : World) :
  path_exists file_path w = true ->
  is_video file_path = false ->
  file_path <> OUTPUT_DIR ->
  path_isdir OUTPUT_DIR w = true ->
  path_exists (relocated file_path) w = false ->
  exists w' sz,
    process_file file_path w = (Ok tt, w') /\
    node_at (relocated file_path) w' = node_at file_path w /\
    path_exists file_path w' = false /\
    (forall p, p <> file_path -> p <> relocated file_path ->
               node_at p w' = node_at p w) /\
    trace w' = trace w ++ [EvPrint (now w) (MsgProcessingFile (basename file_path) sz);
                           EvMove file_path OUTPUT_DIR].
Proof. apply process_file_plain_run. Qed.

Lemma process_file_relocates_witness :
  exists w' sz,
    process_file notes (delivered with_notes) = (Ok tt, w') /\
    node_at (relocated notes) w' = node_at notes (delivered with_notes) /\
    path_exists notes w' = false /\
    (forall p, p <> notes -> p <> relocated notes ->
               node_at p w' = node_at p (delivered with_notes)) /\
    trace w' = trace (delivered with_notes)
               ++ [EvPrint (now (delivered with_notes))
                     (MsgProcessingFile (basename notes) sz);
                   EvMove notes OUTPUT_DIR].
Proof.
  apply (process_file_relocates notes (delivered with_notes)).
  - vm_compute. reflexivity.
  - vm_compute. reflexivity.
  - discriminate.
  - vm_compute. reflexivity.
  - vm_compute. reflexivity.
Defined.

(** The post-processing stops at a file whose name is taken. *)
Lemma process_downloaded_files_clash f rest name w :
  path_exists f w = true -> is_video f = false -> f <> OUTPUT_DIR ->
  path_isdir OUTPUT_DIR w = true ->
  path_exists (relocated f) w = true ->
  exists w' sz,
    process_downloaded_files (f :: rest) name w
    = (Raise (ShutilError (relocated f)), w') /\
    fs w' = fs w /\ now w' = now w /\
    trace w' = trace w ++ [EvPrint (now w) (MsgProcessing (S (length rest)) name);
                           EvPrint (now w) (MsgProcessingFile (basename f) sz);
                           EvMove f OUTPUT_DIR].
Proof.
  intros Hex Hv Hne Hd Htaken.
  destruct (node_at f w) as [n|] eqn:Hn;
    [|unfold path_exists in Hex; rewrite Hn in Hex; discriminate].
  set (w0 := printed (MsgProcessing (length (f :: rest)) name) w).
  set (w1 := printed (MsgProcessingFile (basename f) (size n)) w0).
  pose proof (shutil_move_clash f OUTPUT_DIR w1 Hd Hne Htaken) as M.
  cbn zeta in M. fold (relocated f) in M.
  exists (log (EvMove f OUTPUT_DIR) w1), (size n).
  split.
  - unfold process_downloaded_files. unfold bind at 1. unfold print at 1.
    fold w0. unfold bind at 1. cbn [process_each]. unfold bind at 1.
    rewrite (process_file_plain f n w0 Hn Hv). fold w1. now rewrite M.
  - split; [reflexivity|]. split; [reflexivity|].
    cbn [trace log w1 w0 printed now]. now rewrite <- !app_assoc.
Qed.

(** X19.  A name that is taken in the output directory turns a completed
    download into a failure.  When the session completed and the first
    file it delivered is not a video and has its base name already in the
    output directory, [shutil.move] raises, [download_item] returns
    [False], and the post-processing has changed nothing on disk: that
    file and all the files after it stay where the engine put them. *)
Theorem download_item_name_clash (item : string)
    (selected_files : option (list Z)) (w : World) (gid : string)
    (w1 w2 : World) (f : string) (rest : list string) :
  let name := item_name item w in
  submit_item item selected_files (printed (MsgStarting name) w)
  = (Ok (Continue (Some gid)), w1) ->
  gid <> "" ->
  monitor_download gid name 600 w1 = (Ok (f :: rest), w2) ->
  is_video f = false -> f <> OUTPUT_DIR ->
  path_isdir OUTPUT_DIR w2 = true ->
  path_exists (relocated f) w2 = true ->
  exists w' evs,
    download_item item selected_files w = (Ok false, w') /\
    fs w' = fs w2 /\
    Forall (fun p => path_exists p w' = true) (f :: rest) /\
    trace w' = trace w2 ++ evs /\
    moves evs = [(f, OUTPUT_DIR)] /\ commands evs = [] /\
    last evs = Some (EvPrint (now w2)
                       (MsgDownloadFailed (ShutilError (relocated f)))).
Proof.
  cbn zeta. intros Hs Hg Hm Hv Hne Hd Htaken.
  set (name := item_name item w) in *.
  destruct (monitor_download_run gid name 600 w1)
    as (d & w2' & em & E & _ & _ & _ & _ & _ & O).
  rewrite Hm in E. injection E as <- <-.
  assert (Hall : Forall (fun p => path_exists p w2 = true) (f :: rest)).
  { destruct O as [[_ O]|[[_ O]|[_ [O _]]]]; [exact O | discriminate..]. }
  assert (Hex : path_exists f w2 = true) by (now inversion Hall).
  destruct (process_downloaded_files_clash f rest name w2 Hex Hv Hne Hd Htaken)
    as (w3 & sz & P & Hfs & Hnow & Htr).
  exists (printed (MsgDownloadFailed (ShutilError (relocated f))) w3),
    ([EvPrint (now w2) (MsgProcessing (S (length rest)) name);
      EvPrint (now w2) (MsgProcessingFile (basename f) sz);
      EvMove f OUTPUT_DIR]
     ++ [EvPrint (now w2) (MsgDownloadFailed (ShutilError (relocated f)))]).
  split.
  - unfold download_item, bind at 1, print at 1, try_except, bind at 1.
    fold name. rewrite Hs. unfold watch_item.
    destruct (String.eqb_spec gid "") as [->|_]; [contradiction|].
    unfold bind at 1. rewrite Hm. unfold bind at 1. rewrite P.
    unfold bind, print, ret. reflexivity.
  - split; [exact Hfs|]. split.
    + eapply Forall_impl; [exact Hall|]. cbn. intros p Hp.
      now rewrite (path_exists_fs p w2
                     (printed (MsgDownloadFailed (ShutilError (relocated f))) w3) Hfs).
    + split; [cbn [trace printed log]; rewrite Htr, Hnow; now rewrite <- app_assoc|].
      split; [reflexivity|]. split; reflexivity.
Qed.

Lemma download_item_name_clash_witness :
  exists w' evs,
    download_item magnet None (delivered name_taken) = (Ok false, w') /\
    fs w' = name_taken /\
    Forall (fun p => path_exists p w' = true) [notes] /\
    (exists w2, trace w' = trace w2 ++ evs) /\
    moves evs = [(notes, OUTPUT_DIR)] /\ commands evs = [].
Proof.
  pose (w := delivered name_taken).
  pose (w0 := printed (MsgStarting (item_name magnet w)) w).
  pose (w1 := snd (submit_item magnet None w0)).
  pose (w2 := snd (monitor_download "2089b05ecca3d829" (item_name magnet w) 600 w1)).
  destruct (download_item_name_clash magnet None w "2089b05ecca3d829" w1 w2 notes [])
    as (w' & evs & E & Hfs & Hall & Htr & Hm & Hc & _).
  - vm_compute. reflexivity.
  - discriminate.
  - vm_compute. reflexivity.
  - vm_compute. reflexivity.
  - discriminate.
  - vm_compute. reflexivity.
  - vm_compute. reflexivity.
  - exists w', evs. split; [exact E|].
    split; [rewrite Hfs; vm_compute; reflexivity|]. split; [exact Hall|].
    split; [now exists w2|]. now split.
Defined.

(** ** How [download_item] takes an item *)

Lemma emits_watch_item ks gid name :
  [KEngine; KMonitor; KEnding; KExtract; KMove; KProcess; KDone] ⊆ ks ->
  emits ks (watch_item gid name).
Proof.
  intros K. unfold watch_item. destruct gid as [g|]; [|apply emits_ret].
  destruct (String.eqb g ""); [apply emits_ret|].
  apply emits_bind; [apply emits_monitor_download; kinds|].
  intros [|f rest]; [apply emits_ret|].
  apply emits_bind; [apply emits_process_downloaded_files; kinds|].
  intros _. apply emits_ret.
Qed.

(** Once the item is submitted, what follows only adds to the trace. *)
Lemma download_item_after_submit item selected w gid w1 :
  submit_item item selected (printed (MsgStarting (item_name item w)) w)
  = (Ok (Continue gid), w1) ->
  exists evs, trace (snd (download_item item selected w)) = trace w1 ++ evs.
Proof.
  intros Hs.
  set (h := fun e : Exn => bind (print (MsgDownloadFailed e)) (fun _ => ret false)).
  assert (Hh : forall e,
    emits [KEngine; KMonitor; KEnding; KExtract; KMove; KProcess; KDone; KItem] (h e)).
  { intros e. unfold h. apply emits_bind; [apply emits_print; kinds|].
    intros _. apply emits_ret. }
  destruct (emits_try _ (watch_item gid (item_name item w)) h
              (emits_watch_item [KEngine; KMonitor; KEnding; KExtract; KMove; KProcess; KDone; KItem]
                 gid _ ltac:(kinds)) Hh w1) as (evs & E & _).
  exists evs. rewrite <- E.
  unfold download_item, bind at 1, print at 1, try_except, bind at 1.
  now rewrite Hs.
Qed.

Lemma add_magnet_link_run magnet_uri w :
  exists r w' evs,
    add_magnet_link magnet_uri w = (Ok r, w') /\
    talks w w' evs /\
    requests evs = [("aria2.addUri", [AList [AStr magnet_uri]; magnet_options])].
Proof.
  unfold add_magnet_link, try_except, bind. fold magnet_options.
  destruct (aria2_call_talks "aria2.addUri"
              [AList [AStr magnet_uri]; magnet_options] w)
    as (rr & w' & evs & E & T & Q).
  rewrite E. eexists _, w', _.
  split; [reflexivity|]. split; [exact T|].
  rewrite requests_call, (requests_quiet evs Q). reflexivity.
Qed.

(** X20.  [download_item] never raises and takes an item in one of three
    ways, tried in this order.  A path to a file on disk whose name ends
    in [.torrent], in any case, is sent with [aria2.addTorrent], paused
    exactly when a selection was given; otherwise an item that begins
    with [magnet:] is sent with [aria2.addUri]; anything else, a
    [.torrent] path that is not on disk included, is reported as
    unsupported: the method returns [False] having printed two lines,
    sent nothing to the engine and touched nothing on disk. *)
Theorem download_item_dispatch (item : string)
    (selected_files : option (list Z)) (w : World) :
  let name := item_name item w in
  exists b w' evs,
    download_item item selected_files w = (Ok b, w') /\
    trace w' = trace w ++ EvPrint (now w) (MsgStarting name) :: evs /\
    if path_isfile item w && endswith (lower item) ".torrent"
    then head (requests evs)
         = Some (add_torrent item (has_selection selected_files))
    else if startswith item "magnet:"
    then head (requests evs)
         = Some ("aria2.addUri", [AList [AStr item]; magnet_options])
    else b = false /\ evs = [EvPrint (now w) (MsgUnsupported item)] /\
         posts w' = posts w /\ fs w' = fs w.
Proof.
  intros name. set (w0 := printed (MsgStarting name) w).
  assert (T0 : forall w1 e1 w' e2,
             trace w1 = trace w0 ++ e1 -> trace w' = trace w1 ++ e2 ->
             trace w' = trace w ++ EvPrint (now w) (MsgStarting name) :: e1 ++ e2).
  { intros w1 e1 w' e2 E1 E2. rewrite E2, E1. cbn [w0 trace printed log].
    now rewrite <- !app_assoc. }
  destruct (download_item_run item selected_files w) as (b & w' & _ & E & _).
  destruct (path_isfile item w && endswith (lower item) ".torrent") eqn:Hc;
    [|destruct (startswith item "magnet:") eqn:Hm].
  - assert (Hf : path_isfile item w0 = true)
      by (now apply andb_true_iff in Hc as [Hc _]).
    destruct (add_torrent_file_run item selected_files w0 Hf)
      as (r & w1 & e1 & E1 & T1 & rest & R1 & _).
    assert (Hs : submit_item item selected_files w0 = (Ok (Continue r), w1)).
    { unfold submit_item. change (path_isfile item w0) with (path_isfile item w).
      rewrite Hc. unfold bind. now rewrite E1. }
    destruct (download_item_after_submit item selected_files w r w1 Hs) as (e2 & E2).
    rewrite E in E2. cbn [snd] in E2.
    exists b, w', (e1 ++ e2). split; [exact E|].
    split; [exact (T0 _ _ _ _ (talks_trace _ _ _ T1) E2)|].
    now rewrite requests_app, R1.
  - destruct (add_magnet_link_run item w0) as (r & w1 & e1 & E1 & T1 & R1).
    assert (Hs : submit_item item selected_files w0 = (Ok (Continue r), w1)).
    { unfold submit_item. change (path_isfile item w0) with (path_isfile item w).
      rewrite Hc, Hm. unfold bind. now rewrite E1. }
    destruct (download_item_after_submit item selected_files w r w1 Hs) as (e2 & E2).
    rewrite E in E2. cbn [snd] in E2.
    exists b, w', (e1 ++ e2). split; [exact E|].
    split; [exact (T0 _ _ _ _ (talks_trace _ _ _ T1) E2)|].
    now rewrite requests_app, R1.
  - exists false, (printed (MsgUnsupported item) w0),
      [EvPrint (now w) (MsgUnsupported item)].
    split.
    + unfold download_item, bind at 1, print at 1, try_except, bind at 1.
      fold name. fold w0. unfold submit_item.
      change (path_isfile item w0) with (path_isfile item w).
      now rewrite Hc, Hm.
    + split; [cbn [w0 trace printed log]; now rewrite <- app_assoc|].
      repeat split.
Qed.

Lemma in_relocated rest x :
  x ∈ map relocated rest -> exists g, x = relocated g /\ g ∈ rest.
Proof. intros H. exact (list_elem_of_fmap_1 relocated rest x H). Qed.

Lemma relocated_in rest g : g ∈ rest -> relocated g ∈ map relocated rest.
Proof. intros H. exact (list_elem_of_fmap_2 relocated rest g H). Qed.

Lemma path_exists_node p w w' :
  node_at p w' = node_at p w -> path_exists p w' = path_exists p w.
Proof. unfold path_exists. now intros ->. Qed.

Lemma exists_differ p q w :
  path_exists p w = true -> path_exists q w = false -> p <> q.
Proof. intros Hp Hq ->. congruence. Qed.

(** Files that can be moved as they are, to names that differ, are all
    moved. *)
Lemma process_each_relocates : forall files w,
  path_isdir OUTPUT_DIR w = true ->
  NoDup (map relocated files) ->
  Forall (movable w) files ->
  exists w' evs,
    process_each files w = (Ok tt, w') /\
    trace w' = trace w ++ evs /\
    moves evs = map (fun f => (f, OUTPUT_DIR)) files /\
    commands evs = [] /\
    Forall (fun f => node_at (relocated f) w' = node_at f w /\
                     path_exists f w' = false) files /\
    (forall p, p ∉ files -> p ∉ map relocated files ->
               node_at p w' = node_at p w).
Proof.
  intros fl. induction fl as [|f rest IH]; intros w Hd Hnd Hall.
  { exists w, []. split; [reflexivity|]. split; [now rewrite app_nil_r|].
    split; [reflexivity|]. split; [reflexivity|]. split; [constructor|]. reflexivity. }
  cbn [map] in Hnd. apply NoDup_cons in Hnd as [Hf Hnd].
  apply Forall_cons in Hall as [(Hex & Hv & Hne & Hfree) Hrest].
  rewrite Forall_forall in Hrest.
  destruct (process_file_plain_run f w Hex Hv Hne Hd Hfree)
    as (w1 & sz & E1 & N1 & G1 & O1 & T1).
  assert (Hout : path_exists OUTPUT_DIR w = true).
  { unfold path_isdir in Hd. unfold path_exists.
    now destruct (node_at OUTPUT_DIR w). }
  assert (Hg : forall g, g ∈ rest ->
             g <> f /\ g <> relocated f /\ relocated g <> f
             /\ relocated g <> relocated f).
  { intros g Hin. destruct (Hrest g Hin) as (Hgex & _ & _ & Hgfree).
    split; [intros ->; now apply Hf, relocated_in|].
    split; [exact (exists_differ _ _ w Hgex Hfree)|].
    split; [intros E; symmetry in E; exact (exists_differ _ _ w Hex Hgfree E)|].
    intros E. apply Hf. rewrite <- E. now apply relocated_in. }
  destruct (IH w1) as (w' & evs & E2 & T2 & M2 & C2 & F2 & O2).
  { unfold path_isdir. rewrite O1; [exact Hd | congruence|].
    exact (exists_differ _ _ w Hout Hfree). }
  { exact Hnd. }
  { apply Forall_forall. intros g Hin.
    destruct (Hrest g Hin) as (Hgex & Hgv & Hgne & Hgfree).
    destruct (Hg g Hin) as (G1' & G2' & G3' & G4').
    split; [now rewrite (path_exists_node g w w1 (O1 g G1' G2'))|].
    split; [exact Hgv|]. split; [exact Hgne|].
    now rewrite (path_exists_node _ w w1 (O1 _ G3' G4')). }
  assert (Hf1 : f ∉ rest) by (intros Hin; now destruct (Hg f Hin) as (G & _)).
  assert (Hf2 : f ∉ map relocated rest).
  { intros Hin. apply in_relocated in Hin as (g & -> & Hin).
    now destruct (Hg g Hin) as (_ & _ & G & _). }
  assert (Hf3 : relocated f ∉ rest)
    by (intros Hin; now destruct (Hg _ Hin) as (_ & G & _)).
  exists w',
    ([EvPrint (now w) (MsgProcessingFile (basename f) sz); EvMove f OUTPUT_DIR]
     ++ evs).
  split; [cbn [process_each]; unfold bind; now rewrite E1|].
  split; [rewrite T2, T1; now rewrite <- app_assoc|].
  split; [rewrite moves_app, M2; reflexivity|].
  split; [rewrite commands_app, C2; reflexivity|].
  split.
  - constructor.
    + split; [now rewrite (O2 _ Hf3 Hf)|].
      now rewrite (path_exists_node f w1 w' (O2 f Hf1 Hf2)).
    + rewrite Forall_forall in F2. apply Forall_forall. intros g Hin.
      destruct (F2 g Hin) as [F2a F2b]. destruct (Hg g Hin) as (G1' & G2' & _).
      split; [now rewrite F2a, (O1 g G1' G2') | exact F2b].
  - intros p Hp1 Hp2. cbn [map] in Hp2.
    apply not_elem_of_cons in Hp1 as [Hp1 Hp1'].
    apply not_elem_of_cons in Hp2 as [Hp2 Hp2'].
    now rewrite (O2 p Hp1' Hp2'), (O1 p Hp1 Hp2).
Qed.

(** X21.  Nothing is lost on the way.  When the output directory exists
    and the delivered files are on disk, are not videos, and have base
    names that differ from each other and are free in the output
    directory, [process_downloaded_files] returns without raising: every
    file has left its path and is, as it was, under its base name in the
    output directory; one move per file, in the order of the list; no
    run of ffmpeg; nothing else on disk has changed. *)
Theorem process_downloaded_files_relocates_all (files : list string)
    (name : string) (w : World) :
  path_isdir OUTPUT_DIR w = true ->
  NoDup (map relocated files) ->
  Forall (movable w) files ->
  exists w' evs,
    process_downloaded_files files name w = (Ok tt, w') /\
    trace w' = trace w ++ evs /\
    moves evs = map (fun f => (f, OUTPUT_DIR)) files /\
    commands evs = [] /\
    Forall (fun f => node_at (relocated f) w' = node_at f w /\
                     path_exists f w' = false) files /\
    (forall p, p ∉ files -> p ∉ map relocated files ->
               node_at p w' = node_at p w).
Proof.
  intros Hd Hnd Hall.
  set (w0 := printed (MsgProcessing (length files) name) w).
  destruct (process_each_relocates files w0 Hd Hnd Hall)
    as (w1 & evs & E & T & M & C & F & O).
  exists (printed (MsgProcessed name) w1),
    ([EvPrint (now w) (MsgProcessing (length files) name)] ++ evs
     ++ [EvPrint (now w1) (MsgProcessed name)]).
  split; [unfold process_downloaded_files, bind; unfold print at 1; fold w0;
          now rewrite E|].
  split; [cbn [trace printed log]; rewrite T; cbn [w0 trace printed log];
          now rewrite <- !app_assoc|].
  split; [rewrite !moves_app, M; cbn; now rewrite app_nil_r|].
  split; [rewrite !commands_app, C; reflexivity|].
  split; [exact F | exact O].
Qed.

Lemma process_downloaded_files_relocates_all_witness :
  exists w' evs,
    process_downloaded_files [notes; readme] "docs" (delivered with_two)
    = (Ok tt, w') /\
    trace w' = trace (delivered with_two) ++ evs /\
    moves evs = [(notes, OUTPUT_DIR); (readme, OUTPUT_DIR)] /\
    commands evs = [] /\
    Forall (fun f => node_at (relocated f) w' = node_at f (delivered with_two) /\
                     path_exists f w' = false) [notes; readme] /\
    (forall p, p ∉ [notes; readme] -> p ∉ map relocated [notes; readme] ->
               node_at p w' = node_at p (delivered with_two)).
Proof.
  apply (process_downloaded_files_relocates_all [notes; readme] "docs"
           (delivered with_two)).
  - vm_compute. reflexivity.
  - repeat (apply NoDup_cons; split); try apply NoDup_nil_2;
      rewrite ?not_elem_of_cons; repeat split; try discriminate;
      apply not_elem_of_nil.
  - repeat constructor; try discriminate; vm_compute; reflexivity.
Defined.
